(** * Conformal prediction: calibration and inference

    A shallow embedding of [conformal/__init__.py] (class
    [ConformalPrediction]) and the properties of its operations.

    Numbers.  Python floats and numpy [float64] entries are modelled as exact
    rationals ([Q]); rounding is not modelled.  The one non-number a
    percentile can yield, numpy's [nan], is a separate constructor of
    [npfloat].

    Objects.  numpy arrays live on a heap and are passed by address, so that
    [model_output.copy()] and the row views handed to the measure keep their
    aliasing.  The attributes of the predictor instance ([self.__dict__]) are a
    finite map from attribute names to values. *)

From Stdlib Require Import ZArith QArith Qround Lia Lqa List Bool Sorted.
From stdpp Require Import base option list gmap strings fin_maps.

Local Open Scope Q_scope.
Local Open Scope nat_scope.

(** ** Python values, exceptions, results *)

Inductive exn : Type :=
| TypeError
| ValueError
| IndexError
| KeyError
| AttributeError
| ZeroDivisionError.

Inductive result (A : Type) : Type :=
| Ok (a : A)
| Raise (e : exn).
Arguments Ok {A} a.
Arguments Raise {A} e.

(** A [float64] as numpy hands it back: a number or [nan]. *)
Inductive npfloat : Type :=
| Fin (q : Q)
| NaN.

(** [score <= threshold] as Python evaluates it: any comparison with [nan]
    is [False]. *)
Definition le_npfloat (score : Q) (t : npfloat) : bool :=
  match t with
  | Fin q => Qle_bool score q
  | NaN => false
  end.

(** A 2-D numpy array: [shape[1]] and the rows.  (An array with no row still
    has its number of columns.) *)
Record ndarray : Type := mk_ndarray {
  shape1 : nat;
  rows : list (list Q)
}.

Definition wf_array (a : ndarray) : Prop :=
  Forall (fun r => length r = shape1 a) (rows a).

Abbreviation addr := nat (only parsing).

(** The Python objects the constructor and the methods are called with. *)
Inductive value : Type :=
| VInt (z : Z)
| VBool (b : bool)
| VFloat (q : Q)
| VStr (s : string)
| VNone
| VList (l : list (list Q))
| VArray (a : addr).

(** [type(v).__module__]. *)
Definition type_module (v : value) : string :=
  match v with
  | VArray _ => "numpy"
  | _ => "builtins"
  end.

(** [type(v).__name__]. *)
Definition type_name (v : value) : string :=
  match v with
  | VInt _ => "int"
  | VBool _ => "bool"
  | VFloat _ => "float"
  | VStr _ => "str"
  | VNone => "NoneType"
  | VList _ => "list"
  | VArray _ => "ndarray"
  end.

(** The values of instance attributes. *)
Inductive attr : Type :=
| AInt (z : Z)
| AIntList (l : list Z)
| ANum (q : Q)
| AMeasure
| ADict (d : gmap nat npfloat)
| ANone.

(** A histogram handed to the rendering sink:
    [(labels_count, bins, path, title)]. *)
Definition plot : Type := list Z * nat * string * string.

Record state : Type := mk_state {
  heap : list ndarray;
  self : gmap string attr;
  plots : list plot
}.

Definition set_heap (h : list ndarray) (st : state) : state :=
  mk_state h (self st) (plots st).
Definition set_self (s : gmap string attr) (st : state) : state :=
  mk_state (heap st) s (plots st).
Definition set_plots (p : list plot) (st : state) : state :=
  mk_state (heap st) (self st) p.

#[global] Instance ndarray_inhabited : Inhabited ndarray :=
  populate (mk_ndarray 0 []).

(** ** The monad of Python statements: state and exceptions *)

Definition M (A : Type) : Type := state -> result A * state.

Definition ret {A} (a : A) : M A := fun st => (Ok a, st).
Definition raise {A} (e : exn) : M A := fun st => (Raise e, st).
Definition bind {A B} (m : M A) (f : A -> M B) : M B :=
  fun st =>
    match m st with
    | (Ok a, st') => f a st'
    | (Raise e, st') => (Raise e, st')
    end.
Definition lift {A} (r : result A) : M A := fun st => (r, st).

Notation "'let!' x ':=' m 'in' k" := (bind m (fun x => k))
  (at level 10, x name, m at level 100, k at level 200).
Notation "'do!' m 'in' k" := (bind m (fun _ => k))
  (at level 10, m at level 100, k at level 200).

(** [[f(x) for x in l]] and [for x in l: out.append(f(x))]. *)
Fixpoint for_each {A B} (f : A -> M B) (l : list A) : M (list B) :=
  match l with
  | [] => ret []
  | x :: l' => let! y := f x in let! ys := for_each f l' in ret (y :: ys)
  end.

(** [[x for x in l if c(x)]]. *)
Fixpoint filter_where {A} (c : A -> M bool) (l : list A) : M (list A) :=
  match l with
  | [] => ret []
  | x :: l' =>
      let! b := c x in
      let! ys := filter_where c l' in
      ret (if b then x :: ys else ys)
  end.

(** A [for] loop that updates a local variable. *)
Fixpoint fold_loop {A S} (f : S -> A -> M S) (l : list A) (s : S) : M S :=
  match l with
  | [] => ret s
  | x :: l' => let! s' := f s x in fold_loop f l' s'
  end.

(** ** The parts of Python and numpy the class uses *)

Definition Qlt_bool (a b : Q) : bool := negb (Qle_bool b a).

(** [np.where(mask)[0]]: the indices at which [mask] holds, ascending. *)
Fixpoint np_where_from (i : nat) (mask : list bool) : list nat :=
  match mask with
  | [] => []
  | b :: m => if b then i :: np_where_from (S i) m else np_where_from (S i) m
  end.
Definition np_where (mask : list bool) : list nat := np_where_from 0 mask.

(** [np.where(row == 1)[0][0]]: the first index holding a 1; indexing the
    empty index array raises [IndexError]. *)
Definition true_label (row : list Q) : result nat :=
  match np_where (map (fun x => Qeq_bool x 1) row) with
  | i :: _ => Ok i
  | [] => Raise IndexError
  end.

(** A Python [dict] with integer keys, in insertion order. *)
Definition pydict (V : Type) : Type := list (nat * V).

Fixpoint dict_get {V} (d : pydict V) (k : nat) : option V :=
  match d with
  | [] => None
  | (k', v) :: d' => if Nat.eqb k' k then Some v else dict_get d' k
  end.

(** Replace the value at an existing key, in place. *)
Fixpoint dict_set {V} (d : pydict V) (k : nat) (v : V) : pydict V :=
  match d with
  | [] => []
  | (k', v') :: d' =>
      if Nat.eqb k' k then (k', v) :: d' else (k', v') :: dict_set d' k v
  end.

Definition dict_keys {V} (d : pydict V) : list nat := map fst d.

(** [{label: [] for label in range(n)}]. *)
Definition empty_lists (n : nat) : pydict (list Q) :=
  map (fun label => (label, [])) (seq 0 n).

Fixpoint insert_sorted (x : Q) (l : list Q) : list Q :=
  match l with
  | [] => [x]
  | y :: l' => if Qle_bool x y then x :: y :: l' else y :: insert_sorted x l'
  end.

Definition sort_scores (l : list Q) : list Q := foldr insert_sorted [] l.

Definition of_nat (n : nat) : Q := inject_Z (Z.of_nat n).

(** numpy's interpolation between two neighbours. *)
Definition lerp (a b t : Q) : Q :=
  (if Qle_bool (1 # 2) t then b - (b - a) * (1 - t) else a + (b - a) * t)%Q.

(** Modelled from the spec: [np.percentile(a, q)] of numpy, which is not
    under the repository's sources, on a non-empty 1-D input: the empirical
    quantile with linear interpolation between closest ranks.  The index
    [(n-1) * q/100] is split into its floor and its fraction. *)
Definition percentile_nonempty (a : list Q) (q : Q) : Q :=
  let sorted := sort_scores a in
  let n := length a in
  let virtual_index := (of_nat (n - 1) * (q / 100))%Q in
  let previous := Z.to_nat (Qfloor virtual_index) in
  let next := Nat.min (previous + 1) (n - 1) in
  let gamma := (virtual_index - of_nat previous)%Q in
  lerp (nth previous sorted 0%Q) (nth next sorted 0%Q) gamma.

(** [np.concatenate]: refuses an empty sequence of arrays. *)
Definition np_concatenate (ls : list (list Q)) : result (list Q) :=
  match ls with
  | [] => Raise ValueError
  | _ => Ok (concat ls)
  end.

Definition list_min (x : Q) (l : list Q) : Q :=
  fold_left (fun m y => if Qle_bool m y then m else y) l x.
Definition list_max (x : Q) (l : list Q) : Q :=
  fold_left (fun m y => if Qle_bool m y then y else m) l x.

(** The range [np.histogram] bins over when none is given: [(0, 1)] for no
    data, else minimum and maximum, widened by a half on each side when they
    coincide. *)
Definition outer_edges (a : list Q) : Q * Q :=
  match a with
  | [] => (0%Q, 1%Q)
  | x :: l =>
      let first_edge := list_min x l in
      let last_edge := list_max x l in
      if Qeq_bool first_edge last_edge
      then ((first_edge - (1 # 2))%Q, (last_edge + (1 # 2))%Q)
      else (first_edge, last_edge)
  end.

(** [np.linspace(first, last, bins + 1)[j]]. *)
Definition bin_edge (first_edge last_edge : Q) (bins j : nat) : Q :=
  if Nat.eqb j bins then last_edge
  else (first_edge + of_nat j * ((last_edge - first_edge) / of_nat bins))%Q.

(** Bin [j] is half-open, except the last one, which includes its right
    edge. *)
Definition in_bin (first_edge last_edge : Q) (bins j : nat) (x : Q) : bool :=
  Qle_bool (bin_edge first_edge last_edge bins j) x &&
  (if Nat.eqb (S j) bins
   then Qle_bool x (bin_edge first_edge last_edge bins (S j))
   else Qlt_bool x (bin_edge first_edge last_edge bins (S j))).

Definition count_where {A} (p : A -> bool) (l : list A) : nat :=
  length (List.filter p l).

(** Modelled from the spec: [np.histogram(a, bins=bins)[0]] of numpy, which
    is not under the repository's sources: the counts of [bins] equal-width
    bins over the range of the data. *)
Definition np_histogram (a : list Q) (bins : nat) : result (list Z) :=
  if Nat.eqb bins 0 then Raise ValueError
  else
    let '(first_edge, last_edge) := outer_edges a in
    Ok (map (fun j => Z.of_nat (count_where (in_bin first_edge last_edge bins j) a))
            (seq 0 bins)).

(** ** The class [ConformalPrediction] *)

Section ConformalPrediction.

(** The measure object ([measures.Ratio()] by default; the module
    [measures] is not under the repository's sources).  A call
    [measure.measure(output, label)] returns a score; since [output] is a view
    of a row of the array being iterated, whatever the call writes into it
    lands in that array: the second component lists these writes,
    [(index, value)], in order.  A pure measure has none. *)
Variable measure : list Q -> nat -> Q * list (nat * Q).

(** What [np.percentile] does with an empty input: numpy releases differ
    ([nan] with a warning, or an [IndexError]). *)
Variable percentile_of_empty : result npfloat.

Definition pure_measure : Prop := forall row label, snd (measure row label) = [].

(** [np.percentile(a, q)]. *)
Definition percentile (a : list Q) (q : Q) : result npfloat :=
  if Qlt_bool q 0 || Qlt_bool 100 q then Raise ValueError
  else match a with
       | [] => percentile_of_empty
       | _ => Ok (Fin (percentile_nonempty a q))
       end.

(** *** Attributes and arrays *)

Definition getattr (name : string) : M attr :=
  fun st =>
    match self st !! name with
    | Some v => (Ok v, st)
    | None => (Raise AttributeError, st)
    end.

Definition setattr (name : string) (v : attr) : M unit :=
  fun st => (Ok tt, set_self (<[name := v]> (self st)) st).

(** [a.copy()]: a new array with the same contents. *)
Definition np_copy (a : addr) : M addr :=
  fun st => (Ok (length (heap st)), set_heap (heap st ++ [heap st !!! a]) st).

(** [a.shape[1]]. *)
Definition np_shape1 (a : addr) : M nat :=
  fun st => (Ok (shape1 (heap st !!! a)), st).

(** [len(a)]. *)
Definition np_len (a : addr) : M nat :=
  fun st => (Ok (length (rows (heap st !!! a))), st).

(** [a[i]], read. *)
Definition np_getitem (a : addr) (i : nat) : M (list Q) :=
  fun st =>
    match rows (heap st !!! a) !! i with
    | Some r => (Ok r, st)
    | None => (Raise IndexError, st)
    end.

Definition apply_writes (row : list Q) (writes : list (nat * Q)) : list Q :=
  fold_left (fun r w => <[fst w := snd w]> r) writes row.

Definition write_row (a : addr) (k : nat) (row : list Q) (h : list ndarray)
  : list ndarray :=
  <[a := mk_ndarray (shape1 (h !!! a)) (<[k := row]> (rows (h !!! a)))]> h.

(** [self.measure.measure(output, label)] where [output] is the view of row
    [k] of the array at [a]. *)
Definition call_measure (a : addr) (k : nat) (label : nat) : M Q :=
  let! m := getattr "measure" in
  match m with
  | AMeasure =>
      fun st =>
        let row := rows (heap st !!! a) !!! k in
        let '(score, writes) := measure row label in
        (Ok score, set_heap (write_row a k (apply_writes row writes) (heap st)) st)
  | _ => raise AttributeError
  end.

(** [self.thresholds[i]]. *)
Definition get_threshold (i : nat) : M npfloat :=
  let! t := getattr "thresholds" in
  match t with
  | ADict d =>
      match d !! i with
      | Some x => ret x
      | None => raise KeyError
      end
  | _ => raise TypeError
  end.

(** [self.labels]. *)
Definition get_labels : M nat :=
  let! l := getattr "labels" in
  match l with
  | AInt z => ret (Z.to_nat z)
  | _ => raise TypeError
  end.

(** *** Calibration *)

(** The grouping loop of [__non_conformity_thresholds], which
    [threshold_measure] repeats word for word:
    [measure = {label: [] for label in range(model_output.shape[1])}] and then,
    for each row, [measure[t].append(self.measure.measure(output, t))] with
    [t = np.where(actual[i] == 1)[0][0]], an expression the statement evaluates
    twice: before the subscription and again as the argument. *)
Definition collect_scores (model_output actual : addr) : M (pydict (list Q)) :=
  let! l := np_shape1 model_output in
  let! n := np_len model_output in
  fold_loop
    (fun measure_d i =>
       let! actual_i := np_getitem actual i in
       let! t := lift (true_label actual_i) in
       match dict_get measure_d t with
       | None => raise KeyError
       | Some scores =>
           let! actual_i' := np_getitem actual i in
           let! t' := lift (true_label actual_i') in
           let! score := call_measure model_output i t' in
           ret (dict_set measure_d t (scores ++ [score]))
       end)
    (seq 0 n) (empty_lists l).

Definition __non_conformity_thresholds (model_output actual : addr) : M attr :=
  let! measure_d := collect_scores model_output actual in
  let! mode := getattr "selected_threshold_mode" in
  match mode with
  | AInt 0 =>
      let! thresholds :=
        for_each
          (fun label =>
             let! eps := getattr "epsilon" in
             match eps with
             | ANum epsilon =>
                 let! p := lift (percentile (default [] (dict_get measure_d label))
                                            (100 - epsilon)%Q) in
                 ret (label, p)
             | _ => raise TypeError
             end)
          (dict_keys measure_d) in
      ret (ADict (list_to_map thresholds))
  | AInt 1 =>
      let! pooled :=
        lift (np_concatenate
                (map (fun label => default [] (dict_get measure_d label))
                     (dict_keys measure_d))) in
      let! eps := getattr "epsilon" in
      match eps with
      | ANum epsilon =>
          let! _percentile := lift (percentile pooled (100 - epsilon)%Q) in
          ret (ADict (list_to_map
                        (map (fun label => (label, _percentile))
                             (dict_keys measure_d))))
      | _ => raise TypeError
      end
  | _ => ret ANone
  end.

Definition __init__ (model_output : value) (actual : addr) (epsilon : Q)
    (threshold_mode : value) : M unit :=
  if negb (String.eqb (type_module model_output) "numpy")
  then raise TypeError
  else if Qlt_bool epsilon 0 || Qlt_bool 100 epsilon
  then raise ValueError
  else if negb (String.eqb (type_name threshold_mode) "int")
  then raise TypeError
  else
    match model_output, threshold_mode with
    | VArray a, VInt mode =>
        if negb (Z.eqb mode 0 || Z.eqb mode 1)
        then raise ValueError
        else
          do! setattr "selected_threshold_mode" (AInt mode) in
          do! setattr "threshold_modes" (AIntList [0%Z; 1%Z]) in
          do! setattr "measure" AMeasure in
          do! setattr "epsilon" (ANum epsilon) in
          let! l := np_shape1 a in
          do! setattr "labels" (AInt (Z.of_nat l)) in
          let! c := np_copy a in
          let! thresholds := __non_conformity_thresholds c actual in
          setattr "thresholds" thresholds
    | _, _ => raise TypeError
    end.

(** *** Inference *)

(** [len(output)] for the view of row [k]. *)
Definition row_len (a : addr) (k : nat) : M nat :=
  fun st => (Ok (length (rows (heap st !!! a) !!! k)), st).

Definition predict (model_output : value) : M (list (list nat)) :=
  if negb (String.eqb (type_module model_output) "numpy")
  then raise TypeError
  else
    match model_output with
    | VArray a =>
        let! c := np_copy a in
        let! n := np_len c in
        for_each
          (fun k =>
             let! len_output := row_len c k in
             filter_where
               (fun i =>
                  let! score := call_measure c k i in
                  let! t := get_threshold i in
                  ret (le_npfloat score t))
               (seq 0 len_output))
          (seq 0 n)
    | _ => raise TypeError
    end.

Definition confidence (model_output : value) : M (list (list Q)) :=
  if negb (String.eqb (type_module model_output) "numpy")
  then raise TypeError
  else
    match model_output with
    | VArray a =>
        let! c := np_copy a in
        let! n := np_len c in
        for_each
          (fun k =>
             let! len_output := row_len c k in
             for_each (fun i => call_measure c k i) (seq 0 len_output))
          (seq 0 n)
    | _ => raise TypeError
    end.

(** No type check and no copy here: an object without [shape] raises
    [AttributeError], and the measure is handed the rows of the caller's
    array. *)
Definition threshold_measure (model_output : value) (actual : addr)
  : M (pydict (list Q)) :=
  match model_output with
  | VArray a => collect_scores a actual
  | _ => raise AttributeError
  end.

(** The rendering sink. *)
Definition __save_histogram_plot (labels_count : list Z) (bins : nat)
    (plots_path : string) (append_title : option string) : M unit :=
  let title :=
    match append_title with
    | Some t => t
    | None => "Histogram of Count of Labels in Prediction "
    end in
  fun st =>
    (Ok tt,
     set_plots (plots st ++ [(labels_count, bins, String.append plots_path ".png", title)]) st).

Definition label_histogram (predictions : list (list nat))
    (save_path : option string) (title : option string) : M (list Z) :=
  let labels_count := map (fun p => Z.of_nat (length p)) predictions in
  let! l0 := get_labels in
  let! _histogram := lift (np_histogram (map inject_Z labels_count) (l0 + 1)) in
  let! l1 := get_labels in
  let! l2 := get_labels in
  let! histogram :=
    lift (np_histogram
            (map inject_Z (labels_count ++ map Z.of_nat (seq 0 (l1 + 1))))
            (l2 + 1)) in
  let histogram := map (fun y => (y - 1)%Z) histogram in
  do! match save_path with
      | Some path =>
          let! l3 := get_labels in
          __save_histogram_plot histogram l3 path title
      | None => ret tt
      end in
  ret histogram.

End ConformalPrediction.

(** [evaluate] is a static method: it reads neither the instance nor the
    heap.  The loop runs over [enumerate(predicted_labels)]; [actual_labels[i]]
    raises [IndexError] past the end. *)
Fixpoint evaluate_loop (predicted_labels : list (list nat))
    (actual_labels : list (list Q)) (i count : nat) : result nat :=
  match predicted_labels with
  | [] => Ok count
  | labels :: rest =>
      match actual_labels !! i with
      | None => Raise IndexError
      | Some row =>
          match true_label row with
          | Raise e => Raise e
          | Ok t =>
              evaluate_loop rest actual_labels (S i)
                (if bool_decide (t ∈ labels) then S count else count)
          end
      end
  end.

(** [count / len(actual_labels)], true division of two integers. *)
Definition evaluate (predicted_labels : list (list nat))
    (actual_labels : list (list Q)) : result Q :=
  match evaluate_loop predicted_labels actual_labels 0 0 with
  | Raise e => Raise e
  | Ok count =>
      if Nat.eqb (length actual_labels) 0 then Raise ZeroDivisionError
      else Ok (of_nat count / of_nat (length actual_labels))%Q
  end.

(** ** Reference notions of the specification *)

(** [np.argmax]: the index of the first greatest entry. *)
Fixpoint argmax_from (best_i : nat) (best : Q) (i : nat) (row : list Q) : nat :=
  match row with
  | [] => best_i
  | x :: r =>
      if Qlt_bool best x then argmax_from i x (S i) r
      else argmax_from best_i best (S i) r
  end.

Definition argmax (row : list Q) : nat :=
  match row with
  | [] => 0
  | x :: r => argmax_from 0 x 1 r
  end.

(** A one-hot row: entries 0 or 1, exactly one 1. *)
Definition is_one_hot (row : list Q) : bool :=
  forallb (fun x => Qeq_bool x 0 || Qeq_bool x 1) row &&
  Nat.eqb (count_where (fun x => Qeq_bool x 1) row) 1.

(** The samples whose prediction set holds the true label, as the
    specification counts them. *)
Definition correct (sample : list nat * list Q) : bool :=
  bool_decide (argmax (snd sample) ∈ fst sample).

(** The same, with the true label read the way the code reads it. *)
Definition hit (sample : list nat * list Q) : bool :=
  match true_label (snd sample) with
  | Ok t => bool_decide (t ∈ fst sample)
  | Raise _ => false
  end.

(** ** Calibration, as the specification describes it *)

Section Reference.

Variable measure : list Q -> nat -> Q * list (nat * Q).

(** The row's true label is [label]. *)
Definition label_is (label : nat) (actual_row : list Q) : bool :=
  match true_label actual_row with
  | Ok t => t =? label
  | Raise _ => false
  end.

(** The calibration scores of [label]: [measure(output_i, label)] for the
    rows [i] whose true label is [label], in row order. *)
Definition calibration_scores (outputs actual : list (list Q)) (label : nat)
  : list Q :=
  flat_map
    (fun sample =>
       if label_is label (snd sample)
       then [fst (measure (fst sample) label)]
       else [])
    (zip outputs actual).

(** The scores of all labels, pooled. *)
Definition pooled_scores (outputs actual : list (list Q)) (n_labels : nat)
  : list Q :=
  concat (map (calibration_scores outputs actual) (seq 0 n_labels)).

End Reference.

(** A calibration batch the grouping loop runs through: a row of [actual] for
    every row of [model_output], each with a 1 at a label index. *)
Definition valid_batch (model_output actual : ndarray) : Prop :=
  length (rows model_output) <= length (rows actual) /\
  Forall (fun row => exists t, true_label row = Ok t /\ t < shape1 model_output)
         (take (length (rows model_output)) (rows actual)).

(** A calibration batch as the specification has it: a one-hot row of
    [actual] for every row of [model_output], its 1 at a label index. *)
Definition one_hot_batch (model_output actual : ndarray) : Prop :=
  length (rows model_output) <= length (rows actual) /\
  Forall (fun row => is_one_hot row = true /\ argmax row < shape1 model_output)
         (take (length (rows model_output)) (rows actual)).

(** The calibration scores of [label] in the specification's words: the
    scores [measure(output_i, label)] of the rows whose true label, the
    argmax of the one-hot row, is [label].  Nothing here reads a row the way
    the code does. *)
Definition spec_scores (measure : list Q -> nat -> Q * list (nat * Q))
    (outputs actual : list (list Q)) (label : nat) : list Q :=
  flat_map
    (fun sample =>
       if argmax (snd sample) =? label
       then [fst (measure (fst sample) label)]
       else [])
    (zip outputs actual).

(** The specification's pooled scores: those of all labels together. *)
Definition spec_pooled_scores (measure : list Q -> nat -> Q * list (nat * Q))
    (outputs actual : list (list Q)) (n_labels : nat) : list Q :=
  concat (map (spec_scores measure outputs actual) (seq 0 n_labels)).

(** [[g(x) for x in l]] where [g] may raise. *)
Fixpoint map_result {A B} (g : A -> result B) (l : list A) : result (list B) :=
  match l with
  | [] => Ok []
  | x :: l' =>
      match g x with
      | Raise e => Raise e
      | Ok y =>
          match map_result g l' with
          | Raise e => Raise e
          | Ok ys => Ok (y :: ys)
          end
      end
  end.

(** The greatest and the least score of a list. *)
Definition maximum (scores : list Q) : Q :=
  match scores with
  | [] => 0%Q
  | x :: l => list_max x l
  end.
Definition minimum (scores : list Q) : Q :=
  match scores with
  | [] => 0%Q
  | x :: l => list_min x l
  end.

(** The instance attributes once [__init__] has set all but [thresholds]. *)
Definition init_attrs (mode : Z) (epsilon : Q) (n_labels : nat)
    (s : gmap string attr) : gmap string attr :=
  <["labels" := AInt (Z.of_nat n_labels)]>
    (<["epsilon" := ANum epsilon]>
       (<["measure" := AMeasure]>
          (<["threshold_modes" := AIntList [0%Z; 1%Z]]>
             (<["selected_threshold_mode" := AInt mode]> s)))).

(** The state in which [__init__] calls [__non_conformity_thresholds]: the
    attributes set, the copy of [model_output] allocated. *)
Definition init_state (mode : Z) (epsilon : Q) (a : addr) (st : state) : state :=
  mk_state (heap st ++ [heap st !!! a])
           (init_attrs mode epsilon (shape1 (heap st !!! a)) (self st))
           (plots st).

(** ** The scenario of the specification

    Three labels; six calibration rows with true labels 0,0,1,1,2,2 and
    scores 1,2,3,4,5,6; a measure that reads the score off the row at the
    label's position; and a new row scoring 1.0, 3.5, 6.0. *)

Definition entry_measure (row : list Q) (label : nat) : Q * list (nat * Q) :=
  (nth label row 0%Q, []).

Definition calibration_output : ndarray :=
  mk_ndarray 3
    [[1; 0; 0]; [2; 0; 0]; [0; 3; 0]; [0; 4; 0]; [0; 0; 5]; [0; 0; 6]]%Q.

Definition calibration_actual : ndarray :=
  mk_ndarray 3
    [[1; 0; 0]; [1; 0; 0]; [0; 1; 0]; [0; 1; 0]; [0; 0; 1]; [0; 0; 1]]%Q.

Definition new_output : ndarray := mk_ndarray 3 [[1; 7 # 2; 6]]%Q.

(** A batch in which label 2 is never the true label. *)
Definition partial_actual : ndarray :=
  mk_ndarray 3
    [[1; 0; 0]; [1; 0; 0]; [0; 1; 0]; [0; 1; 0]; [0; 1; 0]; [1; 0; 0]]%Q.

Definition scenario_heap : list ndarray :=
  [calibration_output; calibration_actual; new_output; partial_actual].

Definition blank_state : state := mk_state scenario_heap ∅ [].

(** The predictor calibrated at epsilon 50, one threshold per label. *)
Definition scenario_state : state :=
  snd (__init__ entry_measure (Ok NaN) (VArray 0) 1 50 (VInt 0) blank_state).

(** Its threshold map: 1.5, 3.5 and 5.5. *)
Definition scenario_thresholds : gmap nat npfloat :=
  match self scenario_state !! "thresholds" with
  | Some (ADict d) => d
  | _ => ∅
  end.

(** ** What a call leaves as it found it *)

(** Every run of [m] relates the state before to the state after. *)
Definition respects (R : state -> state -> Prop) {A} (m : M A) : Prop :=
  forall st, R st (snd (m st)).

(** The arrays at the first [n] addresses are untouched and none is lost. *)
Definition heap_frame (n : nat) (st st' : state) : Prop :=
  n <= length (heap st) ->
  take n (heap st') = take n (heap st) /\ length (heap st) <= length (heap st').

Definition keeps_self (st st' : state) : Prop := self st' = self st.

Definition keeps_heap (st st' : state) : Prop := heap st' = heap st.

(** Every array of the caller's is where it was, with the contents it had. *)
Definition arrays_preserved (st st' : state) : Prop :=
  forall a arr, heap st !! a = Some arr -> heap st' !! a = Some arr.

(** Two runs give the same result from related states, and end in related
    states. *)
Definition corresponds (R : state -> state -> Prop) {A} (m1 m2 : M A) : Prop :=
  forall st1 st2, R st1 st2 ->
    fst (m1 st1) = fst (m2 st2) /\ R (snd (m1 st1)) (snd (m2 st2)).

(** Same instance, and the array at [c1] in one heap has the contents of the
    array at [c2] in the other. *)
Definition agree (c1 c2 : addr) (st1 st2 : state) : Prop :=
  self st1 = self st2 /\
  c1 < length (heap st1) /\ c2 < length (heap st2) /\
  heap st1 !!! c1 = heap st2 !!! c2.

(** An array argument refers to an array of the heap. *)
Definition valid_ref (st : state) (v : value) : Prop :=
  match v with
  | VArray a => a < length (heap st)
  | _ => True
  end.

(** A measure that is not pure: it zeroes the entry it reads. *)
Definition scrubbing_measure (row : list Q) (label : nat)
  : Q * list (nat * Q) :=
  (nth label row 0%Q, [(label, 0%Q)]).

Definition keeps_length (st st' : state) : Prop :=
  length (heap st') = length (heap st).

(** The loops of [predict], and of [confidence], over the rows of the array
    at [c] (the copy, in both methods). *)
Definition predict_rows (measure : list Q -> nat -> Q * list (nat * Q))
    (c : addr) : M (list (list nat)) :=
  let! n := np_len c in
  for_each
    (fun k =>
       let! len_output := row_len c k in
       filter_where
         (fun i =>
            let! score := call_measure measure c k i in
            let! t := get_threshold i in
            ret (le_npfloat score t))
         (seq 0 len_output))
    (seq 0 n).

Definition confidence_rows (measure : list Q -> nat -> Q * list (nat * Q))
    (c : addr) : M (list (list Q)) :=
  let! n := np_len c in
  for_each
    (fun k =>
       let! len_output := row_len c k in
       for_each (fun i => call_measure measure c k i) (seq 0 len_output))
    (seq 0 n).

(** The test [predict] applies to label [l] of a row:
    [measure(row, l) <= thresholds[l]]. *)
Definition label_included (measure : list Q -> nat -> Q * list (nat * Q))
    (thr : gmap nat npfloat) (row : list Q) (l : nat) : bool :=
  match thr !! l with
  | Some t => le_npfloat (fst (measure row l)) t
  | None => false
  end.

(** One threshold admits whatever the other admits. *)
Definition threshold_le (t t' : npfloat) : Prop :=
  match t, t' with
  | Fin q, Fin q' => (q <= q')%Q
  | NaN, _ => True
  | Fin _, NaN => False
  end.

(** The predictor calibrated on the batch that never shows label 2, with a
    numpy that answers [nan] for the empty list. *)
Definition partial_state : state :=
  snd (__init__ entry_measure (Ok NaN) (VArray 0) 3 50 (VInt 0) blank_state).

Definition partial_thresholds : gmap nat npfloat :=
  match self partial_state !! "thresholds" with
  | Some (ADict d) => d
  | _ => ∅
  end.

(** The predictor calibrated at epsilon 0: thresholds 2, 4 and 6. *)
Definition generous_state : state :=
  snd (__init__ entry_measure (Ok NaN) (VArray 0) 1 0 (VInt 0) blank_state).

Definition generous_thresholds : gmap nat npfloat :=
  match self generous_state !! "thresholds" with
  | Some (ADict d) => d
  | _ => ∅
  end.

(** The rows of the array at [c] keep their lengths. *)
Definition same_widths (c : addr) (st st' : state) : Prop :=
  map length (rows (heap st' !!! c)) = map length (rows (heap st !!! c)).

(** A heap whose only array has two columns and no row, and no instance
    yet. *)
Definition no_rows_state : state := mk_state [mk_ndarray 2 []] ∅ [].

(** * Properties of the operations *)

(** ** [evaluate] *)

Section Evaluate.

Lemma argmax_from_one (row : list Q) : forall best_i best i,
  forallb (fun x => Qeq_bool x 0 || Qeq_bool x 1) row = true ->
  (best == 1)%Q ->
  argmax_from best_i best i row = best_i.
Proof.
  induction row as [|x r IH]; intros best_i best i Hall Hbest; simpl; [done|].
  simpl in Hall. apply andb_true_iff in Hall as [Hx Hr].
  assert (Hle : Qlt_bool best x = false).
  { unfold Qlt_bool. apply negb_false_iff, Qle_bool_iff.
    apply orb_true_iff in Hx as [Hx|Hx]; apply Qeq_bool_iff in Hx;
      rewrite Hx, Hbest; lra. }
  rewrite Hle. by apply IH.
Qed.

Lemma true_label_argmax_from (row : list Q) : forall best_i best i,
  forallb (fun x => Qeq_bool x 0 || Qeq_bool x 1) row = true ->
  (best == 0)%Q ->
  0 < count_where (fun x => Qeq_bool x 1) row ->
  exists rest,
    np_where_from i (map (fun x => Qeq_bool x 1) row)
      = argmax_from best_i best i row :: rest.
Proof.
  induction row as [|x r IH]; intros best_i best i Hall Hbest Hcount.
  - unfold count_where in Hcount. simpl in Hcount. lia.
  - simpl in Hall. apply andb_true_iff in Hall as [Hx Hr].
    unfold count_where in Hcount. simpl in *.
    destruct (Qeq_bool x 1) eqn:Hx1.
    + apply Qeq_bool_iff in Hx1.
      assert (Hlt : Qlt_bool best x = true).
      { unfold Qlt_bool. apply negb_true_iff.
        destruct (Qle_bool x best) eqn:Hc; [|done].
        apply Qle_bool_iff in Hc. rewrite Hx1, Hbest in Hc. lra. }
      rewrite Hlt. rewrite argmax_from_one by done. eauto.
    + rewrite orb_false_r in Hx. apply Qeq_bool_iff in Hx.
      assert (Hlt : Qlt_bool best x = false).
      { unfold Qlt_bool. apply negb_false_iff, Qle_bool_iff.
        rewrite Hx, Hbest. lra. }
      rewrite Hlt. by apply IH.
Qed.

(** On a one-hot row the code's [np.where(row == 1)[0][0]] is the argmax. *)
Lemma true_label_one_hot (row : list Q) :
  is_one_hot row = true -> true_label row = Ok (argmax row).
Proof.
  unfold is_one_hot, true_label, np_where. intros H.
  apply andb_true_iff in H as [Hall Hcount]. apply Nat.eqb_eq in Hcount.
  destruct row as [|x r].
  - unfold count_where in Hcount. simpl in Hcount. lia.
  - simpl in Hall. apply andb_true_iff in Hall as [Hx Hr].
    unfold count_where in Hcount. simpl in *.
    destruct (Qeq_bool x 1) eqn:Hx1.
    + apply Qeq_bool_iff in Hx1. by rewrite argmax_from_one.
    + rewrite orb_false_r in Hx. apply Qeq_bool_iff in Hx.
      destruct (true_label_argmax_from r 0 x 1 Hr Hx) as [rest ->]; [|done].
      unfold count_where. lia.
Qed.

Lemma hit_correct (labels : list nat) (row : list Q) :
  is_one_hot row = true -> hit (labels, row) = correct (labels, row).
Proof. intros H. unfold hit, correct. simpl. by rewrite true_label_one_hot. Qed.

(** The loop, run from index [i] with [count] hits so far, when each row it
    reaches has a true label. *)
Lemma evaluate_loop_ok (actual_labels : list (list Q)) :
  forall predicted_labels i count,
    length predicted_labels + i <= length actual_labels ->
    Forall (fun row => exists t, true_label row = Ok t)
           (take (length predicted_labels) (drop i actual_labels)) ->
    evaluate_loop predicted_labels actual_labels i count
    = Ok (count + count_where hit (zip predicted_labels (drop i actual_labels))).
Proof.
  induction predicted_labels as [|labels rest IH]; intros i count Hlen Hrows.
  - simpl. unfold count_where. simpl. f_equal. lia.
  - simpl in Hlen.
    destruct (lookup_lt_is_Some_2 actual_labels i) as [row Hrow]; [lia|].
    rewrite (drop_S _ _ _ Hrow) in Hrows |- *. simpl in Hrows.
    apply Forall_cons in Hrows as [[t Ht] Hrows].
    simpl. rewrite Hrow, Ht. rewrite IH by (done || lia).
    unfold count_where, hit. simpl. rewrite Ht.
    destruct (bool_decide (t ∈ labels)); simpl; f_equal; lia.
Qed.

End Evaluate.

Section EvaluateClaims.

Lemma count_where_ext {A} (p q : A -> bool) (l : list A) :
  Forall (fun x => p x = q x) l -> count_where p l = count_where q l.
Proof.
  unfold count_where. induction 1 as [|x l Hx _ IH]; simpl; [done|].
  rewrite Hx. destruct (q x); simpl; lia.
Qed.

Lemma count_where_le {A} (p : A -> bool) (l : list A) :
  count_where p l <= length l.
Proof.
  unfold count_where. induction l as [|x l IH]; simpl; [lia|].
  destruct (p x); simpl; lia.
Qed.

Lemma count_where_all {A} (p : A -> bool) (l : list A) :
  Forall (fun x => p x = true) l -> count_where p l = length l.
Proof.
  unfold count_where. induction 1 as [|x l Hx _ IH]; simpl; [done|].
  rewrite Hx. simpl. lia.
Qed.

Lemma count_where_none {A} (p : A -> bool) (l : list A) :
  Forall (fun x => p x = false) l -> count_where p l = 0.
Proof.
  unfold count_where. induction 1 as [|x l Hx _ IH]; simpl; [done|].
  by rewrite Hx.
Qed.

Lemma Forall_zip_snd {A B} (P : B -> Prop) (Q' : A * B -> Prop)
    (l : list A) (k : list B) :
  (forall a b, P b -> Q' (a, b)) -> Forall P k -> Forall Q' (zip l k).
Proof.
  intros HPQ Hk. revert l.
  induction Hk as [|b k Hb _ IH]; intros [|a l]; simpl; auto.
Qed.

Lemma of_nat_pos (n : nat) : 0 < n -> (0 < of_nat n)%Q.
Proof.
  intros H. unfold of_nat.
  replace 0%Q with (inject_Z 0) by reflexivity. rewrite <- Zlt_Qlt. lia.
Qed.

(** C4.  For non-empty sequences of equal length, prediction sets against
    one-hot rows, [evaluate] returns the number of samples whose set holds
    the argmax of the sample's row, divided by the number of samples: 1 when
    every set holds its true label, 0 when none does. *)
Theorem evaluate_fraction_correct
    (predicted_labels : list (list nat)) (actual_labels : list (list Q)) :
  length predicted_labels = length actual_labels ->
  0 < length actual_labels ->
  Forall (fun row => is_one_hot row = true) actual_labels ->
  exists fraction,
    evaluate predicted_labels actual_labels = Ok fraction /\
    fraction = (of_nat (count_where correct (zip predicted_labels actual_labels))
                / of_nat (length actual_labels))%Q /\
    (Forall (fun sample => correct sample = true)
            (zip predicted_labels actual_labels) -> (fraction == 1)%Q) /\
    (Forall (fun sample => correct sample = false)
            (zip predicted_labels actual_labels) -> (fraction == 0)%Q).
Proof.
  intros Hlen Hpos Hhot.
  assert (Hloop : evaluate_loop predicted_labels actual_labels 0 0
                  = Ok (count_where correct (zip predicted_labels actual_labels))).
  { rewrite evaluate_loop_ok.
    - rewrite drop_0. simpl. f_equal. apply count_where_ext.
      apply (Forall_zip_snd (fun row => is_one_hot row = true)); [|done].
      intros a b Hb. by apply hit_correct.
    - lia.
    - rewrite drop_0. apply Forall_take.
      eapply Forall_impl; [exact Hhot|].
      intros row Hrow. simpl. rewrite true_label_one_hot by done. eauto. }
  eexists. split; [|split; [reflexivity|split]].
  - unfold evaluate. rewrite Hloop.
    destruct (Nat.eqb_spec (length actual_labels) 0); [lia|done].
  - intros Hall. rewrite count_where_all by done.
    rewrite length_zip, Hlen, Nat.min_id.
    pose proof (of_nat_pos _ Hpos). field. lra.
  - intros Hnone. rewrite count_where_none by done.
    pose proof (of_nat_pos _ Hpos). unfold of_nat at 1. simpl.
    field. lra.
Qed.

Lemma evaluate_fraction_correct_witness :
  exists fraction,
    evaluate [[0]; [0; 1]; []] [[1; 0]; [0; 1]; [1; 0]]%Q = Ok fraction /\
    (fraction == 2 # 3)%Q.
Proof.
  destruct (evaluate_fraction_correct [[0]; [0; 1]; []]
              [[1; 0]; [0; 1]; [1; 0]]%Q) as (fraction & Hev & Hfr & _).
  - reflexivity.
  - simpl. lia.
  - repeat constructor.
  - exists fraction. split; [exact Hev|]. rewrite Hfr. reflexivity.
Defined.

(** C10.  With fewer prediction sets than rows, [evaluate] raises nothing:
    hits are counted over the first [len(predicted_labels)] samples only and
    divided by [len(actual_labels)], so the rows beyond never count as
    correct. *)
Theorem evaluate_shorter_predictions
    (predicted_labels : list (list nat)) (actual_labels : list (list Q)) :
  length predicted_labels < length actual_labels ->
  Forall (fun row => exists t, true_label row = Ok t)
         (take (length predicted_labels) actual_labels) ->
  let hits :=
    count_where hit
      (zip predicted_labels (take (length predicted_labels) actual_labels)) in
  evaluate predicted_labels actual_labels
  = Ok (of_nat hits / of_nat (length actual_labels))%Q
  /\ hits <= length predicted_labels.
Proof.
  intros Hlen Hrows hits. split.
  - unfold evaluate. rewrite evaluate_loop_ok; [|lia|by rewrite drop_0].
    rewrite drop_0. simpl.
    destruct (Nat.eqb_spec (length actual_labels) 0); [lia|].
    unfold hits. by rewrite zip_with_take_r.
  - unfold hits. etrans; [apply count_where_le|].
    rewrite length_zip. lia.
Qed.

Lemma evaluate_shorter_predictions_witness :
  evaluate [[0]] [[1; 0]; [1; 0]; [0; 1]]%Q = Ok (of_nat 1 / of_nat 3)%Q.
Proof.
  refine (proj1 (evaluate_shorter_predictions [[0]] [[1; 0]; [1; 0]; [0; 1]]%Q _ _)).
  - simpl. lia.
  - simpl. repeat constructor. by exists 0.
Defined.

End EvaluateClaims.

(** ** [label_histogram] *)

Section Histogram.

Lemma of_nat_le_bool (a b : nat) : Qle_bool (of_nat a) (of_nat b) = (a <=? b).
Proof.
  apply eq_true_iff_eq. rewrite Qle_bool_iff, Nat.leb_le.
  unfold of_nat. rewrite <- Zle_Qle. lia.
Qed.

Lemma of_nat_eq_bool (a b : nat) : Qeq_bool (of_nat a) (of_nat b) = (a =? b).
Proof.
  apply eq_true_iff_eq. rewrite Qeq_bool_iff, Nat.eqb_eq.
  unfold of_nat. rewrite inject_Z_injective. lia.
Qed.

Lemma of_nat_mult (a b : nat) : (of_nat (a * b) == of_nat a * of_nat b)%Q.
Proof. unfold of_nat. by rewrite Nat2Z.inj_mul, inject_Z_mult. Qed.

Lemma list_min_of_nat (l : list nat) : forall x,
  list_min (of_nat x) (map of_nat l) = of_nat (fold_left Nat.min l x).
Proof.
  unfold list_min. induction l as [|y l IH]; intros x; simpl; [done|].
  rewrite of_nat_le_bool.
  destruct (Nat.leb_spec x y); rewrite IH; do 2 f_equal; lia.
Qed.

Lemma list_max_of_nat (l : list nat) : forall x,
  list_max (of_nat x) (map of_nat l) = of_nat (fold_left Nat.max l x).
Proof.
  unfold list_max. induction l as [|y l IH]; intros x; simpl; [done|].
  rewrite of_nat_le_bool.
  destruct (Nat.leb_spec x y); rewrite IH; do 2 f_equal; lia.
Qed.

Lemma fold_min_zero (l : list nat) : forall x,
  x = 0 \/ 0 ∈ l -> fold_left Nat.min l x = 0.
Proof.
  induction l as [|y l IH]; intros x [Hx|Hin]; simpl.
  - done.
  - by apply elem_of_nil in Hin.
  - apply IH. left. lia.
  - apply IH. apply elem_of_cons in Hin as [<-|Hin]; [left; lia|by right].
Qed.

Lemma fold_max_bound (n : nat) (l : list nat) : forall x,
  x <= n -> Forall (fun y => y <= n) l -> x = n \/ n ∈ l ->
  fold_left Nat.max l x = n.
Proof.
  induction l as [|y l IH]; intros x Hx Hall [Hn|Hin]; simpl.
  - done.
  - by apply elem_of_nil in Hin.
  - apply Forall_cons in Hall as [Hy Hall]. apply IH; [lia|done|left; lia].
  - apply Forall_cons in Hall as [Hy Hall]. apply IH; [lia|done|].
    apply elem_of_cons in Hin as [->|Hin]; [left; lia|by right].
Qed.

(** The range of the padded data: the set sizes, all at most [n], followed
    by [0 .. n]. *)
Lemma outer_edges_padded (n : nat) (sizes : list nat) :
  Forall (fun y => y <= n) sizes ->
  outer_edges (map of_nat (sizes ++ seq 0 (n + 1)))
  = if n =? 0 then ((of_nat 0 - (1 # 2))%Q, (of_nat 0 + (1 # 2))%Q)
    else (of_nat 0, of_nat n).
Proof.
  intros Hall.
  assert (Hdata : Forall (fun y => y <= n) (sizes ++ seq 0 (n + 1))).
  { apply Forall_app. split; [done|]. apply Forall_forall.
    intros y Hy%elem_of_seq. lia. }
  assert (H0 : 0 ∈ sizes ++ seq 0 (n + 1)).
  { apply elem_of_app. right. apply elem_of_seq. lia. }
  assert (Hn : n ∈ sizes ++ seq 0 (n + 1)).
  { apply elem_of_app. right. apply elem_of_seq. lia. }
  destruct (sizes ++ seq 0 (n + 1)) as [|x l] eqn:E.
  { by apply elem_of_nil in H0. }
  simpl. rewrite list_min_of_nat, list_max_of_nat.
  apply Forall_cons in Hdata as [Hx Hl].
  rewrite fold_min_zero by (apply elem_of_cons in H0 as [?|?]; auto).
  rewrite (fold_max_bound n) by (try apply elem_of_cons in Hn as [?|?]; auto).
  rewrite of_nat_eq_bool. by destruct n.
Qed.

Lemma Qdiv_le_iff (a b c : Q) : (0 < c)%Q -> (a / c <= b)%Q <-> (a <= b * c)%Q.
Proof.
  intros Hc. split; intros H.
  - assert (E : (a == a / c * c)%Q) by (field; lra).
    rewrite E. apply Qmult_le_compat_r; [done|lra].
  - by apply Qle_shift_div_r.
Qed.

Lemma bin_edge_le_bool (n j x : nat) :
  j <= n ->
  Qle_bool (bin_edge (of_nat 0) (of_nat n) (n + 1) j) (of_nat x)
  = (j * n <=? x * (n + 1)).
Proof.
  intros Hj. unfold bin_edge.
  destruct (Nat.eqb_spec j (n + 1)); [lia|].
  apply eq_true_iff_eq. rewrite Qle_bool_iff, Nat.leb_le.
  assert (Hpos : (0 < of_nat (n + 1))%Q) by (apply of_nat_pos; lia).
  assert (E : (of_nat 0 + of_nat j * ((of_nat n - of_nat 0) / of_nat (n + 1))
               == of_nat (j * n) / of_nat (n + 1))%Q).
  { rewrite of_nat_mult. change (of_nat 0) with 0%Q. field. lra. }
  rewrite E, Qdiv_le_iff by done. rewrite <- of_nat_mult.
  unfold of_nat. rewrite <- Zle_Qle. lia.
Qed.

(** With the range [0 .. n] cut into [n + 1] bins, an integer in the range
    falls into the bin of its own index. *)
Lemma in_bin_exact (n j x : nat) :
  0 < n -> j <= n -> x <= n ->
  in_bin (of_nat 0) (of_nat n) (n + 1) j (of_nat x) = (x =? j).
Proof.
  intros Hn Hj Hx. unfold in_bin. rewrite bin_edge_le_bool by done.
  destruct (Nat.eqb_spec (S j) (n + 1)) as [E|E].
  - unfold bin_edge. replace (S j =? n + 1) with true by (symmetry; by apply Nat.eqb_eq).
    rewrite of_nat_le_bool.
    destruct (Nat.leb_spec (j * n) (x * (n + 1))), (Nat.leb_spec x n),
      (Nat.eqb_spec x j); simpl; try done; nia.
  - unfold Qlt_bool. rewrite bin_edge_le_bool by lia.
    destruct (Nat.leb_spec (j * n) (x * (n + 1))),
      (Nat.leb_spec (S j * n) (x * (n + 1))), (Nat.eqb_spec x j);
      simpl; try done; nia.
Qed.

Lemma in_bin_single (x : nat) :
  x <= 0 ->
  in_bin (of_nat 0 - (1 # 2))%Q (of_nat 0 + (1 # 2))%Q 1 0 (of_nat x) = (x =? 0).
Proof. intros Hx. by replace x with 0 by lia. Qed.

Lemma count_where_map {A B} (f : A -> B) (p : B -> bool) (l : list A) :
  count_where p (map f l) = count_where (fun x => p (f x)) l.
Proof.
  unfold count_where. induction l as [|x l IH]; simpl; [done|].
  destruct (p (f x)); simpl; lia.
Qed.

Lemma count_where_app {A} (p : A -> bool) (l k : list A) :
  count_where p (l ++ k) = count_where p l + count_where p k.
Proof. unfold count_where. by rewrite List.filter_app, length_app. Qed.

Lemma count_where_seq (j : nat) : forall n a,
  count_where (fun x => x =? j) (seq a n)
  = if bool_decide (a <= j < a + n) then 1 else 0.
Proof.
  unfold count_where. induction n as [|n IH]; intros a; simpl.
  - case_bool_decide; [lia|done].
  - destruct (Nat.eqb_spec a j) as [->|Hne]; simpl; rewrite IH;
      repeat case_bool_decide; lia.
Qed.

(** The padded histogram counts, per bin, the sets of that size plus one. *)
Lemma np_histogram_padded (n : nat) (sizes : list nat) :
  Forall (fun y => y <= n) sizes ->
  np_histogram (map of_nat (sizes ++ seq 0 (n + 1))) (n + 1)
  = Ok (map (fun j => Z.of_nat (count_where (fun x => x =? j) sizes + 1))
            (seq 0 (n + 1))).
Proof.
  intros Hall. unfold np_histogram.
  destruct (Nat.eqb_spec (n + 1) 0); [lia|].
  rewrite outer_edges_padded by done.
  assert (Hdata : Forall (fun y => y <= n) (sizes ++ seq 0 (n + 1))).
  { apply Forall_app. split; [done|]. apply Forall_forall.
    intros y Hy%elem_of_seq. lia. }
  destruct (Nat.eqb_spec n 0) as [->|Hn]; f_equal; apply map_ext_in;
    intros j Hj%in_seq; f_equal; rewrite count_where_map.
  - rewrite (count_where_ext _ (fun x => x =? j)).
    + rewrite count_where_app, count_where_seq. case_bool_decide; [done|lia].
    + eapply Forall_impl; [exact Hdata|]. intros x Hx. simpl in *.
      replace j with 0 by lia. by apply in_bin_single.
  - rewrite (count_where_ext _ (fun x => x =? j)).
    + rewrite count_where_app, count_where_seq. case_bool_decide; [done|lia].
    + eapply Forall_impl; [exact Hdata|]. intros x Hx. simpl in *.
      apply in_bin_exact; lia.
Qed.

Lemma get_labels_run (n : nat) (st : state) :
  self st !! "labels" = Some (AInt (Z.of_nat n)) ->
  get_labels st = (Ok n, st).
Proof.
  intros H. unfold get_labels, bind, getattr. rewrite H. simpl.
  unfold ret. by rewrite Nat2Z.id.
Qed.

(** C5.  On prediction sets over [n_labels] labels, [label_histogram] returns
    [n_labels + 1] integer counts, entry [i] being the number of sets with
    exactly [i] labels. *)
Theorem label_histogram_counts (n_labels : nat) (predictions : list (list nat))
    (save_path title : option string) (st : state) :
  self st !! "labels" = Some (AInt (Z.of_nat n_labels)) ->
  Forall (fun p => length p <= n_labels) predictions ->
  fst (label_histogram predictions save_path title st)
  = Ok (map (fun i => Z.of_nat (count_where (fun p => length p =? i) predictions))
            (seq 0 (n_labels + 1))).
Proof.
  intros Hattr Hsizes. unfold label_histogram.
  unfold bind at 1. rewrite (get_labels_run n_labels) by done.
  unfold bind at 1, lift at 1.
  destruct (np_histogram _ (n_labels + 1)) as [h0|e] eqn:Hdead.
  2:{ unfold np_histogram in Hdead.
      destruct (Nat.eqb_spec (n_labels + 1) 0); [lia|].
      by destruct (outer_edges _). }
  unfold bind at 1. rewrite (get_labels_run n_labels) by done.
  unfold bind at 1. rewrite (get_labels_run n_labels) by done.
  unfold bind at 1, lift at 1.
  replace (map inject_Z
             (map (fun p => Z.of_nat (length p)) predictions
              ++ map Z.of_nat (seq 0 (n_labels + 1))))
    with (map of_nat (map length predictions ++ seq 0 (n_labels + 1))).
  2:{ rewrite !map_app, !map_map. done. }
  rewrite np_histogram_padded by (by apply Forall_map).
  assert (Hres :
    map (fun y => (y - 1)%Z)
        (map (fun j => Z.of_nat
                (count_where (fun x => x =? j) (map length predictions) + 1))
             (seq 0 (n_labels + 1)))
    = map (fun i => Z.of_nat (count_where (fun p => length p =? i) predictions))
          (seq 0 (n_labels + 1))).
  { rewrite map_map. apply map_ext. intros j. rewrite count_where_map. lia. }
  rewrite Hres.
  destruct save_path as [path|]; unfold bind at 1.
  - unfold bind at 1. rewrite (get_labels_run n_labels) by done. done.
  - done.
Qed.

Lemma label_histogram_counts_witness :
  fst (label_histogram [[0]; [0; 1]; []; [0; 1; 2]] None None
         (mk_state [] {["labels" := AInt 3]} []))
  = Ok [1; 1; 1; 1]%Z.
Proof.
  apply (label_histogram_counts 3 [[0]; [0; 1]; []; [0; 1; 2]] None None
           (mk_state [] {["labels" := AInt 3]} [])).
  - reflexivity.
  - repeat constructor.
Defined.

End Histogram.

(** ** Loops whose body leaves the state alone *)

Section PureLoops.

Context {A B : Type}.

Lemma for_each_pure (f : A -> M B) (g : A -> B) (st : state) (l : list A) :
  (forall x, x ∈ l -> f x st = (Ok (g x), st)) ->
  for_each f l st = (Ok (map g l), st).
Proof.
  induction l as [|x l IH]; intros Hf; simpl; [done|].
  unfold bind. rewrite Hf by left.
  rewrite IH; [done|]. intros y Hy. apply Hf. by right.
Qed.

Lemma for_each_result (f : A -> M B) (g : A -> result B) (st : state)
    (l : list A) :
  (forall x, x ∈ l -> f x st = (g x, st)) ->
  for_each f l st = (map_result g l, st).
Proof.
  induction l as [|x l IH]; intros Hf; simpl; [done|].
  unfold bind. rewrite Hf by left. destruct (g x) as [y|e]; [|done].
  rewrite IH by (intros z Hz; apply Hf; by right).
  by destruct (map_result g l).
Qed.

Lemma filter_where_pure (c : A -> M bool) (p : A -> bool) (st : state)
    (l : list A) :
  (forall x, x ∈ l -> c x st = (Ok (p x), st)) ->
  filter_where c l st = (Ok (List.filter p l), st).
Proof.
  induction l as [|x l IH]; intros Hc; simpl; [done|].
  unfold bind. rewrite Hc by left.
  rewrite IH by (intros y Hy; apply Hc; by right).
  by destruct (p x).
Qed.

Lemma fold_loop_app {S} (f : S -> A -> M S) (l k : list A) (s : S)
    (st : state) :
  fold_loop f (l ++ k) s st = bind (fold_loop f l s) (fold_loop f k) st.
Proof.
  revert s st. induction l as [|x l IH]; intros s st.
  - reflexivity.
  - simpl. unfold bind. destruct (f s x st) as [[s'|e] st']; [|reflexivity].
    apply IH.
Qed.

Lemma map_result_ok (g : A -> result B) (h : A -> B) (l : list A) :
  (forall x, x ∈ l -> g x = Ok (h x)) -> map_result g l = Ok (map h l).
Proof.
  induction l as [|x l IH]; intros Hg; simpl; [done|].
  rewrite Hg by left. rewrite IH; [done|]. intros y Hy. apply Hg. by right.
Qed.

Lemma map_result_raise (g : A -> result B) (e : exn) (l : list A) :
  (exists x, x ∈ l /\ g x = Raise e) ->
  (forall x e', x ∈ l -> g x = Raise e' -> e' = e) ->
  map_result g l = Raise e.
Proof.
  induction l as [|x l IH]; intros (x0 & Hin & Hx0) Hall; simpl.
  - by apply elem_of_nil in Hin.
  - destruct (g x) as [y|e'] eqn:Hgx.
    + rewrite IH; [done| |].
      * apply elem_of_cons in Hin as [->|Hin]; [congruence|eauto].
      * intros z e' Hz. apply Hall. by right.
    + f_equal. apply (Hall x); [left|done].
Qed.

End PureLoops.

(** ** Runs with a pure measure *)

Section PureRuns.

Variable measure : list Q -> nat -> Q * list (nat * Q).
Variable percentile_of_empty : result npfloat.
Hypothesis measure_pure : pure_measure measure.

Lemma set_heap_same (st : state) : set_heap (heap st) st = st.
Proof. by destruct st. Qed.

Lemma write_row_same (h : list ndarray) (a k : nat) :
  write_row a k (rows (h !!! a) !!! k) h = h.
Proof.
  unfold write_row.
  assert (Hrows : <[k := rows (h !!! a) !!! k]> (rows (h !!! a)) = rows (h !!! a)).
  { destruct (decide (k < length (rows (h !!! a)))) as [Hk|Hk].
    - apply list_insert_id. by apply list_lookup_lookup_total_lt.
    - apply list_insert_ge. lia. }
  rewrite Hrows.
  destruct (decide (a < length h)) as [Ha|Ha].
  - apply list_insert_id.
    rewrite (list_lookup_lookup_total_lt h a Ha). f_equal.
    by destruct (h !!! a).
  - apply list_insert_ge. lia.
Qed.

Lemma call_measure_pure (a k label : nat) (st : state) :
  self st !! "measure" = Some AMeasure ->
  call_measure measure a k label st
  = (Ok (fst (measure (rows (heap st !!! a) !!! k) label)), st).
Proof.
  intros Hm. unfold call_measure, bind, getattr. rewrite Hm.
  pose proof (measure_pure (rows (heap st !!! a) !!! k) label) as Hw.
  destruct (measure _ label) as [score writes]. simpl in *. subst writes.
  unfold apply_writes. simpl. by rewrite write_row_same, set_heap_same.
Qed.

Lemma get_threshold_run (thr : gmap nat npfloat) (i : nat) (t : npfloat)
    (st : state) :
  self st !! "thresholds" = Some (ADict thr) -> thr !! i = Some t ->
  get_threshold i st = (Ok t, st).
Proof.
  intros Hthr Hi. unfold get_threshold, bind, getattr. by rewrite Hthr, Hi.
Qed.

End PureRuns.

(** ** [predict] and [confidence] with a pure measure *)

Section PredictPure.

Variable measure : list Q -> nat -> Q * list (nat * Q).
Hypothesis measure_pure : pure_measure measure.

Lemma map_lookup_total_seq {A B} `{Inhabited A} (F : A -> B) (l : list A) :
  map (fun k => F (l !!! k)) (seq 0 (length l)) = map F l.
Proof.
  induction l as [|x l IH] using rev_ind; [done|].
  rewrite length_app. simpl. rewrite Nat.add_1_r, seq_S, !map_app. simpl.
  rewrite list_lookup_total_middle by done. f_equal.
  rewrite <- IH. apply map_ext_in. intros k Hk%in_seq.
  by rewrite lookup_total_app_l by lia.
Qed.

Lemma heap_after_copy (h : list ndarray) (arr : ndarray) :
  (h ++ [arr]) !!! length h = arr.
Proof. by apply list_lookup_total_middle. Qed.

(** The whole run of [predict]: the copy is allocated, and each row is
    filtered by its scores. *)
Lemma predict_pure_run (thr : gmap nat npfloat) (n_labels : nat) (a : nat)
    (st : state) :
  self st !! "measure" = Some AMeasure ->
  self st !! "thresholds" = Some (ADict thr) ->
  (forall l, l < n_labels -> is_Some (thr !! l)) ->
  Forall (fun row => length row = n_labels) (rows (heap st !!! a)) ->
  predict measure (VArray a) st
  = (Ok (map (fun row =>
                List.filter
                  (fun l => match thr !! l with
                            | Some t => le_npfloat (fst (measure row l)) t
                            | None => false
                            end)
                  (seq 0 n_labels))
             (rows (heap st !!! a))),
     set_heap (heap st ++ [heap st !!! a]) st).
Proof.
  intros Hm Hthr Hdom Hrows. unfold predict. simpl.
  unfold bind at 1, np_copy at 1.
  set (st1 := set_heap (heap st ++ [heap st !!! a]) st).
  assert (Hc : heap st1 !!! length (heap st) = heap st !!! a)
    by apply heap_after_copy.
  unfold bind at 1, np_len at 1. rewrite Hc.
  rewrite <- map_lookup_total_seq.
  apply for_each_pure. intros k Hk%elem_of_seq.
  assert (Hlen : length (rows (heap st !!! a) !!! k) = n_labels).
  { apply (Forall_lookup_1 _ _ k _ Hrows).
    apply list_lookup_lookup_total_lt. lia. }
  unfold bind at 1, row_len at 1. rewrite Hc, Hlen.
  apply filter_where_pure. intros l Hl%elem_of_seq.
  unfold bind at 1. rewrite call_measure_pure by done. rewrite Hc.
  destruct (Hdom l) as [t Ht]; [lia|].
  unfold bind at 1. rewrite (get_threshold_run thr l t) by done.
  by rewrite Ht.
Qed.

End PredictPure.

(** ** Calibration with a pure measure *)

Section DictLemmas.

Context {V : Type}.

Lemma dict_get_map_seq (F : nat -> V) (t : nat) : forall n a,
  dict_get (map (fun l => (l, F l)) (seq a n)) t
  = if bool_decide (a <= t < a + n) then Some (F t) else None.
Proof.
  induction n as [|n IH]; intros a; simpl.
  - case_bool_decide; [lia|done].
  - destruct (Nat.eqb_spec a t) as [->|Hne].
    + case_bool_decide; [done|lia].
    + rewrite IH. repeat case_bool_decide; (done || lia).
Qed.

Lemma dict_set_map_seq (F : nat -> V) (t : nat) (v : V) : forall n a,
  dict_set (map (fun l => (l, F l)) (seq a n)) t v
  = map (fun l => (l, if l =? t then v else F l)) (seq a n).
Proof.
  induction n as [|n IH]; intros a; simpl; [done|].
  destruct (Nat.eqb_spec a t) as [->|Hne].
  - f_equal. apply map_ext_in. intros l Hl%in_seq.
    destruct (Nat.eqb_spec l t); [lia|done].
  - by rewrite IH.
Qed.

Lemma dict_keys_map (F : nat -> V) (ls : list nat) :
  dict_keys (map (fun l => (l, F l)) ls) = ls.
Proof. unfold dict_keys. rewrite map_map. simpl. apply map_id. Qed.

End DictLemmas.

Section CalibrationPure.

Variable measure : list Q -> nat -> Q * list (nat * Q).
Variable percentile_of_empty : result npfloat.
Hypothesis measure_pure : pure_measure measure.

Lemma calibration_scores_take_S (outputs actual : list (list Q))
    (k label : nat) (o r : list Q) :
  outputs !! k = Some o -> actual !! k = Some r ->
  calibration_scores measure (take (S k) outputs) (take (S k) actual) label
  = calibration_scores measure (take k outputs) (take k actual) label
    ++ (if label_is label r then [fst (measure o label)] else []).
Proof.
  intros Ho Hr. unfold calibration_scores.
  rewrite (take_S_r outputs k o Ho), (take_S_r actual k r Hr).
  rewrite zip_with_app.
  - rewrite flat_map_app. simpl. by rewrite app_nil_r.
  - rewrite !length_take. apply lookup_lt_Some in Ho, Hr. lia.
Qed.

Lemma valid_batch_row (mo act : ndarray) (k : nat) :
  valid_batch mo act -> k < length (rows mo) ->
  exists r t, rows act !! k = Some r /\ true_label r = Ok t /\ t < shape1 mo.
Proof.
  intros [Hlen Hall] Hk.
  destruct (lookup_lt_is_Some_2 (rows act) k) as [r Hr]; [lia|].
  assert (Hin : take (length (rows mo)) (rows act) !! k = Some r)
    by (by rewrite lookup_take_lt).
  destruct (Forall_lookup_1 _ _ _ _ Hall Hin) as (t & Ht & Hlt). eauto.
Qed.

(** The grouping loop: each label's list holds the scores of the rows with
    that true label. *)
Lemma collect_scores_run (c act : nat) (st : state) :
  self st !! "measure" = Some AMeasure ->
  valid_batch (heap st !!! c) (heap st !!! act) ->
  collect_scores measure c act st
  = (Ok (map (fun l =>
                (l, calibration_scores measure (rows (heap st !!! c))
                      (rows (heap st !!! act)) l))
             (seq 0 (shape1 (heap st !!! c)))),
     st).
Proof.
  intros Hm Hvalid. unfold collect_scores.
  unfold bind at 1, np_shape1 at 1. unfold bind at 1, np_len at 1.
  set (mo := heap st !!! c) in *. set (ac := heap st !!! act) in *.
  set (body := fun measure_d i => bind (np_getitem act i) _).
  assert (Hloop : forall k, k <= length (rows mo) ->
            fold_loop body (seq 0 k) (empty_lists (shape1 mo)) st
            = (Ok (map (fun l =>
                          (l, calibration_scores measure (take k (rows mo))
                                (take k (rows ac)) l))
                       (seq 0 (shape1 mo))),
               st)).
  { induction k as [|k IH]; intros Hk; [done|].
    rewrite seq_S, fold_loop_app. unfold bind at 1. rewrite IH by lia.
    simpl. unfold bind at 1.
    destruct (valid_batch_row mo ac k Hvalid) as (r & t & Hr & Ht & Hlt); [lia|].
    destruct (lookup_lt_is_Some_2 (rows mo) k) as [o Ho]; [lia|].
    unfold body at 1.
    unfold bind at 1, np_getitem at 1. fold ac. rewrite Hr.
    unfold bind at 1, lift at 1. rewrite Ht.
    rewrite dict_get_map_seq. case_bool_decide; [|lia].
    unfold bind at 1, np_getitem at 1. fold ac. rewrite Hr.
    unfold bind at 1, lift at 1. rewrite Ht.
    unfold bind at 1. rewrite call_measure_pure by done. fold mo.
    unfold ret. do 2 f_equal. rewrite dict_set_map_seq.
    apply map_ext_in. intros l Hl. f_equal.
    rewrite (calibration_scores_take_S _ _ k l o r Ho Hr).
    rewrite (list_lookup_total_correct _ _ _ Ho).
    unfold label_is. rewrite Ht.
    destruct (Nat.eqb_spec l t) as [->|Hne].
    - by rewrite Nat.eqb_refl.
    - destruct (Nat.eqb_spec t l); [congruence|]. by rewrite app_nil_r. }
  rewrite Hloop by done. do 2 f_equal. apply map_ext. intros l. f_equal.
  unfold calibration_scores. rewrite firstn_all.
  by rewrite (zip_with_take_r' _ (length (rows mo))) by lia.
Qed.

End CalibrationPure.

(** ** Percentiles at the two ends *)

Section Percentile.

Lemma insert_sorted_length (x : Q) (l : list Q) :
  length (insert_sorted x l) = S (length l).
Proof.
  induction l as [|y l IH]; simpl; [done|].
  destruct (Qle_bool x y); simpl; by rewrite ?IH.
Qed.

Lemma sort_scores_length (l : list Q) : length (sort_scores l) = length l.
Proof.
  induction l as [|x l IH]; simpl; [done|].
  by rewrite insert_sorted_length, IH.
Qed.

Lemma insert_sorted_In (x y : Q) (l : list Q) :
  In y (insert_sorted x l) <-> y = x \/ In y l.
Proof.
  induction l as [|z l IH]; simpl; [intuition|].
  destruct (Qle_bool x z); simpl; rewrite ?IH; intuition.
Qed.

Lemma sort_scores_In (y : Q) (l : list Q) : In y (sort_scores l) <-> In y l.
Proof.
  induction l as [|x l IH]; simpl; [done|].
  rewrite insert_sorted_In, IH. intuition.
Qed.

Lemma insert_sorted_sorted (x : Q) (l : list Q) :
  StronglySorted Qle l -> StronglySorted Qle (insert_sorted x l).
Proof.
  induction 1 as [|y l Hl IH Hy]; simpl.
  - repeat constructor.
  - destruct (Qle_bool x y) eqn:Hxy.
    + apply Qle_bool_iff in Hxy. constructor; [by constructor|].
      constructor; [done|]. eapply Forall_impl; [exact Hy|].
      intros z Hz. simpl in *. lra.
    + assert (Hyx : (y <= x)%Q).
      { destruct (Qlt_le_dec y x) as [?|Hc]; [lra|].
        apply Qle_bool_iff in Hc. congruence. }
      constructor; [done|]. apply Forall_forall.
      intros z Hz%list_elem_of_In%insert_sorted_In.
      destruct Hz as [->|Hz]; [done|].
      rewrite Forall_forall in Hy. apply Hy. by apply list_elem_of_In.
Qed.

Lemma sort_scores_sorted (l : list Q) : StronglySorted Qle (sort_scores l).
Proof.
  induction l as [|x l IH]; simpl; [constructor|].
  by apply insert_sorted_sorted.
Qed.

Lemma sorted_head_least (l : list Q) (y : Q) :
  StronglySorted Qle l -> In y l -> (nth 0 l 0 <= y)%Q.
Proof.
  destruct 1 as [|x l Hl Hx]; simpl; [done|].
  intros [->|Hy]; [lra|].
  rewrite Forall_forall in Hx. apply Hx. by apply list_elem_of_In.
Qed.

Lemma sorted_last_greatest (l : list Q) (y : Q) :
  StronglySorted Qle l -> In y l -> (y <= nth (length l - 1) l 0)%Q.
Proof.
  induction 1 as [|x l Hl IH Hx]; [done|].
  intros Hy. destruct l as [|z l].
  - destruct Hy as [->|[]]. simpl. lra.
  - assert (E : nth (length (x :: z :: l) - 1) (x :: z :: l) 0%Q
                 = nth (length (z :: l) - 1) (z :: l) 0%Q)
      by (simpl; by rewrite Nat.sub_0_r).
    rewrite E. clear E.
    destruct Hy as [<-|Hy]; [|by apply IH].
    rewrite Forall_forall in Hx. apply Hx. apply list_elem_of_In.
    apply nth_In. simpl. lia.
Qed.

Lemma list_max_spec (l : list Q) : forall x,
  In (list_max x l) (x :: l) /\
  forall y, In y (x :: l) -> (y <= list_max x l)%Q.
Proof.
  unfold list_max. induction l as [|z l IH]; intros x; simpl.
  - split; [by left|]. intros y [->|[]]. lra.
  - destruct (Qle_bool x z) eqn:Hxz.
    + apply Qle_bool_iff in Hxz. destruct (IH z) as [Hin Hall]. split.
      * right. exact Hin.
      * intros y [->|Hy]; [|by apply Hall].
        eapply Qle_trans; [exact Hxz|]. apply Hall. by left.
    + assert (Hzx : (z <= x)%Q).
      { destruct (Qlt_le_dec z x) as [?|Hc]; [lra|].
        apply Qle_bool_iff in Hc. congruence. }
      destruct (IH x) as [Hin Hall]. split.
      * destruct Hin as [Hin|Hin]; [by left|by right; right].
      * intros y [->|[->|Hy]].
        -- apply Hall. by left.
        -- eapply Qle_trans; [exact Hzx|]. apply Hall. by left.
        -- apply Hall. by right.
Qed.

Lemma list_min_spec (l : list Q) : forall x,
  In (list_min x l) (x :: l) /\
  forall y, In y (x :: l) -> (list_min x l <= y)%Q.
Proof.
  unfold list_min. induction l as [|z l IH]; intros x; simpl.
  - split; [by left|]. intros y [->|[]]. lra.
  - destruct (Qle_bool x z) eqn:Hxz.
    + apply Qle_bool_iff in Hxz. destruct (IH x) as [Hin Hall]. split.
      * destruct Hin as [Hin|Hin]; [by left|by right; right].
      * intros y [->|[->|Hy]].
        -- apply Hall. by left.
        -- eapply Qle_trans; [|exact Hxz]. apply Hall. by left.
        -- apply Hall. by right.
    + assert (Hzx : (z <= x)%Q).
      { destruct (Qlt_le_dec z x) as [?|Hc]; [lra|].
        apply Qle_bool_iff in Hc. congruence. }
      destruct (IH z) as [Hin Hall]. split.
      * right. exact Hin.
      * intros y [->|Hy]; [|by apply Hall].
        eapply Qle_trans; [|exact Hzx]. apply Hall. by left.
Qed.

Lemma lerp_same (a t : Q) : (lerp a a t == a)%Q.
Proof. unfold lerp. destruct (Qle_bool (1 # 2) t); ring. Qed.

Lemma lerp_zero (a b t : Q) : (t == 0)%Q -> (lerp a b t == a)%Q.
Proof.
  intros Ht. unfold lerp. destruct (Qle_bool (1 # 2) t) eqn:Hc.
  - apply Qle_bool_iff in Hc. lra.
  - rewrite Ht. ring.
Qed.

Lemma Qfloor_of_nat (q : Q) (n : nat) :
  (q == of_nat n)%Q -> Z.to_nat (Qfloor q) = n.
Proof.
  intros Hq. rewrite (Qfloor_comp _ _ Hq). unfold of_nat.
  rewrite Qfloor_Z. apply Nat2Z.id.
Qed.

(** The 100th percentile is the greatest score. *)
Lemma percentile_nonempty_100 (x : Q) (l : list Q) (q : Q) :
  (q == 100)%Q -> (percentile_nonempty (x :: l) q == list_max x l)%Q.
Proof.
  intros Hq. unfold percentile_nonempty.
  set (a := x :: l). set (n := length a).
  assert (Hv : (of_nat (n - 1) * (q / 100) == of_nat (n - 1))%Q).
  { rewrite Hq. field. }
  rewrite (Qfloor_of_nat _ (n - 1) Hv).
  replace (Nat.min (n - 1 + 1) (n - 1)) with (n - 1) by lia.
  rewrite lerp_same.
  pose proof (sort_scores_sorted a) as Hsorted.
  pose proof (sort_scores_length a) as Hlen. fold n in Hlen.
  destruct (list_max_spec l x) as [Hin Hmax].
  unfold n, a in *. clear n a.
  apply Qle_antisym.
  - apply Hmax, sort_scores_In, nth_In. rewrite Hlen. simpl. lia.
  - rewrite <- Hlen. apply sorted_last_greatest; [done|].
    by apply sort_scores_In.
Qed.

(** The 0th percentile is the least score. *)
Lemma percentile_nonempty_0 (x : Q) (l : list Q) (q : Q) :
  (q == 0)%Q -> (percentile_nonempty (x :: l) q == list_min x l)%Q.
Proof.
  intros Hq. unfold percentile_nonempty.
  set (a := x :: l). set (n := length a).
  assert (Hv : (of_nat (n - 1) * (q / 100) == of_nat 0)%Q).
  { rewrite Hq. unfold of_nat at 2. simpl. field. }
  rewrite (Qfloor_of_nat _ 0 Hv).
  rewrite lerp_zero by (rewrite Hv; unfold of_nat; simpl; ring).
  pose proof (sort_scores_sorted a) as Hsorted.
  pose proof (sort_scores_length a) as Hlen. fold n in Hlen.
  destruct (list_min_spec l x) as [Hin Hmin].
  unfold n, a in *. clear n a.
  apply Qle_antisym.
  - apply sorted_head_least; [done|]. by apply sort_scores_In.
  - apply Hmin, sort_scores_In, nth_In. rewrite Hlen. simpl. lia.
Qed.

End Percentile.

(** ** The constructor with a pure measure *)

Section InitPure.

Variable measure : list Q -> nat -> Q * list (nat * Q).
Variable percentile_of_empty : result npfloat.
Hypothesis measure_pure : pure_measure measure.

Lemma lookup_list_to_map_graph {V} (F : nat -> V) (ls : list nat) (k : nat) :
  (list_to_map (map (fun l => (l, F l)) ls) : gmap nat V) !! k
  = if bool_decide (k ∈ ls) then Some (F k) else None.
Proof.
  induction ls as [|x ls IH]; simpl.
  - apply lookup_empty.
  - destruct (decide (x = k)) as [->|Hne].
    + rewrite lookup_insert_eq, bool_decide_true; [done|]. left.
    + rewrite lookup_insert_ne by done. rewrite IH.
      apply (f_equal (fun b : bool => if b then Some (F k) else None)).
      apply bool_decide_ext. rewrite elem_of_cons. intuition congruence.
Qed.

Lemma range_check (epsilon : Q) :
  (0 <= epsilon)%Q -> (epsilon <= 100)%Q ->
  Qlt_bool epsilon 0 || Qlt_bool 100 epsilon = false.
Proof.
  intros H0 H100. unfold Qlt_bool.
  apply orb_false_iff. split; apply negb_false_iff, Qle_bool_iff; lra.
Qed.

Lemma percentile_defined (a : list Q) (q : Q) :
  a <> [] -> (0 <= q)%Q -> (q <= 100)%Q ->
  percentile percentile_of_empty a q = Ok (Fin (percentile_nonempty a q)).
Proof.
  intros Ha H0 H100. unfold percentile. rewrite range_check by done.
  by destruct a.
Qed.

Lemma init_prefix (a act : nat) (epsilon : Q) (mode : Z) (st : state) :
  (0 <= epsilon)%Q -> (epsilon <= 100)%Q -> mode = 0%Z \/ mode = 1%Z ->
  __init__ measure percentile_of_empty (VArray a) act epsilon (VInt mode) st
  = bind (__non_conformity_thresholds measure percentile_of_empty
            (length (heap st)) act)
         (setattr "thresholds") (init_state mode epsilon a st).
Proof.
  intros H0 H100 Hmode. unfold __init__. simpl.
  rewrite range_check by done.
  by destruct Hmode as [-> | ->].
Qed.

Section AfterPrefix.

Variables (a act : nat) (mo ac : ndarray) (epsilon : Q) (mode : Z) (st : state).
Hypothesis Ha : heap st !! a = Some mo.
Hypothesis Hact : heap st !! act = Some ac.

Lemma init_state_output :
  heap (init_state mode epsilon a st) !!! length (heap st) = mo.
Proof.
  unfold init_state. simpl. rewrite heap_after_copy.
  by apply list_lookup_total_correct.
Qed.

Lemma init_state_actual : heap (init_state mode epsilon a st) !!! act = ac.
Proof.
  unfold init_state. simpl. apply list_lookup_total_correct.
  rewrite lookup_app_l; [done|]. by eapply lookup_lt_Some.
Qed.

Lemma init_state_measure :
  self (init_state mode epsilon a st) !! "measure" = Some AMeasure.
Proof. unfold init_state, init_attrs. simpl. by simplify_map_eq. Qed.

Lemma init_state_mode :
  self (init_state mode epsilon a st) !! "selected_threshold_mode"
  = Some (AInt mode).
Proof. unfold init_state, init_attrs. simpl. by simplify_map_eq. Qed.

Lemma init_state_epsilon :
  self (init_state mode epsilon a st) !! "epsilon" = Some (ANum epsilon).
Proof. unfold init_state, init_attrs. simpl. by simplify_map_eq. Qed.

End AfterPrefix.

End InitPure.

Section ThresholdsPure.

Variable measure : list Q -> nat -> Q * list (nat * Q).
Variable percentile_of_empty : result npfloat.
Hypothesis measure_pure : pure_measure measure.

(** Per-label mode: one percentile per label, in label order; the first one
    that raises ends the computation. *)
Lemma thresholds_per_label_run (c act : nat) (epsilon : Q) (st : state) :
  self st !! "measure" = Some AMeasure ->
  self st !! "selected_threshold_mode" = Some (AInt 0) ->
  self st !! "epsilon" = Some (ANum epsilon) ->
  valid_batch (heap st !!! c) (heap st !!! act) ->
  __non_conformity_thresholds measure percentile_of_empty c act st
  = (match map_result
             (fun l =>
                match percentile percentile_of_empty
                        (calibration_scores measure (rows (heap st !!! c))
                           (rows (heap st !!! act)) l)
                        (100 - epsilon)%Q with
                | Ok p => Ok (l, p)
                | Raise e => Raise e
                end)
             (seq 0 (shape1 (heap st !!! c))) with
     | Ok thresholds => Ok (ADict (list_to_map thresholds))
     | Raise e => Raise e
     end, st).
Proof.
  intros Hm Hmode Heps Hvalid. unfold __non_conformity_thresholds.
  unfold bind at 1. rewrite collect_scores_run by done.
  unfold bind at 1, getattr at 1. rewrite Hmode.
  rewrite dict_keys_map. unfold bind at 1.
  set (g := fun l : nat =>
              match percentile percentile_of_empty
                      (calibration_scores measure (rows (heap st !!! c))
                         (rows (heap st !!! act)) l)
                      (100 - epsilon)%Q with
              | Ok p => Ok (l, p)
              | Raise e => Raise e
              end).
  rewrite (for_each_result _ g).
  - by destruct (map_result _ _).
  - intros l Hl%elem_of_seq. unfold g.
    unfold bind at 1, getattr at 1. rewrite Heps.
    rewrite dict_get_map_seq. case_bool_decide; [|lia]. simpl.
    unfold bind, lift, ret. by destruct (percentile _ _ _).
Qed.

(** Global mode: one percentile over the pooled scores, for every label. *)
Lemma thresholds_global_run (c act : nat) (epsilon : Q) (st : state) :
  self st !! "measure" = Some AMeasure ->
  self st !! "selected_threshold_mode" = Some (AInt 1) ->
  self st !! "epsilon" = Some (ANum epsilon) ->
  valid_batch (heap st !!! c) (heap st !!! act) ->
  0 < shape1 (heap st !!! c) ->
  __non_conformity_thresholds measure percentile_of_empty c act st
  = (match percentile percentile_of_empty
             (pooled_scores measure (rows (heap st !!! c))
                (rows (heap st !!! act)) (shape1 (heap st !!! c)))
             (100 - epsilon)%Q with
     | Ok p =>
         Ok (ADict (list_to_map
                      (map (fun l => (l, p)) (seq 0 (shape1 (heap st !!! c))))))
     | Raise e => Raise e
     end, st).
Proof.
  intros Hm Hmode Heps Hvalid Hpos. unfold __non_conformity_thresholds.
  unfold bind at 1. rewrite collect_scores_run by done.
  unfold bind at 1, getattr at 1. rewrite Hmode.
  rewrite dict_keys_map.
  assert (Hlists :
    map (fun label =>
           default [] (dict_get
             (map (fun l => (l, calibration_scores measure (rows (heap st !!! c))
                                    (rows (heap st !!! act)) l))
                  (seq 0 (shape1 (heap st !!! c)))) label))
        (seq 0 (shape1 (heap st !!! c)))
    = map (calibration_scores measure (rows (heap st !!! c))
             (rows (heap st !!! act)))
          (seq 0 (shape1 (heap st !!! c)))).
  { apply map_ext_in. intros l Hl%in_seq.
    rewrite dict_get_map_seq. case_bool_decide; [done|lia]. }
  rewrite Hlists. unfold bind at 1, lift at 1, np_concatenate.
  destruct (shape1 (heap st !!! c)) as [|n] eqn:Hn; [lia|].
  unfold pooled_scores. simpl.
  unfold bind at 1, getattr at 1. rewrite Heps.
  unfold bind, lift, ret. by destruct (percentile _ _ _).
Qed.

(** A batch with at least one row has at least one score. *)
Lemma pooled_scores_nonempty (mo ac : ndarray) :
  valid_batch mo ac -> 0 < length (rows mo) ->
  pooled_scores measure (rows mo) (rows ac) (shape1 mo) <> [].
Proof.
  intros Hvalid Hn.
  destruct (valid_batch_row mo ac 0 Hvalid Hn) as (r & t & Hr & Ht & Hlt).
  destruct (rows mo) as [|o os] eqn:Hmo; [simpl in Hn; lia|].
  destruct (rows ac) as [|r' rs] eqn:Hac; [done|].
  simpl in Hr. injection Hr as ->.
  assert (Hin : In (fst (measure o t))
                   (pooled_scores measure (o :: os) (r :: rs) (shape1 mo))).
  { unfold pooled_scores. apply in_concat.
    exists (calibration_scores measure (o :: os) (r :: rs) t). split.
    - apply in_map. apply in_seq. lia.
    - unfold calibration_scores. simpl. unfold label_is at 1. rewrite Ht.
      rewrite Nat.eqb_refl. by left. }
  intros E. by rewrite E in Hin.
Qed.

End ThresholdsPure.

Section InitRuns.

Variable measure : list Q -> nat -> Q * list (nat * Q).
Variable percentile_of_empty : result npfloat.
Hypothesis measure_pure : pure_measure measure.

Variables (a act : nat) (mo ac : ndarray) (epsilon : Q) (st : state).
Hypothesis Ha : heap st !! a = Some mo.
Hypothesis Hact : heap st !! act = Some ac.
Hypothesis Hvalid : valid_batch mo ac.
Hypothesis Heps0 : (0 <= epsilon)%Q.
Hypothesis Heps100 : (epsilon <= 100)%Q.

Lemma init_per_label :
  __init__ measure percentile_of_empty (VArray a) act epsilon (VInt 0) st
  = match map_result
            (fun l =>
               match percentile percentile_of_empty
                       (calibration_scores measure (rows mo) (rows ac) l)
                       (100 - epsilon)%Q with
               | Ok p => Ok (l, p)
               | Raise e => Raise e
               end)
            (seq 0 (shape1 mo)) with
    | Ok thresholds =>
        (Ok tt,
         set_self (<["thresholds" := ADict (list_to_map thresholds)]>
                     (self (init_state 0 epsilon a st)))
                  (init_state 0 epsilon a st))
    | Raise e => (Raise e, init_state 0 epsilon a st)
    end.
Proof.
  rewrite init_prefix by auto. unfold bind at 1.
  rewrite (thresholds_per_label_run _ _ measure_pure _ _ epsilon).
  - rewrite (init_state_output a mo epsilon 0 st Ha).
    rewrite (init_state_actual a act ac epsilon 0 st Hact).
    by destruct (map_result _ _).
  - apply init_state_measure.
  - apply init_state_mode.
  - apply init_state_epsilon.
  - rewrite (init_state_output a mo epsilon 0 st Ha).
    by rewrite (init_state_actual a act ac epsilon 0 st Hact).
Qed.

Lemma init_global :
  0 < shape1 mo ->
  __init__ measure percentile_of_empty (VArray a) act epsilon (VInt 1) st
  = match percentile percentile_of_empty
            (pooled_scores measure (rows mo) (rows ac) (shape1 mo))
            (100 - epsilon)%Q with
    | Ok p =>
        (Ok tt,
         set_self (<["thresholds" :=
                       ADict (list_to_map
                                (map (fun l => (l, p)) (seq 0 (shape1 mo))))]>
                     (self (init_state 1 epsilon a st)))
                  (init_state 1 epsilon a st))
    | Raise e => (Raise e, init_state 1 epsilon a st)
    end.
Proof.
  intros Hpos. rewrite init_prefix by auto. unfold bind at 1.
  rewrite (thresholds_global_run _ _ measure_pure _ _ epsilon).
  - rewrite (init_state_output a mo epsilon 1 st Ha).
    rewrite (init_state_actual a act ac epsilon 1 st Hact).
    by destruct (percentile _ _ _).
  - apply init_state_measure.
  - apply init_state_mode.
  - apply init_state_epsilon.
  - rewrite (init_state_output a mo epsilon 1 st Ha).
    by rewrite (init_state_actual a act ac epsilon 1 st Hact).
  - by rewrite (init_state_output a mo epsilon 1 st Ha).
Qed.

(** Per-label mode when every label has a calibration row. *)
Lemma init_per_label_defined :
  (forall l, l < shape1 mo ->
             calibration_scores measure (rows mo) (rows ac) l <> []) ->
  exists thr,
    fst (__init__ measure percentile_of_empty (VArray a) act epsilon (VInt 0) st)
    = Ok tt /\
    self (snd (__init__ measure percentile_of_empty (VArray a) act epsilon
                 (VInt 0) st)) !! "thresholds" = Some (ADict thr) /\
    forall l, l < shape1 mo ->
      thr !! l
      = Some (Fin (percentile_nonempty
                     (calibration_scores measure (rows mo) (rows ac) l)
                     (100 - epsilon)%Q)).
Proof.
  intros Hseen. rewrite init_per_label.
  rewrite (map_result_ok _
             (fun l => (l, Fin (percentile_nonempty
                                  (calibration_scores measure (rows mo) (rows ac) l)
                                  (100 - epsilon)%Q)))).
  - eexists. split; [done|]. split.
    + simpl. apply lookup_insert_eq.
    + intros l Hl.
      rewrite (lookup_list_to_map_graph
                 (fun l => Fin (percentile_nonempty
                                  (calibration_scores measure (rows mo) (rows ac) l)
                                  (100 - epsilon)%Q))).
      rewrite bool_decide_true; [done|]. apply elem_of_seq. lia.
  - intros l Hl%elem_of_seq.
    rewrite percentile_defined; [done| |lra|lra]. apply Hseen. lia.
Qed.

End InitRuns.

(** ** The calibration and prediction claims *)

Section CalibrationClaims.

Variable measure : list Q -> nat -> Q * list (nat * Q).
Variable percentile_of_empty : result npfloat.

Lemma filter_seq_sorted (p : nat -> bool) : forall n a,
  StronglySorted lt (List.filter p (seq a n)).
Proof.
  induction n as [|n IH]; intros a; simpl; [constructor|].
  destruct (p a); [|apply IH].
  constructor; [apply IH|]. apply Forall_forall.
  intros l Hl%list_elem_of_In%filter_In. destruct Hl as [Hl%in_seq _]. lia.
Qed.

Lemma Forall2_map_graph {A B} (P : A -> B -> Prop) (F : A -> B) (l : list A) :
  (forall x, P x (F x)) -> Forall2 P l (map F l).
Proof. intros HP. induction l; simpl; constructor; auto. Qed.

(** C1.  For a predictor over [n_labels] labels and a batch of rows of that
    length, [predict] returns one set per row, in row order; label [l] is in
    the row's set exactly when [measure(row, l) <= thresholds[l]] (equality
    included), and the set lists its labels in ascending order: it is the
    range [0 .. n_labels - 1] filtered by that test. *)
Theorem predict_prediction_sets (thr : gmap nat npfloat) (n_labels a : nat)
    (batch : ndarray) (st : state) :
  pure_measure measure ->
  self st !! "measure" = Some AMeasure ->
  self st !! "thresholds" = Some (ADict thr) ->
  (forall l, l < n_labels -> is_Some (thr !! l)) ->
  heap st !! a = Some batch ->
  Forall (fun row => length row = n_labels) (rows batch) ->
  exists sets,
    fst (predict measure (VArray a) st) = Ok sets /\
    Forall2
      (fun row set =>
         (forall l, l ∈ set <->
                    l < n_labels /\
                    exists t, thr !! l = Some t /\
                              le_npfloat (fst (measure row l)) t = true) /\
         StronglySorted lt set)
      (rows batch) sets /\
    sets = map (fun row =>
                  List.filter
                    (fun l => match thr !! l with
                              | Some t => le_npfloat (fst (measure row l)) t
                              | None => false
                              end)
                    (seq 0 n_labels))
               (rows batch).
Proof.
  intros Hpure Hm Hthr Hdom Ha Hrows.
  pose proof (list_lookup_total_correct _ _ _ Ha) as Hbatch.
  rewrite (predict_pure_run measure Hpure thr n_labels) by (by rewrite ?Hbatch).
  rewrite Hbatch. eexists. split; [done|]. split; [|done].
  apply Forall2_map_graph. intros row. split.
  - intros l. rewrite list_elem_of_In, filter_In, in_seq.
    split.
    + intros [Hl Hle]. split; [lia|]. destruct (thr !! l) as [t|]; [eauto|done].
    + intros [Hl (t & Ht & Hle)]. rewrite Ht. split; [lia|done].
  - apply filter_seq_sorted.
Qed.

End CalibrationClaims.

Lemma predict_prediction_sets_witness :
  fst (predict entry_measure (VArray 2) scenario_state) = Ok [[0; 1]].
Proof.
  destruct (predict_prediction_sets entry_measure scenario_thresholds 3 2
              new_output scenario_state) as (sets & Hsets & _ & Heq).
  - intros row label. reflexivity.
  - reflexivity.
  - vm_compute. reflexivity.
  - intros [|[|[|l]]] Hl; vm_compute; eauto. lia.
  - reflexivity.
  - repeat constructor.
  - rewrite Hsets, Heq. vm_compute. reflexivity.
Defined.

Section ThresholdClaims.

Variable measure : list Q -> nat -> Q * list (nat * Q).
Variable percentile_of_empty : result npfloat.

(** In global mode, on a batch the grouping loop runs through, the
    constructor stores for every label the percentile of the scores the loop
    has grouped, all lists together. *)
Lemma global_thresholds_grouped (a act : nat) (mo ac : ndarray)
    (epsilon : Q) (st : state) :
  pure_measure measure ->
  heap st !! a = Some mo ->
  heap st !! act = Some ac ->
  valid_batch mo ac ->
  0 < length (rows mo) ->
  (0 <= epsilon)%Q -> (epsilon <= 100)%Q ->
  exists thr,
    fst (__init__ measure percentile_of_empty (VArray a) act epsilon (VInt 1) st)
    = Ok tt /\
    self (snd (__init__ measure percentile_of_empty (VArray a) act epsilon
                 (VInt 1) st)) !! "thresholds" = Some (ADict thr) /\
    forall l,
      thr !! l
      = if bool_decide (l < shape1 mo)
        then Some (Fin (percentile_nonempty
                          (pooled_scores measure (rows mo) (rows ac) (shape1 mo))
                          (100 - epsilon)%Q))
        else None.
Proof.
  intros Hpure Ha Hact Hvalid Hrows H0 H100.
  assert (Hpos : 0 < shape1 mo).
  { destruct (valid_batch_row mo ac 0 Hvalid Hrows) as (r & t & _ & _ & Hlt). lia. }
  rewrite (init_global measure percentile_of_empty Hpure a act mo ac epsilon st)
    by done.
  rewrite percentile_defined;
    [|by apply pooled_scores_nonempty|lra|lra].
  eexists. split; [done|]. split.
  - simpl. apply lookup_insert_eq.
  - intros l.
    rewrite (lookup_list_to_map_graph
               (fun _ => Fin (percentile_nonempty
                                (pooled_scores measure (rows mo) (rows ac) (shape1 mo))
                                (100 - epsilon)%Q))).
    apply (f_equal (fun b : bool => if b then _ else None)).
    apply bool_decide_ext. rewrite elem_of_seq. lia.
Qed.

(** On one-hot rows the loop groups the scores as the specification does. *)
Lemma calibration_scores_one_hot (outputs : list (list Q)) (label : nat) :
  forall actual,
    Forall (fun row => is_one_hot row = true) (take (length outputs) actual) ->
    calibration_scores measure outputs actual label
    = spec_scores measure outputs actual label.
Proof.
  unfold calibration_scores, spec_scores.
  induction outputs as [|output outputs IH]; intros [|row actual] Hall;
    try done.
  simpl in Hall. apply Forall_cons in Hall as [Hrow Hall]. simpl.
  rewrite IH by done. f_equal.
  unfold label_is. by rewrite true_label_one_hot.
Qed.

Lemma pooled_scores_one_hot (outputs actual : list (list Q)) (n_labels : nat) :
  Forall (fun row => is_one_hot row = true) (take (length outputs) actual) ->
  pooled_scores measure outputs actual n_labels
  = spec_pooled_scores measure outputs actual n_labels.
Proof.
  intros Hall. unfold pooled_scores, spec_pooled_scores. f_equal.
  apply map_ext. intros label. by apply calibration_scores_one_hot.
Qed.

Lemma one_hot_batch_valid (mo ac : ndarray) :
  one_hot_batch mo ac -> valid_batch mo ac.
Proof.
  intros [Hlen Hall]. split; [done|].
  eapply Forall_impl; [exact Hall|].
  intros row [Hhot Hlt]. exists (argmax row).
  split; [by apply true_label_one_hot|done].
Qed.

(** C2.  In global mode, on a valid calibration batch (a one-hot label row
    with its 1 at a label index for every output row, at least one row) and
    an epsilon within [0, 100], the constructor succeeds and stores one and
    the same threshold for every label: the (100 - epsilon)-th percentile of
    the pooled calibration scores, each row scored at its true label, the
    argmax of its one-hot row. *)
Theorem global_thresholds_identical (a act : nat) (mo ac : ndarray)
    (epsilon : Q) (st : state) :
  pure_measure measure ->
  heap st !! a = Some mo ->
  heap st !! act = Some ac ->
  one_hot_batch mo ac ->
  0 < length (rows mo) ->
  (0 <= epsilon)%Q -> (epsilon <= 100)%Q ->
  exists thr,
    fst (__init__ measure percentile_of_empty (VArray a) act epsilon (VInt 1) st)
    = Ok tt /\
    self (snd (__init__ measure percentile_of_empty (VArray a) act epsilon
                 (VInt 1) st)) !! "thresholds" = Some (ADict thr) /\
    forall l,
      thr !! l
      = if bool_decide (l < shape1 mo)
        then Some (Fin (percentile_nonempty
                          (spec_pooled_scores measure (rows mo) (rows ac)
                             (shape1 mo))
                          (100 - epsilon)%Q))
        else None.
Proof.
  intros Hpure Ha Hact Hbatch Hrows H0 H100.
  rewrite <- pooled_scores_one_hot.
  - apply global_thresholds_grouped; try done. by apply one_hot_batch_valid.
  - destruct Hbatch as [_ Hall]. eapply Forall_impl; [exact Hall|]. by intros row [].
Qed.

(** C3.  In per-label mode, when every label has a calibration row: at
    epsilon 0 each label's threshold is the greatest of its calibration
    scores, at epsilon 100 the least. *)
Theorem per_label_thresholds_extremes (a act : nat) (mo ac : ndarray)
    (st : state) :
  pure_measure measure ->
  heap st !! a = Some mo ->
  heap st !! act = Some ac ->
  valid_batch mo ac ->
  (forall l, l < shape1 mo ->
             calibration_scores measure (rows mo) (rows ac) l <> []) ->
  (exists thr,
      fst (__init__ measure percentile_of_empty (VArray a) act 0 (VInt 0) st)
      = Ok tt /\
      self (snd (__init__ measure percentile_of_empty (VArray a) act 0
                   (VInt 0) st)) !! "thresholds" = Some (ADict thr) /\
      forall l, l < shape1 mo ->
        exists t, thr !! l = Some (Fin t) /\
                  (t == maximum (calibration_scores measure (rows mo) (rows ac) l))%Q)
  /\
  (exists thr,
      fst (__init__ measure percentile_of_empty (VArray a) act 100 (VInt 0) st)
      = Ok tt /\
      self (snd (__init__ measure percentile_of_empty (VArray a) act 100
                   (VInt 0) st)) !! "thresholds" = Some (ADict thr) /\
      forall l, l < shape1 mo ->
        exists t, thr !! l = Some (Fin t) /\
                  (t == minimum (calibration_scores measure (rows mo) (rows ac) l))%Q).
Proof.
  intros Hpure Ha Hact Hvalid Hseen. split.
  - destruct (init_per_label_defined measure percentile_of_empty Hpure
                a act mo ac 0 st Ha Hact Hvalid) as (thr & Hok & Hthr & Hval);
      [lra|lra|done|].
    exists thr. split; [done|]. split; [done|].
    intros l Hl. eexists. split; [by apply Hval|].
    specialize (Hseen l Hl).
    destruct (calibration_scores _ _ _ l) as [|x scores]; [done|].
    apply percentile_nonempty_100. ring.
  - destruct (init_per_label_defined measure percentile_of_empty Hpure
                a act mo ac 100 st Ha Hact Hvalid) as (thr & Hok & Hthr & Hval);
      [lra|lra|done|].
    exists thr. split; [done|]. split; [done|].
    intros l Hl. eexists. split; [by apply Hval|].
    specialize (Hseen l Hl).
    destruct (calibration_scores _ _ _ l) as [|x scores]; [done|].
    apply percentile_nonempty_0. ring.
Qed.

(** C6, as the code has it.  Neither degenerate case is guarded.  [evaluate]
    on no sample at all raises Python's own [ZeroDivisionError].  In
    per-label mode, for a label without any calibration row, the empty list
    goes to [np.percentile] and the constructor passes on what numpy does
    with it: an exception of numpy's leaves the constructor as it is, a value
    (numpy's [nan]) is stored as that label's threshold. *)
Theorem degenerate_statistics_unguarded (a act : nat) (mo ac : ndarray)
    (epsilon : Q) (st : state) (label : nat) :
  pure_measure measure ->
  heap st !! a = Some mo ->
  heap st !! act = Some ac ->
  valid_batch mo ac ->
  (0 <= epsilon)%Q -> (epsilon <= 100)%Q ->
  label < shape1 mo ->
  calibration_scores measure (rows mo) (rows ac) label = [] ->
  evaluate [] [] = Raise ZeroDivisionError /\
  (forall e, percentile_of_empty = Raise e ->
     fst (__init__ measure percentile_of_empty (VArray a) act epsilon (VInt 0) st)
     = Raise e) /\
  (forall v, percentile_of_empty = Ok v ->
     fst (__init__ measure percentile_of_empty (VArray a) act epsilon (VInt 0) st)
     = Ok tt /\
     exists thr,
       self (snd (__init__ measure percentile_of_empty (VArray a) act epsilon
                    (VInt 0) st)) !! "thresholds" = Some (ADict thr) /\
       thr !! label = Some v).
Proof.
  intros Hpure Ha Hact Hvalid H0 H100 Hlabel Hempty.
  split; [done|].
  rewrite (init_per_label measure percentile_of_empty Hpure a act mo ac
             epsilon st) by done.
  assert (Hrange : Qlt_bool (100 - epsilon) 0 || Qlt_bool 100 (100 - epsilon)
                   = false) by (apply range_check; lra).
  split.
  - intros e He. rewrite (map_result_raise _ e); [done| |].
    + exists label. split; [apply elem_of_seq; lia|].
      unfold percentile. by rewrite Hrange, Hempty, He.
    + intros l e' _. unfold percentile. rewrite Hrange.
      destruct (calibration_scores _ _ _ l); [|done].
      rewrite He. congruence.
  - intros v Hv.
    set (p := fun l =>
                match calibration_scores measure (rows mo) (rows ac) l with
                | [] => v
                | _ => Fin (percentile_nonempty
                              (calibration_scores measure (rows mo) (rows ac) l)
                              (100 - epsilon)%Q)
                end).
    rewrite (map_result_ok _ (fun l => (l, p l))).
    + split; [done|]. eexists. split.
      * simpl. apply lookup_insert_eq.
      * rewrite (lookup_list_to_map_graph p).
        rewrite bool_decide_true by (apply elem_of_seq; lia).
        unfold p. by rewrite Hempty.
    + intros l _. unfold percentile, p. rewrite Hrange.
      destruct (calibration_scores _ _ _ l); [by rewrite Hv|done].
Qed.

End ThresholdClaims.

Lemma scenario_valid_batch : valid_batch calibration_output calibration_actual.
Proof.
  split; [simpl; lia|]. simpl.
  repeat (constructor; [eexists; split; [reflexivity|simpl; lia]|]).
  constructor.
Qed.

Lemma partial_valid_batch : valid_batch calibration_output partial_actual.
Proof.
  split; [simpl; lia|]. simpl.
  repeat (constructor; [eexists; split; [reflexivity|simpl; lia]|]).
  constructor.
Qed.

Lemma scenario_one_hot_batch :
  one_hot_batch calibration_output calibration_actual.
Proof.
  split; [simpl; lia|]. simpl.
  repeat (constructor; [split; [reflexivity|simpl; lia]|]).
  constructor.
Qed.

Lemma global_thresholds_identical_witness :
  exists thr,
    fst (__init__ entry_measure (Ok NaN) (VArray 0) 1 50 (VInt 1) blank_state)
    = Ok tt /\
    self (snd (__init__ entry_measure (Ok NaN) (VArray 0) 1 50 (VInt 1)
                 blank_state)) !! "thresholds" = Some (ADict thr) /\
    exists t,
      (forall l, thr !! l = if bool_decide (l < 3) then Some (Fin t) else None)
      /\ (t == 7 # 2)%Q.
Proof.
  destruct (global_thresholds_identical entry_measure (Ok NaN) 0 1
              calibration_output calibration_actual 50 blank_state)
    as (thr & Hrun & Hthr & Hall).
  - intros row label. reflexivity.
  - reflexivity.
  - reflexivity.
  - exact scenario_one_hot_batch.
  - simpl. lia.
  - lra.
  - lra.
  - exists thr. split; [exact Hrun|]. split; [exact Hthr|].
    eexists. split; [exact Hall|]. vm_compute. reflexivity.
Defined.

Lemma per_label_thresholds_extremes_witness :
  exists thr,
    self (snd (__init__ entry_measure (Ok NaN) (VArray 0) 1 0 (VInt 0)
                 blank_state)) !! "thresholds" = Some (ADict thr) /\
    exists t, thr !! 2 = Some (Fin t) /\ (t == 6)%Q.
Proof.
  destruct (per_label_thresholds_extremes entry_measure (Ok NaN) 0 1
              calibration_output calibration_actual blank_state)
    as [(thr & _ & Hthr & Hmax) _].
  - intros row label. reflexivity.
  - reflexivity.
  - reflexivity.
  - exact scenario_valid_batch.
  - intros [|[|[|l]]] Hl; try (vm_compute; discriminate). simpl in Hl. lia.
  - exists thr. split; [exact Hthr|].
    destruct (Hmax 2) as (t & Ht & Heq); [simpl; lia|].
    exists t. split; [exact Ht|]. rewrite Heq. vm_compute. reflexivity.
Defined.

Lemma degenerate_statistics_unguarded_witness :
  fst (__init__ entry_measure (Ok NaN) (VArray 0) 3 50 (VInt 0) blank_state)
  = Ok tt /\
  exists thr,
    self (snd (__init__ entry_measure (Ok NaN) (VArray 0) 3 50 (VInt 0)
                 blank_state)) !! "thresholds" = Some (ADict thr) /\
    thr !! 2 = Some NaN.
Proof.
  destruct (degenerate_statistics_unguarded entry_measure (Ok NaN) 0 3
              calibration_output partial_actual 50 blank_state 2)
    as (_ & _ & Hvalue).
  - intros row label. reflexivity.
  - reflexivity.
  - reflexivity.
  - exact partial_valid_batch.
  - lra.
  - lra.
  - simpl. lia.
  - reflexivity.
  - exact (Hvalue NaN eq_refl).
Defined.

(** C6, as stated, fails: [evaluate] on zero samples raises the very
    division-by-zero error, and with a numpy that answers [nan] for an empty
    input the constructor returns normally with [nan] as the threshold of the
    label it never saw; with one that raises [IndexError], that error comes
    out. *)
Lemma undefined_statistic_not_raised :
  evaluate [] [] = Raise ZeroDivisionError /\
  fst (__init__ entry_measure (Ok NaN) (VArray 0) 3 50 (VInt 0) blank_state)
  = Ok tt /\
  (exists thr,
     self (snd (__init__ entry_measure (Ok NaN) (VArray 0) 3 50 (VInt 0)
                  blank_state)) !! "thresholds" = Some (ADict thr) /\
     thr !! 2 = Some NaN) /\
  fst (__init__ entry_measure (Raise IndexError) (VArray 0) 3 50 (VInt 0)
         blank_state) = Raise IndexError.
Proof.
  split; [reflexivity|]. split; [reflexivity|]. split; [|reflexivity].
  eexists. split; [vm_compute; reflexivity|]. reflexivity.
Qed.

(** ** Validation in the constructor *)

Section Validation.

Variable measure : list Q -> nat -> Q * list (nat * Q).
Variable percentile_of_empty : result npfloat.

(** C7, as the code has it.  The constructor checks, in this order, the type
    of [model_output], the range of epsilon, the type of [threshold_mode] and
    its value, and raises at the first failure with the state untouched: no
    attribute set, no array allocated, the measure not called.  An epsilon
    outside [0, 100] raises [ValueError]; a [threshold_mode] that is not an
    [int] raises [TypeError]; an [int] other than 0 and 1 raises
    [ValueError]. *)
Theorem init_validation (a act : nat) (epsilon : Q) (threshold_mode : value)
    (st : state) :
  ((epsilon < 0)%Q \/ (100 < epsilon)%Q ->
   __init__ measure percentile_of_empty (VArray a) act epsilon threshold_mode st
   = (Raise ValueError, st)) /\
  ((0 <= epsilon)%Q -> (epsilon <= 100)%Q ->
   type_name threshold_mode <> "int" ->
   __init__ measure percentile_of_empty (VArray a) act epsilon threshold_mode st
   = (Raise TypeError, st)) /\
  ((0 <= epsilon)%Q -> (epsilon <= 100)%Q ->
   forall z, threshold_mode = VInt z -> z <> 0%Z -> z <> 1%Z ->
   __init__ measure percentile_of_empty (VArray a) act epsilon threshold_mode st
   = (Raise ValueError, st)).
Proof.
  unfold __init__. simpl. split; [|split].
  - intros Hout.
    assert (Hcheck : Qlt_bool epsilon 0 || Qlt_bool 100 epsilon = true).
    { unfold Qlt_bool. apply orb_true_iff.
      destruct Hout as [Hlt|Hgt]; [left|right]; apply negb_true_iff;
        (destruct (Qle_bool _ _) eqn:Hc; [apply Qle_bool_iff in Hc; lra|done]). }
    by rewrite Hcheck.
  - intros H0 H100 Hty. rewrite range_check by done.
    destruct threshold_mode; simpl in *; done.
  - intros H0 H100 z -> Hz0 Hz1. rewrite range_check by done. simpl.
    destruct (Z.eqb_spec z 0); [done|]. by destruct (Z.eqb_spec z 1).
Qed.

(** A [model_output] that is not a numpy array is refused first. *)
Lemma init_requires_array (model_output : value) (act : nat) (epsilon : Q)
    (threshold_mode : value) (st : state) :
  type_module model_output <> "numpy" ->
  __init__ measure percentile_of_empty model_output act epsilon threshold_mode st
  = (Raise TypeError, st).
Proof. intros Hty. unfold __init__. by destruct model_output. Qed.

End Validation.

Lemma init_validation_witness :
  __init__ entry_measure (Ok NaN) (VArray 0) 1 (101 # 1) (VInt 0) blank_state
  = (Raise ValueError, blank_state) /\
  __init__ entry_measure (Ok NaN) (VArray 0) 1 50 (VBool true) blank_state
  = (Raise TypeError, blank_state) /\
  __init__ entry_measure (Ok NaN) (VArray 0) 1 50 (VInt 2) blank_state
  = (Raise ValueError, blank_state).
Proof.
  split; [|split].
  - apply (init_validation entry_measure (Ok NaN) 0 1 (101 # 1) (VInt 0)
             blank_state). right. reflexivity.
  - apply (init_validation entry_measure (Ok NaN) 0 1 50 (VBool true)
             blank_state); [discriminate|discriminate|discriminate].
  - apply (init_validation entry_measure (Ok NaN) 0 1 50 (VInt 2)
             blank_state) with (z := 2%Z);
      [discriminate|discriminate|reflexivity|discriminate|discriminate].
Defined.

(** C7, as stated, fails: the two ways for [threshold_mode] to be outside
    {0, 1} do not raise one class of error.  A float raises [TypeError], the
    integer 2 raises [ValueError]. *)
Lemma threshold_mode_errors_differ :
  ~ exists e,
      fst (__init__ entry_measure (Ok NaN) (VArray 0) 1 50 (VFloat (1 # 2))
             blank_state) = Raise e /\
      fst (__init__ entry_measure (Ok NaN) (VArray 0) 1 50 (VInt 2)
             blank_state) = Raise e.
Proof. intros (e & H1 & H2). vm_compute in H1, H2. congruence. Qed.

(** ** Frames: what the operations leave alone, for any measure *)

Section Respects.

Context (R : state -> state -> Prop) `{!PreOrder R}.

Lemma respects_ret {A} (x : A) : respects R (ret x).
Proof. intros st. simpl. reflexivity. Qed.

Lemma respects_raise {A} (e : exn) : respects R (raise (A := A) e).
Proof. intros st. simpl. reflexivity. Qed.

Lemma respects_lift {A} (r : result A) : respects R (lift r).
Proof. intros st. simpl. reflexivity. Qed.

Lemma respects_bind {A B} (m : M A) (f : A -> M B) :
  respects R m -> (forall x, respects R (f x)) -> respects R (bind m f).
Proof.
  intros Hm Hf st. unfold bind. specialize (Hm st).
  destruct (m st) as [[x|e] st']; simpl in *; [|done].
  etrans; [exact Hm|apply Hf].
Qed.

Lemma respects_for_each {A B} (f : A -> M B) (l : list A) :
  (forall x, respects R (f x)) -> respects R (for_each f l).
Proof.
  intros Hf. induction l as [|x l IH]; simpl.
  - apply respects_ret.
  - apply respects_bind; [apply Hf|]. intros y.
    apply respects_bind; [apply IH|]. intros ys. apply respects_ret.
Qed.

Lemma respects_filter_where {A} (c : A -> M bool) (l : list A) :
  (forall x, respects R (c x)) -> respects R (filter_where c l).
Proof.
  intros Hc. induction l as [|x l IH]; simpl.
  - apply respects_ret.
  - apply respects_bind; [apply Hc|]. intros b.
    apply respects_bind; [apply IH|]. intros ys. apply respects_ret.
Qed.

Lemma respects_fold_loop {A S} (f : S -> A -> M S) (l : list A) (s : S) :
  (forall s x, respects R (f s x)) -> respects R (fold_loop f l s).
Proof.
  intros Hf. revert s. induction l as [|x l IH]; intros s; simpl.
  - apply respects_ret.
  - apply respects_bind; [apply Hf|]. intros s'. apply IH.
Qed.

(** A computation that does not touch the state at all. *)
Lemma respects_read {A} (m : M A) :
  (forall st, snd (m st) = st) -> respects R m.
Proof. intros Hm st. rewrite Hm. reflexivity. Qed.

End Respects.

#[local] Instance heap_frame_preorder (n : nat) : PreOrder (heap_frame n).
Proof.
  split.
  - intros st Hn. split; [done|lia].
  - intros st1 st2 st3 H12 H23 Hn.
    destruct (H12 Hn) as [Ht12 Hl12].
    destruct H23 as [Ht23 Hl23]; [lia|].
    split; [congruence|lia].
Qed.

#[local] Instance keeps_self_preorder : PreOrder keeps_self.
Proof. split; unfold keeps_self; [done|congruence]. Qed.

#[local] Instance keeps_heap_preorder : PreOrder keeps_heap.
Proof. split; unfold keeps_heap; [done|congruence]. Qed.

Section Frames.

Variable measure : list Q -> nat -> Q * list (nat * Q).
Variable percentile_of_empty : result npfloat.

Context (R : state -> state -> Prop) `{!PreOrder R}.

Lemma respects_getattr (name : string) : respects R (getattr name).
Proof.
  apply respects_read; [done|]. intros st. unfold getattr.
  by destruct (self st !! name).
Qed.

Lemma respects_np_shape1 (a : nat) : respects R (np_shape1 a).
Proof. by apply respects_read. Qed.

Lemma respects_np_len (a : nat) : respects R (np_len a).
Proof. by apply respects_read. Qed.

Lemma respects_row_len (a k : nat) : respects R (row_len a k).
Proof. by apply respects_read. Qed.

Lemma respects_np_getitem (a i : nat) : respects R (np_getitem a i).
Proof.
  apply respects_read; [done|]. intros st. unfold np_getitem.
  by destruct (rows (heap st !!! a) !! i).
Qed.

Lemma respects_get_threshold (i : nat) : respects R (get_threshold i).
Proof.
  unfold get_threshold. apply respects_bind; [done|apply respects_getattr|].
  intros [| | | |d|]; try by apply respects_raise.
  destruct (d !! i); [by apply respects_ret|by apply respects_raise].
Qed.

Lemma respects_get_labels : respects R get_labels.
Proof.
  unfold get_labels. apply respects_bind; [done|apply respects_getattr|].
  intros [z| | | | |]; (by apply respects_ret) || (by apply respects_raise).
Qed.

(** One call of the measure on a row of the array at [c] is all that may
    change anything. *)
Variable c : nat.
Hypothesis measure_respected :
  forall k label, respects R (call_measure measure c k label).

Lemma respects_collect_scores (act : nat) :
  respects R (collect_scores measure c act).
Proof.
  unfold collect_scores.
  apply respects_bind; [done|apply respects_np_shape1|]. intros l.
  apply respects_bind; [done|apply respects_np_len|]. intros n.
  apply respects_fold_loop; [done|]. intros d i.
  apply respects_bind; [done|apply respects_np_getitem|]. intros r.
  apply respects_bind; [done|by apply respects_lift|]. intros t.
  destruct (dict_get d t); [|by apply respects_raise].
  apply respects_bind; [done|apply respects_np_getitem|]. intros r'.
  apply respects_bind; [done|by apply respects_lift|]. intros t'.
  apply respects_bind; [done|apply measure_respected|]. intros score.
  by apply respects_ret.
Qed.

Lemma respects_non_conformity_thresholds (act : nat) :
  respects R (__non_conformity_thresholds measure percentile_of_empty c act).
Proof.
  unfold __non_conformity_thresholds.
  apply respects_bind; [done|apply respects_collect_scores|]. intros d.
  apply respects_bind; [done|apply respects_getattr|].
  intros [[|[| |]|]| | | | |]; try by apply respects_ret.
  - apply respects_bind; [done| |intros ?; by apply respects_ret].
    apply respects_for_each; [done|]. intros label.
    apply respects_bind; [done|apply respects_getattr|].
    intros [| |q| | |]; try by apply respects_raise.
    apply respects_bind; [done|by apply respects_lift|]. intros p.
    by apply respects_ret.
  - apply respects_bind; [done|by apply respects_lift|]. intros pooled.
    apply respects_bind; [done|apply respects_getattr|].
    intros [| |q| | |]; try by apply respects_raise.
    apply respects_bind; [done|by apply respects_lift|]. intros p.
    by apply respects_ret.
Qed.

Lemma respects_predict_rows : respects R (predict_rows measure c).
Proof.
  unfold predict_rows.
  apply respects_bind; [done|apply respects_np_len|]. intros n.
  apply respects_for_each; [done|]. intros k.
  apply respects_bind; [done|apply respects_row_len|]. intros len_output.
  apply respects_filter_where; [done|]. intros i.
  apply respects_bind; [done|apply measure_respected|]. intros score.
  apply respects_bind; [done|apply respects_get_threshold|]. intros t.
  by apply respects_ret.
Qed.

Lemma respects_confidence_rows : respects R (confidence_rows measure c).
Proof.
  unfold confidence_rows.
  apply respects_bind; [done|apply respects_np_len|]. intros n.
  apply respects_for_each; [done|]. intros k.
  apply respects_bind; [done|apply respects_row_len|]. intros len_output.
  apply respects_for_each; [done|]. intros i. apply measure_respected.
Qed.

End Frames.

#[local] Instance keeps_length_preorder : PreOrder keeps_length.
Proof. split; unfold keeps_length; [done|congruence]. Qed.

Section FrameInstances.

Variable measure : list Q -> nat -> Q * list (nat * Q).
Variable percentile_of_empty : result npfloat.

Lemma call_measure_keeps_self (c k label : nat) :
  respects keeps_self (call_measure measure c k label).
Proof.
  intros st. unfold call_measure, bind, getattr, keeps_self.
  destruct (self st !! "measure") as [[]|]; simpl; try done.
  by destruct (measure _ _).
Qed.

Lemma call_measure_keeps_length (c k label : nat) :
  respects keeps_length (call_measure measure c k label).
Proof.
  intros st. unfold call_measure, bind, getattr, keeps_length.
  destruct (self st !! "measure") as [[]|]; simpl; try done.
  destruct (measure _ _). simpl. unfold write_row. apply length_insert.
Qed.

(** The measure writes into the row it is handed, nowhere else. *)
Lemma call_measure_heap_frame (n c k label : nat) :
  n <= c -> respects (heap_frame n) (call_measure measure c k label).
Proof.
  intros Hc st Hn. unfold call_measure, bind, getattr.
  destruct (self st !! "measure") as [[]|]; simpl; try (split; [done|lia]).
  destruct (measure _ _). simpl. unfold write_row.
  rewrite take_insert_ge by done. rewrite length_insert. split; [done|lia].
Qed.




Lemma np_copy_keeps_self (a : nat) : respects keeps_self (np_copy a).
Proof. by intros st. Qed.

(** After the copy, whatever stays above the old heap leaves the old heap
    alone. *)
Lemma copy_then_frame {A} (n a : nat) (f : nat -> M A) :
  (forall c, n <= c -> respects (heap_frame n) (f c)) ->
  respects (heap_frame n) (bind (np_copy a) f).
Proof.
  intros Hf st Hn. unfold bind, np_copy.
  destruct (Hf (length (heap st)) Hn
              (set_heap (heap st ++ [heap st !!! a]) st)) as [Ht Hl].
  { simpl. rewrite length_app. lia. }
  simpl in *. rewrite length_app in Hl. simpl in Hl.
  rewrite take_app_le in Ht by done. split; [done|lia].
Qed.

Lemma heap_frame_preserved (st st' : state) :
  heap_frame (length (heap st)) st st' -> arrays_preserved st st'.
Proof.
  intros Hframe a arr Ha. destruct Hframe as [Ht _]; [done|].
  rewrite (take_ge (heap st)) in Ht by done.
  rewrite <- Ht in Ha. by apply lookup_take_Some in Ha as [? _].
Qed.

Lemma predict_heap_frame (n : nat) (v : value) :
  respects (heap_frame n) (predict measure v).
Proof.
  unfold predict. destruct v; simpl; try (apply respects_raise; apply _).
  apply copy_then_frame. intros c Hc.
  apply respects_predict_rows; [apply _|].
  intros k label. by apply call_measure_heap_frame.
Qed.






End FrameInstances.

Section SelfAndHeapKept.

Variable measure : list Q -> nat -> Q * list (nat * Q).

Lemma predict_keeps_self (v : value) : respects keeps_self (predict measure v).
Proof.
  unfold predict. destruct v; simpl; try (apply respects_raise; apply _).
  apply respects_bind; [apply _|apply np_copy_keeps_self|]. intros c.
  apply respects_predict_rows; [apply _|].
  intros k label. apply call_measure_keeps_self.
Qed.

Lemma confidence_keeps_self (v : value) :
  respects keeps_self (confidence measure v).
Proof.
  unfold confidence. destruct v; simpl; try (apply respects_raise; apply _).
  apply respects_bind; [apply _|apply np_copy_keeps_self|]. intros c.
  apply respects_confidence_rows; [apply _|].
  intros k label. apply call_measure_keeps_self.
Qed.

Lemma threshold_measure_keeps_self (v : value) (act : nat) :
  respects keeps_self (threshold_measure measure v act).
Proof.
  unfold threshold_measure. destruct v; try (apply respects_raise; apply _).
  apply respects_collect_scores; [apply _|].
  intros k label. apply call_measure_keeps_self.
Qed.


(** The rendering sink gets the histogram; instance and heap are not its
    business. *)
Lemma label_histogram_respects (R : state -> state -> Prop) `{!PreOrder R}
    (predictions : list (list nat)) (save_path title : option string) :
  (forall st p, R st (set_plots p st)) ->
  respects R (label_histogram predictions save_path title).
Proof.
  intros Hplots. unfold label_histogram.
  apply respects_bind; [done|by apply respects_get_labels|]. intros l0.
  apply respects_bind; [done|by apply respects_lift|]. intros h0.
  apply respects_bind; [done|by apply respects_get_labels|]. intros l1.
  apply respects_bind; [done|by apply respects_get_labels|]. intros l2.
  apply respects_bind; [done|by apply respects_lift|]. intros h.
  apply respects_bind; [done| |intros _; by apply respects_ret].
  destruct save_path as [path|]; [|by apply respects_ret].
  apply respects_bind; [done|by apply respects_get_labels|]. intros l3.
  intros st. apply Hplots.
Qed.

End SelfAndHeapKept.

(** ** Two runs on equal contents *)

Section Corresponds.

Context (R : state -> state -> Prop).

Lemma corresponds_ret {A} (x : A) : corresponds R (ret x) (ret x).
Proof. by intros st1 st2 H. Qed.

Lemma corresponds_raise {A} (e : exn) :
  corresponds R (raise (A := A) e) (raise e).
Proof. by intros st1 st2 H. Qed.

Lemma corresponds_bind {A B} (m1 m2 : M A) (f1 f2 : A -> M B) :
  corresponds R m1 m2 -> (forall x, corresponds R (f1 x) (f2 x)) ->
  corresponds R (bind m1 f1) (bind m2 f2).
Proof.
  intros Hm Hf st1 st2 H. unfold bind. destruct (Hm st1 st2 H) as [Hres Hst].
  destruct (m1 st1) as [[x1|e1] st1'], (m2 st2) as [[x2|e2] st2'];
    simpl in *; try congruence.
  - injection Hres as ->. by apply Hf.
  - injection Hres as ->. by split.
Qed.

Lemma corresponds_for_each {A B} (f1 f2 : A -> M B) (l : list A) :
  (forall x, corresponds R (f1 x) (f2 x)) ->
  corresponds R (for_each f1 l) (for_each f2 l).
Proof.
  intros Hf. induction l as [|x l IH]; simpl.
  - apply corresponds_ret.
  - apply corresponds_bind; [apply Hf|]. intros y.
    apply corresponds_bind; [apply IH|]. intros ys. apply corresponds_ret.
Qed.

Lemma corresponds_filter_where {A} (c1 c2 : A -> M bool) (l : list A) :
  (forall x, corresponds R (c1 x) (c2 x)) ->
  corresponds R (filter_where c1 l) (filter_where c2 l).
Proof.
  intros Hc. induction l as [|x l IH]; simpl.
  - apply corresponds_ret.
  - apply corresponds_bind; [apply Hc|]. intros b.
    apply corresponds_bind; [apply IH|]. intros ys. apply corresponds_ret.
Qed.

End Corresponds.

Section Agree.

Variable measure : list Q -> nat -> Q * list (nat * Q).
Variables c1 c2 : nat.

Lemma agree_getattr (name : string) :
  corresponds (agree c1 c2) (getattr name) (getattr name).
Proof.
  intros st1 st2 H. unfold getattr. destruct H as (Hself & ?).
  rewrite Hself. by destruct (self st2 !! name).
Qed.

Lemma agree_get_threshold (i : nat) :
  corresponds (agree c1 c2) (get_threshold i) (get_threshold i).
Proof.
  unfold get_threshold. apply corresponds_bind; [apply agree_getattr|].
  intros [| | | |d|]; try apply corresponds_raise.
  destruct (d !! i); [apply corresponds_ret|apply corresponds_raise].
Qed.

Lemma agree_np_len : corresponds (agree c1 c2) (np_len c1) (np_len c2).
Proof.
  intros st1 st2 H. unfold np_len. simpl. split; [|done].
  destruct H as (_ & _ & _ & Harr). by rewrite Harr.
Qed.

Lemma agree_row_len (k : nat) :
  corresponds (agree c1 c2) (row_len c1 k) (row_len c2 k).
Proof.
  intros st1 st2 H. unfold row_len. simpl. split; [|done].
  destruct H as (_ & _ & _ & Harr). by rewrite Harr.
Qed.

Lemma agree_call_measure (k label : nat) :
  corresponds (agree c1 c2)
    (call_measure measure c1 k label) (call_measure measure c2 k label).
Proof.
  intros st1 st2 (Hself & Hc1 & Hc2 & Harr).
  unfold call_measure, bind, getattr. rewrite Hself.
  destruct (self st2 !! "measure") as [[]|]; simpl;
    try (split; [done|by repeat split]).
  rewrite Harr. destruct (measure _ _) as [score writes]. simpl.
  split; [done|]. unfold agree, write_row. simpl.
  rewrite !length_insert.
  rewrite !list_lookup_total_insert_eq by done.
  rewrite Harr. by repeat split.
Qed.

Lemma agree_predict_rows :
  corresponds (agree c1 c2) (predict_rows measure c1) (predict_rows measure c2).
Proof.
  unfold predict_rows.
  apply corresponds_bind; [apply agree_np_len|]. intros n.
  apply corresponds_for_each. intros k.
  apply corresponds_bind; [apply agree_row_len|]. intros len_output.
  apply corresponds_filter_where. intros i.
  apply corresponds_bind; [apply agree_call_measure|]. intros score.
  apply corresponds_bind; [apply agree_get_threshold|]. intros t.
  apply corresponds_ret.
Qed.

End Agree.

(** ** Aliasing and idempotence claims *)

Section AliasingClaims.

Variable measure : list Q -> nat -> Q * list (nat * Q).
Variable percentile_of_empty : result npfloat.

Lemma predict_unfold (a : nat) (st : state) :
  predict measure (VArray a) st
  = predict_rows measure (length (heap st))
      (set_heap (heap st ++ [heap st !!! a]) st).
Proof. reflexivity. Qed.


(** C9.  Two calls of [predict] on the same batch give the same result,
    whatever the measure writes into the vectors it is handed; and [predict],
    [confidence], [threshold_measure] and [label_histogram] leave the
    attributes of the instance, the threshold map among them, as they
    were. *)
Theorem predict_idempotent (v : value) (st : state) :
  valid_ref st v ->
  fst (predict measure v (snd (predict measure v st)))
  = fst (predict measure v st) /\
  self (snd (predict measure v st)) = self st /\
  self (snd (confidence measure v st)) = self st /\
  (forall actual, self (snd (threshold_measure measure v actual st)) = self st) /\
  (forall predictions save_path title,
     self (snd (label_histogram predictions save_path title st)) = self st).
Proof.
  intros Hv. split; [|split; [|split; [|split]]].
  - destruct v as [| | | | | |a]; try reflexivity. simpl in Hv.
    pose proof (predict_keeps_self measure (VArray a) st) as Hself.
    pose proof (heap_frame_preserved _ _
                  (predict_heap_frame measure (length (heap st)) (VArray a) st))
      as Hkept.
    unfold keeps_self in Hself.
    destruct (lookup_lt_is_Some_2 (heap st) a Hv) as [arr Harr].
    specialize (Hkept a arr Harr).
    rewrite (predict_unfold a (snd (predict measure (VArray a) st))).
    rewrite (predict_unfold a st) at 3.
    apply agree_predict_rows. unfold agree. simpl.
    rewrite !length_app, !heap_after_copy. simpl.
    split; [done|]. split; [lia|]. split; [lia|].
    by rewrite (list_lookup_total_correct _ _ _ Hkept),
               (list_lookup_total_correct _ _ _ Harr).
  - apply predict_keeps_self.
  - apply confidence_keeps_self.
  - intros actual. apply threshold_measure_keeps_self.
  - intros predictions save_path title.
    by apply (label_histogram_respects keeps_self).
Qed.

End AliasingClaims.


Lemma predict_idempotent_witness :
  fst (predict scrubbing_measure (VArray 2)
         (snd (predict scrubbing_measure (VArray 2) scenario_state)))
  = fst (predict scrubbing_measure (VArray 2) scenario_state).
Proof.
  refine (proj1 (predict_idempotent scrubbing_measure (VArray 2)
                   scenario_state _)).
  vm_compute. lia.
Defined.


(** What the copies are for: [threshold_measure], which makes none, lets a
    measure that writes reach the caller's array; [predict] does not. *)
Lemma threshold_measure_writes_through :
  heap (snd (threshold_measure scrubbing_measure (VArray 0) 1 scenario_state))
    !! 0
  = Some (mk_ndarray 3
            [[0; 0; 0]; [0; 0; 0]; [0; 0; 0]; [0; 0; 0]; [0; 0; 0]; [0; 0; 0]]%Q)
  /\
  heap (snd (predict scrubbing_measure (VArray 0) scenario_state)) !! 0
  = Some calibration_output.
Proof. split; vm_compute; reflexivity. Qed.

(** ** What a successful constructor call leaves in the instance *)

Section Constructed.

Variable measure : list Q -> nat -> Q * list (nat * Q).
Variable percentile_of_empty : result npfloat.

Lemma bind_ok {A B} (m : M A) (f : A -> M B) (st : state) (y : B) :
  fst (bind m f st) = Ok y ->
  exists x, fst (m st) = Ok x /\ fst (f x (snd (m st))) = Ok y.
Proof.
  unfold bind. destruct (m st) as [[x|e] st']; simpl; [eauto|done].
Qed.

Lemma fold_loop_ensures {A S} (I : S -> Prop) (f : S -> A -> M S)
    (l : list A) :
  (forall s x st s', I s -> fst (f s x st) = Ok s' -> I s') ->
  forall s st s', I s -> fst (fold_loop f l s st) = Ok s' -> I s'.
Proof.
  intros Hf. induction l as [|x l IH]; intros s st s' Hs Hrun; simpl in Hrun.
  - by injection Hrun as <-.
  - apply bind_ok in Hrun as (s1 & H1 & Hrest). eauto.
Qed.

Lemma for_each_ensures {A B} (P : A -> B -> Prop) (f : A -> M B) (l : list A) :
  (forall x st y, fst (f x st) = Ok y -> P x y) ->
  forall st ys, fst (for_each f l st) = Ok ys -> Forall2 P l ys.
Proof.
  intros Hf. induction l as [|x l IH]; intros st ys Hrun; simpl in Hrun.
  - injection Hrun as <-. constructor.
  - apply bind_ok in Hrun as (y & Hy & Hrest).
    apply bind_ok in Hrest as (ys' & Hys & Hret).
    injection Hret as <-. constructor; eauto.
Qed.

Lemma dict_keys_set {V} (d : pydict V) (k : nat) (v : V) :
  dict_keys (dict_set d k v) = dict_keys d.
Proof.
  unfold dict_keys. induction d as [|[k' v'] d IH]; simpl; [done|].
  destruct (k' =? k); simpl; [done|]. by rewrite IH.
Qed.

(** The grouping loop never adds a key: the dictionary it returns has the
    keys [0 .. shape[1] - 1]. *)
Lemma collect_scores_keys (c act : nat) (st : state) (d : pydict (list Q)) :
  fst (collect_scores measure c act st) = Ok d ->
  dict_keys d = seq 0 (shape1 (heap st !!! c)).
Proof.
  unfold collect_scores. intros Hrun.
  apply bind_ok in Hrun as (l & Hl & Hrun). injection Hl as <-.
  apply bind_ok in Hrun as (n & _ & Hrun). simpl in Hrun.
  refine (fold_loop_ensures
            (fun d => dict_keys d = seq 0 (shape1 (heap st !!! c)))
            _ _ _ _ _ _ _ Hrun).
  - intros s i st' s' Hs Hbody.
    apply bind_ok in Hbody as (r & _ & Hbody).
    apply bind_ok in Hbody as (t & _ & Hbody).
    destruct (dict_get s t) as [scores|]; [|done].
    apply bind_ok in Hbody as (r' & _ & Hbody).
    apply bind_ok in Hbody as (t' & _ & Hbody).
    apply bind_ok in Hbody as (score & _ & Hbody).
    injection Hbody as <-. by rewrite dict_keys_set.
  - unfold empty_lists. apply dict_keys_map.
Qed.

Lemma lookup_list_to_map_keys {V} (keys : list nat) (entries : list (nat * V))
    (k : nat) :
  Forall2 (fun label entry => fst entry = label) keys entries ->
  k ∈ keys -> is_Some ((list_to_map entries : gmap nat V) !! k).
Proof.
  induction 1 as [|label [k' v] keys entries Hk _ IH]; intros Hin.
  - by apply elem_of_nil in Hin.
  - simpl in *. subst k'. destruct (decide (label = k)) as [->|Hne].
    + rewrite lookup_insert_eq. eauto.
    + rewrite lookup_insert_ne by done. apply IH.
      apply elem_of_cons in Hin as [?|?]; [congruence|done].
Qed.

(** A threshold computation that returns leaves a threshold for every
    label. *)
Lemma non_conformity_thresholds_keys (c act : nat) (mode : Z) (st : state)
    (t : attr) :
  self st !! "selected_threshold_mode" = Some (AInt mode) ->
  mode = 0%Z \/ mode = 1%Z ->
  fst (__non_conformity_thresholds measure percentile_of_empty c act st) = Ok t ->
  exists thr, t = ADict thr /\
              forall l, l < shape1 (heap st !!! c) -> is_Some (thr !! l).
Proof.
  intros Hmode Hcases Hrun. unfold __non_conformity_thresholds in Hrun.
  apply bind_ok in Hrun as (d & Hd & Hrun).
  pose proof (collect_scores_keys c act st d Hd) as Hkeys.
  pose proof (respects_collect_scores measure keeps_self c
                (call_measure_keeps_self measure c) act st) as Hself.
  unfold keeps_self in Hself.
  apply bind_ok in Hrun as (m & Hm & Hrun).
  unfold getattr in Hm, Hrun. rewrite Hself, Hmode in Hm, Hrun.
  injection Hm as <-. simpl in Hrun. rewrite Hkeys in Hrun.
  destruct Hcases as [-> | ->].
  - apply bind_ok in Hrun as (ts & Hts & Hret). injection Hret as <-.
    eexists. split; [done|]. intros l Hl.
    apply (lookup_list_to_map_keys (seq 0 (shape1 (heap st !!! c)))).
    + revert Hts. apply for_each_ensures.
      intros label st' y Hbody.
      apply bind_ok in Hbody as (eps & _ & Hbody).
      destruct eps; try done.
      apply bind_ok in Hbody as (p & _ & Hbody). by injection Hbody as <-.
    + apply elem_of_seq. lia.
  - apply bind_ok in Hrun as (pooled & _ & Hrun).
    apply bind_ok in Hrun as (eps & _ & Hrun).
    destruct eps; try done.
    apply bind_ok in Hrun as (p & _ & Hret). injection Hret as <-.
    eexists. split; [done|]. intros l Hl.
    rewrite (lookup_list_to_map_graph (fun _ => p)).
    rewrite bool_decide_true; [eauto|]. apply elem_of_seq. lia.
Qed.

(** X18.  Whatever the measure, a constructor call that returns was given an
    array, and leaves an instance with the measure, the number of labels (the
    number of columns of the array), and a threshold for each label. *)
Theorem init_constructs (v : value) (act : nat) (epsilon : Q)
    (threshold_mode : value) (st : state) :
  fst (__init__ measure percentile_of_empty v act epsilon threshold_mode st)
  = Ok tt ->
  exists a thr,
    v = VArray a /\
    self (snd (__init__ measure percentile_of_empty v act epsilon
                 threshold_mode st)) !! "measure" = Some AMeasure /\
    self (snd (__init__ measure percentile_of_empty v act epsilon
                 threshold_mode st)) !! "labels"
    = Some (AInt (Z.of_nat (shape1 (heap st !!! a)))) /\
    self (snd (__init__ measure percentile_of_empty v act epsilon
                 threshold_mode st)) !! "thresholds" = Some (ADict thr) /\
    forall l, l < shape1 (heap st !!! a) -> is_Some (thr !! l).
Proof.
  unfold __init__.
  destruct (negb _); [done|].
  destruct (_ || _); [done|].
  destruct (negb _); [done|].
  destruct v as [| | | | | |a]; try done.
  destruct threshold_mode as [mode| | | | | |]; try done.
  destruct (negb _) eqn:Hmode; [done|].
  assert (Hcases : mode = 0%Z \/ mode = 1%Z).
  { apply negb_false_iff, orb_true_iff in Hmode. lia. }
  change (fst (bind (__non_conformity_thresholds measure percentile_of_empty
                       (length (heap st)) act)
                    (setattr "thresholds") (init_state mode epsilon a st))
          = Ok tt ->
          exists a0 thr,
            VArray a = VArray a0 /\
            self (snd (bind (__non_conformity_thresholds measure
                               percentile_of_empty (length (heap st)) act)
                            (setattr "thresholds")
                            (init_state mode epsilon a st))) !! "measure"
            = Some AMeasure /\
            self (snd (bind (__non_conformity_thresholds measure
                               percentile_of_empty (length (heap st)) act)
                            (setattr "thresholds")
                            (init_state mode epsilon a st))) !! "labels"
            = Some (AInt (Z.of_nat (shape1 (heap st !!! a0)))) /\
            self (snd (bind (__non_conformity_thresholds measure
                               percentile_of_empty (length (heap st)) act)
                            (setattr "thresholds")
                            (init_state mode epsilon a st))) !! "thresholds"
            = Some (ADict thr) /\
            forall l, l < shape1 (heap st !!! a0) -> is_Some (thr !! l)).
  intros Hrun. apply bind_ok in Hrun as (t & Ht & _).
  pose proof (respects_non_conformity_thresholds measure percentile_of_empty
                keeps_self (length (heap st))
                (call_measure_keeps_self measure (length (heap st))) act
                (init_state mode epsilon a st)) as Hself.
  unfold keeps_self in Hself.
  destruct (non_conformity_thresholds_keys _ act mode _ t
              (init_state_mode a epsilon mode st) Hcases Ht)
    as (thr & -> & Hkeys).
  unfold init_state in Hkeys at 1. simpl in Hkeys.
  rewrite heap_after_copy in Hkeys.
  exists a, thr. split; [done|].
  unfold bind. destruct (__non_conformity_thresholds _ _ _ _ _) as [[t'|e] st'];
    simpl in *; [|done].
  injection Ht as ->. rewrite Hself.
  unfold init_state, init_attrs. simpl.
  repeat split; [by simplify_map_eq|by simplify_map_eq|by simplify_map_eq|done].
Qed.

End Constructed.

(** * Further properties of the operations *)

(** ** [evaluate]: range and errors *)

Section EvaluateEdges.

Lemma true_label_raises (row : list Q) (e : exn) :
  true_label row = Raise e -> e = IndexError.
Proof.
  unfold true_label. destruct (np_where _); [|done]. by intros [= <-].
Qed.

Lemma evaluate_loop_bounds (actual_labels : list (list Q)) :
  forall predicted_labels i count c,
    evaluate_loop predicted_labels actual_labels i count = Ok c ->
    (predicted_labels <> [] ->
     length predicted_labels + i <= length actual_labels) /\
    count <= c <= count + length predicted_labels.
Proof.
  induction predicted_labels as [|labels rest IH]; intros i count c Hrun;
    simpl in Hrun.
  - injection Hrun as <-. simpl. split; [done|lia].
  - destruct (actual_labels !! i) as [row|] eqn:Hrow; [|done].
    destruct (true_label row) as [t|e]; [|done].
    apply IH in Hrun as [Hlen Hc]. apply lookup_lt_Some in Hrow.
    split.
    + intros _. simpl. destruct rest as [|labels' rest]; [simpl; lia|].
      specialize (Hlen ltac:(done)). simpl in *. lia.
    + simpl. destruct (bool_decide (t ∈ labels)); lia.
Qed.

Lemma evaluate_loop_raises (actual_labels : list (list Q)) :
  forall predicted_labels i count e,
    evaluate_loop predicted_labels actual_labels i count = Raise e ->
    e = IndexError.
Proof.
  induction predicted_labels as [|labels rest IH]; intros i count e Hrun;
    simpl in Hrun; [done|].
  destruct (actual_labels !! i) as [row|]; [|by injection Hrun as <-].
  destruct (true_label row) as [t|e'] eqn:Ht; [by eapply IH|].
  injection Hrun as <-. by eapply true_label_raises.
Qed.

Lemma evaluate_loop_overrun (actual_labels : list (list Q)) :
  forall predicted_labels i count,
    predicted_labels <> [] ->
    length actual_labels < length predicted_labels + i ->
    evaluate_loop predicted_labels actual_labels i count = Raise IndexError.
Proof.
  intros predicted_labels i count Hne Hlen.
  destruct (evaluate_loop _ _ _ _) as [c|e] eqn:Hrun.
  - apply evaluate_loop_bounds in Hrun as [Hb _]. specialize (Hb Hne). lia.
  - f_equal. by eapply evaluate_loop_raises.
Qed.

(** X1.  Whenever [evaluate] returns, what it returns lies between 0 and 1,
    and there were at least as many rows as prediction sets. *)
Theorem evaluate_in_unit_interval (predicted_labels : list (list nat))
    (actual_labels : list (list Q)) (accuracy : Q) :
  evaluate predicted_labels actual_labels = Ok accuracy ->
  (0 <= accuracy)%Q /\ (accuracy <= 1)%Q /\
  length predicted_labels <= length actual_labels.
Proof.
  unfold evaluate. intros Hrun.
  destruct (evaluate_loop _ _ 0 0) as [count|e] eqn:Hloop; [|done].
  apply evaluate_loop_bounds in Hloop as [Hlen Hcount].
  destruct (Nat.eqb_spec (length actual_labels) 0) as [|Hn]; [done|].
  injection Hrun as <-.
  assert (Hlen' : length predicted_labels <= length actual_labels).
  { destruct predicted_labels; [simpl; lia|].
    specialize (Hlen ltac:(done)). lia. }
  assert (Hpos : (0 < of_nat (length actual_labels))%Q) by (apply of_nat_pos; lia).
  assert (H0 : (0 <= of_nat count)%Q).
  { unfold of_nat. change 0%Q with (inject_Z 0). rewrite <- Zle_Qle. lia. }
  assert (Hle : (of_nat count <= of_nat (length actual_labels))%Q).
  { unfold of_nat. rewrite <- Zle_Qle. lia. }
  split; [|split; [|lia]].
  - apply Qle_shift_div_l; [done|]. lra.
  - apply Qle_shift_div_r; [done|]. lra.
Qed.

Lemma evaluate_in_unit_interval_witness :
  (0 <= of_nat 1 / of_nat 2)%Q /\ (of_nat 1 / of_nat 2 <= 1)%Q /\ 2 <= 2.
Proof.
  apply (evaluate_in_unit_interval [[0]; [1]] [[1; 0]; [1; 0]]%Q).
  reflexivity.
Defined.

(** X2.  The only errors [evaluate] raises are [IndexError] and
    [ZeroDivisionError]; it divides by zero exactly when both arguments are
    empty; with more prediction sets than rows it always ends in
    [IndexError]. *)
Theorem evaluate_errors (predicted_labels : list (list nat))
    (actual_labels : list (list Q)) :
  (forall e, evaluate predicted_labels actual_labels = Raise e ->
             e = IndexError \/ e = ZeroDivisionError) /\
  (evaluate predicted_labels actual_labels = Raise ZeroDivisionError <->
   predicted_labels = [] /\ actual_labels = []) /\
  (length actual_labels < length predicted_labels ->
   evaluate predicted_labels actual_labels = Raise IndexError).
Proof.
  unfold evaluate. split; [|split].
  - intros e Hrun.
    destruct (evaluate_loop _ _ 0 0) as [count|e'] eqn:Hloop.
    + destruct (length actual_labels =? 0); [|done]. right. congruence.
    + left. injection Hrun as <-. by eapply evaluate_loop_raises.
  - split.
    + intros Hrun.
      destruct (evaluate_loop _ _ 0 0) as [count|e'] eqn:Hloop.
      * apply evaluate_loop_bounds in Hloop as [Hlen _].
        destruct (Nat.eqb_spec (length actual_labels) 0) as [Hn|]; [|done].
        destruct predicted_labels as [|labels rest].
        -- split; [done|]. by apply length_zero_iff_nil.
        -- specialize (Hlen ltac:(done)). simpl in Hlen. lia.
      * apply evaluate_loop_raises in Hloop. congruence.
    + by intros [-> ->].
  - intros Hlen. rewrite evaluate_loop_overrun; [done| |lia].
    intros ->. simpl in Hlen. lia.
Qed.

Lemma evaluate_errors_witness :
  evaluate [[0]; [1]] [[1; 0]]%Q = Raise IndexError.
Proof.
  apply (evaluate_errors [[0]; [1]] [[1; 0]]%Q). simpl. lia.
Defined.

End EvaluateEdges.

(** ** [predict] and [confidence]: rows of any width, with a pure measure *)

Section PredictWidths.

Variable measure : list Q -> nat -> Q * list (nat * Q).
Hypothesis measure_pure : pure_measure measure.

Lemma filter_where_raise {A} (c : A -> M bool) (p : A -> bool) (e : exn)
    (st : state) (l1 l2 : list A) (x : A) :
  (forall y, y ∈ l1 -> c y st = (Ok (p y), st)) ->
  c x st = (Raise e, st) ->
  filter_where c (l1 ++ x :: l2) st = (Raise e, st).
Proof.
  intros Hl1 Hx. induction l1 as [|y l1 IH]; simpl.
  - unfold bind. by rewrite Hx.
  - unfold bind at 1. rewrite Hl1 by left.
    unfold bind at 1. rewrite IH; [done|]. intros z Hz. apply Hl1. by right.
Qed.

Lemma get_threshold_missing (thr : gmap nat npfloat) (i : nat) (st : state) :
  self st !! "thresholds" = Some (ADict thr) -> thr !! i = None ->
  get_threshold i st = (Raise KeyError, st).
Proof.
  intros Hthr Hi. unfold get_threshold, bind, getattr. by rewrite Hthr, Hi.
Qed.

(** One row of [predict], when every label the row reaches has a
    threshold. *)
Lemma predict_row_pure (thr : gmap nat npfloat) (c k : nat) (st : state) :
  self st !! "measure" = Some AMeasure ->
  self st !! "thresholds" = Some (ADict thr) ->
  (forall l, l < length (rows (heap st !!! c) !!! k) -> is_Some (thr !! l)) ->
  filter_where
    (fun i =>
       bind (call_measure measure c k i)
         (fun score => bind (get_threshold i)
                         (fun t => ret (le_npfloat score t))))
    (seq 0 (length (rows (heap st !!! c) !!! k))) st
  = (Ok (List.filter
           (fun l => match thr !! l with
                     | Some t =>
                         le_npfloat
                           (fst (measure (rows (heap st !!! c) !!! k) l)) t
                     | None => false
                     end)
           (seq 0 (length (rows (heap st !!! c) !!! k)))), st).
Proof.
  intros Hm Hthr Hdom. apply filter_where_pure. intros l Hl%elem_of_seq.
  unfold bind at 1. rewrite call_measure_pure by done.
  destruct (Hdom l) as [t Ht]; [lia|].
  unfold bind at 1. rewrite (get_threshold_run thr l t) by done.
  by rewrite Ht.
Qed.

(** One row of [predict] that is wider than the threshold map: the first
    label without a threshold ends the call. *)
Lemma predict_row_too_wide (thr : gmap nat npfloat) (n_labels c k : nat)
    (st : state) :
  self st !! "measure" = Some AMeasure ->
  self st !! "thresholds" = Some (ADict thr) ->
  (forall l, l < n_labels -> is_Some (thr !! l)) ->
  thr !! n_labels = None ->
  n_labels < length (rows (heap st !!! c) !!! k) ->
  filter_where
    (fun i =>
       bind (call_measure measure c k i)
         (fun score => bind (get_threshold i)
                         (fun t => ret (le_npfloat score t))))
    (seq 0 (length (rows (heap st !!! c) !!! k))) st
  = (Raise KeyError, st).
Proof.
  intros Hm Hthr Hdom Hnone Hwide.
  replace (length (rows (heap st !!! c) !!! k))
    with (n_labels + S (length (rows (heap st !!! c) !!! k) - S n_labels))
    by lia.
  rewrite seq_app. simpl.
  apply (filter_where_raise _
           (fun l => match thr !! l with
                     | Some t =>
                         le_npfloat
                           (fst (measure (rows (heap st !!! c) !!! k) l)) t
                     | None => false
                     end)).
  - intros l Hl%elem_of_seq.
    unfold bind at 1. rewrite call_measure_pure by done.
    destruct (Hdom l) as [t Ht]; [lia|].
    unfold bind at 1. rewrite (get_threshold_run thr l t) by done.
    by rewrite Ht.
  - unfold bind at 1. rewrite call_measure_pure by done.
    unfold bind at 1. by rewrite (get_threshold_missing thr).
Qed.

End PredictWidths.

Section PredictEdges.

Variable measure : list Q -> nat -> Q * list (nat * Q).
Hypothesis measure_pure : pure_measure measure.

Variables (thr : gmap nat npfloat) (n_labels a : nat) (batch : ndarray)
  (st : state).
Hypothesis Hmeasure : self st !! "measure" = Some AMeasure.
Hypothesis Hthr : self st !! "thresholds" = Some (ADict thr).
Hypothesis Hdom : forall l, l < n_labels -> is_Some (thr !! l).
Hypothesis Hbatch : heap st !! a = Some batch.

(** The whole run on rows no wider than the threshold map. *)
Lemma predict_narrow_run :
  Forall (fun row => length row <= n_labels) (rows batch) ->
  predict measure (VArray a) st
  = (Ok (map (fun row =>
                List.filter (label_included measure thr row)
                            (seq 0 (length row)))
             (rows batch)),
     set_heap (heap st ++ [batch]) st).
Proof.
  intros Hrows. pose proof (list_lookup_total_correct _ _ _ Hbatch) as Ha.
  unfold predict. simpl. unfold bind at 1, np_copy at 1. rewrite Ha.
  set (st1 := set_heap (heap st ++ [batch]) st).
  assert (Hc : heap st1 !!! length (heap st) = batch) by apply heap_after_copy.
  unfold bind at 1, np_len at 1. rewrite Hc.
  rewrite <- map_lookup_total_seq.
  apply for_each_pure. intros k Hk%elem_of_seq.
  unfold bind at 1, row_len at 1.
  pose proof (predict_row_pure measure measure_pure thr (length (heap st)) k st1
                Hmeasure Hthr) as Hrow.
  rewrite Hc in *. apply Hrow. intros l Hl. apply Hdom.
  assert (Hlen : length (rows batch !!! k) <= n_labels); [|lia].
  apply (Forall_lookup_1 _ _ k _ Hrows).
  apply list_lookup_lookup_total_lt. lia.
Qed.

(** The run on a batch with a row wider than the threshold map. *)
Lemma predict_wide_run :
  thr !! n_labels = None ->
  Exists (fun row => n_labels < length row) (rows batch) ->
  fst (predict measure (VArray a) st) = Raise KeyError.
Proof.
  intros Hnone Hwide. pose proof (list_lookup_total_correct _ _ _ Hbatch) as Ha.
  unfold predict. simpl. unfold bind at 1, np_copy at 1. rewrite Ha.
  set (st1 := set_heap (heap st ++ [batch]) st).
  assert (Hc : heap st1 !!! length (heap st) = batch) by apply heap_after_copy.
  unfold bind at 1, np_len at 1. rewrite Hc.
  set (g := fun k : nat =>
              if decide (length (rows batch !!! k) <= n_labels)
              then Ok (List.filter
                         (label_included measure thr (rows batch !!! k))
                         (seq 0 (length (rows batch !!! k))))
              else Raise KeyError).
  rewrite (for_each_result _ g).
  - simpl. apply map_result_raise.
    + apply Exists_exists in Hwide as (row & Hin & Hlen).
      apply list_elem_of_lookup in Hin as [k Hk].
      exists k. split.
      * apply elem_of_seq. apply lookup_lt_Some in Hk. lia.
      * unfold g. rewrite (list_lookup_total_correct _ _ _ Hk).
        destruct (decide _); [lia|done].
    + intros k e _. unfold g. destruct (decide _); [done|congruence].
  - intros k Hk%elem_of_seq. unfold g.
    unfold bind at 1, row_len at 1.
    destruct (decide _) as [Hle|Hgt].
    + pose proof (predict_row_pure measure measure_pure thr (length (heap st))
                    k st1 Hmeasure Hthr) as Hrow.
      rewrite Hc in *. apply Hrow. intros l Hl. apply Hdom. lia.
    + pose proof (predict_row_too_wide measure measure_pure thr n_labels
                    (length (heap st)) k st1 Hmeasure Hthr Hdom Hnone) as Hrow.
      rewrite Hc in *. apply Hrow. lia.
Qed.

End PredictEdges.

Section PredictProperties.

Variable measure : list Q -> nat -> Q * list (nat * Q).

Lemma elem_of_filter_seq (p : nat -> bool) (n l : nat) :
  l ∈ List.filter p (seq 0 n) <-> l < n /\ p l = true.
Proof. rewrite list_elem_of_In, filter_In, in_seq. intuition lia. Qed.

(** X3.  A row with fewer columns than the predictor has labels is accepted
    as it is: its set is drawn from the labels [0 .. len(row) - 1] only, so a
    label from [len(row)] on is never predicted, whatever its threshold. *)
Theorem predict_narrow_rows (thr : gmap nat npfloat) (n_labels a : nat)
    (batch : ndarray) (st : state) :
  pure_measure measure ->
  self st !! "measure" = Some AMeasure ->
  self st !! "thresholds" = Some (ADict thr) ->
  (forall l, l < n_labels -> is_Some (thr !! l)) ->
  heap st !! a = Some batch ->
  Forall (fun row => length row <= n_labels) (rows batch) ->
  exists sets,
    fst (predict measure (VArray a) st) = Ok sets /\
    sets = map (fun row =>
                  List.filter (label_included measure thr row)
                              (seq 0 (length row)))
               (rows batch) /\
    Forall2 (fun row set => forall l, l ∈ set -> l < length row)
            (rows batch) sets.
Proof.
  intros Hpure Hm Hthr Hdom Ha Hrows.
  rewrite (predict_narrow_run measure Hpure thr n_labels a batch st) by done.
  eexists. split; [done|]. split; [done|].
  apply Forall2_map_graph. intros row l Hl%elem_of_filter_seq. tauto.
Qed.

(** X4.  The number of columns is not checked against the number of labels:
    a batch with a row of more columns than there are thresholds makes
    [predict] raise [KeyError]. *)
Theorem predict_wide_row_raises (thr : gmap nat npfloat) (n_labels a : nat)
    (batch : ndarray) (st : state) :
  pure_measure measure ->
  self st !! "measure" = Some AMeasure ->
  self st !! "thresholds" = Some (ADict thr) ->
  (forall l, l < n_labels -> is_Some (thr !! l)) ->
  thr !! n_labels = None ->
  heap st !! a = Some batch ->
  Exists (fun row => n_labels < length row) (rows batch) ->
  fst (predict measure (VArray a) st) = Raise KeyError.
Proof.
  intros Hpure Hm Hthr Hdom Hnone Ha Hwide.
  by apply (predict_wide_run measure Hpure thr n_labels a batch st).
Qed.

(** X5.  A label whose stored threshold is [nan] is in no prediction set. *)
Theorem predict_nan_threshold_excludes (thr : gmap nat npfloat)
    (n_labels a : nat) (batch : ndarray) (st : state) (label : nat) :
  pure_measure measure ->
  self st !! "measure" = Some AMeasure ->
  self st !! "thresholds" = Some (ADict thr) ->
  (forall l, l < n_labels -> is_Some (thr !! l)) ->
  heap st !! a = Some batch ->
  Forall (fun row => length row <= n_labels) (rows batch) ->
  thr !! label = Some NaN ->
  exists sets,
    fst (predict measure (VArray a) st) = Ok sets /\
    length sets = length (rows batch) /\
    Forall (fun set => label ∉ set) sets.
Proof.
  intros Hpure Hm Hthr Hdom Ha Hrows Hnan.
  rewrite (predict_narrow_run measure Hpure thr n_labels a batch st) by done.
  eexists. split; [done|]. split; [by rewrite length_map|].
  apply Forall_forall. intros set Hset%list_elem_of_In%in_map_iff.
  destruct Hset as (row & <- & _). intros [_ Hin]%elem_of_filter_seq.
  unfold label_included in Hin. by rewrite Hnan in Hin.
Qed.

(** X6.  Raising thresholds never shrinks a prediction set: when every
    threshold of one predictor is at most the corresponding threshold of
    another, each set of the first is contained in the set of the second for
    the same row. *)
Theorem predict_monotone (thr thr' : gmap nat npfloat) (n_labels a a' : nat)
    (batch : ndarray) (st st' : state) :
  pure_measure measure ->
  self st !! "measure" = Some AMeasure ->
  self st' !! "measure" = Some AMeasure ->
  self st !! "thresholds" = Some (ADict thr) ->
  self st' !! "thresholds" = Some (ADict thr') ->
  (forall l, l < n_labels ->
     exists t t', thr !! l = Some t /\ thr' !! l = Some t' /\ threshold_le t t') ->
  heap st !! a = Some batch ->
  heap st' !! a' = Some batch ->
  Forall (fun row => length row <= n_labels) (rows batch) ->
  exists sets sets',
    fst (predict measure (VArray a) st) = Ok sets /\
    fst (predict measure (VArray a') st') = Ok sets' /\
    Forall2 (fun set set' => set ⊆ set') sets sets'.
Proof.
  intros Hpure Hm Hm' Hthr Hthr' Hle Ha Ha' Hrows.
  rewrite (predict_narrow_run measure Hpure thr n_labels a batch st); try done.
  2:{ intros l Hl. destruct (Hle l Hl) as (t & _ & -> & _). eauto. }
  rewrite (predict_narrow_run measure Hpure thr' n_labels a' batch st');
    try done.
  2:{ intros l Hl. destruct (Hle l Hl) as (_ & t' & _ & -> & _). eauto. }
  eexists _, _. split; [done|]. split; [done|]. simpl.
  apply Forall2_fmap, Forall_Forall2_diag.
  eapply Forall_impl; [exact Hrows|]. intros row Hrow l.
  rewrite !elem_of_filter_seq. intros [Hl Hin]. split; [done|].
  destruct (Hle l) as (t & t' & Ht & Ht' & Htt'); [simpl in Hrow; lia|].
  unfold label_included in *. rewrite Ht in Hin. rewrite Ht'.
  destruct t as [q|], t' as [q'|]; simpl in *; try done.
  apply Qle_bool_iff in Hin. apply Qle_bool_iff. lra.
Qed.

End PredictProperties.

Lemma predict_narrow_rows_witness :
  fst (predict entry_measure (VArray 4)
         (mk_state (scenario_heap ++ [mk_ndarray 2 [[1; 9]]%Q])
                   (self scenario_state) []))
  = Ok [[0]].
Proof.
  destruct (predict_narrow_rows entry_measure scenario_thresholds 3 4
              (mk_ndarray 2 [[1; 9]]%Q)
              (mk_state (scenario_heap ++ [mk_ndarray 2 [[1; 9]]%Q])
                        (self scenario_state) []))
    as (sets & Hsets & Heq & _).
  - intros row label. reflexivity.
  - reflexivity.
  - vm_compute. reflexivity.
  - intros [|[|[|l]]] Hl; vm_compute; eauto. lia.
  - reflexivity.
  - repeat constructor.
  - rewrite Hsets, Heq. vm_compute. reflexivity.
Defined.

Lemma predict_wide_row_raises_witness :
  fst (predict entry_measure (VArray 4)
         (mk_state (scenario_heap ++ [mk_ndarray 4 [[1; 9; 9; 9]]%Q])
                   (self scenario_state) []))
  = Raise KeyError.
Proof.
  apply (predict_wide_row_raises entry_measure scenario_thresholds 3 4
           (mk_ndarray 4 [[1; 9; 9; 9]]%Q)).
  - intros row label. reflexivity.
  - reflexivity.
  - vm_compute. reflexivity.
  - intros [|[|[|l]]] Hl; vm_compute; eauto. lia.
  - vm_compute. reflexivity.
  - reflexivity.
  - constructor. simpl. lia.
Defined.

Lemma predict_nan_threshold_excludes_witness :
  exists sets,
    fst (predict entry_measure (VArray 2) partial_state) = Ok sets /\
    length sets = 1 /\
    Forall (fun set => 2 ∉ set) sets.
Proof.
  apply (predict_nan_threshold_excludes entry_measure partial_thresholds 3 2
           new_output partial_state 2).
  - intros row label. reflexivity.
  - reflexivity.
  - vm_compute. reflexivity.
  - intros [|[|[|l]]] Hl; vm_compute; eauto. lia.
  - reflexivity.
  - repeat constructor.
  - vm_compute. reflexivity.
Defined.

Lemma predict_monotone_witness :
  exists sets sets',
    fst (predict entry_measure (VArray 2) scenario_state) = Ok sets /\
    fst (predict entry_measure (VArray 2) generous_state) = Ok sets' /\
    Forall2 (fun set set' => set ⊆ set') sets sets'.
Proof.
  apply (predict_monotone entry_measure scenario_thresholds generous_thresholds
           3 2 2 new_output scenario_state generous_state).
  - intros row label. reflexivity.
  - reflexivity.
  - reflexivity.
  - vm_compute. reflexivity.
  - vm_compute. reflexivity.
  - intros [|[|[|l]]] Hl; [| | |simpl in Hl; lia];
      eexists _, _;
      (split; [vm_compute; reflexivity|split; [vm_compute; reflexivity|]]);
      simpl; unfold Qle; simpl; lia.
  - reflexivity.
  - reflexivity.
  - repeat constructor.
Defined.

(** ** [confidence] *)

Section ConfidenceProperties.

Variable measure : list Q -> nat -> Q * list (nat * Q).

(** The whole run of [confidence] with a pure measure. *)
Lemma confidence_pure_run (a : nat) (batch : ndarray) (st : state) :
  pure_measure measure ->
  self st !! "measure" = Some AMeasure ->
  heap st !! a = Some batch ->
  confidence measure (VArray a) st
  = (Ok (map (fun row => map (fun l => fst (measure row l))
                             (seq 0 (length row)))
             (rows batch)),
     set_heap (heap st ++ [batch]) st).
Proof.
  intros Hpure Hm Hbatch.
  pose proof (list_lookup_total_correct _ _ _ Hbatch) as Ha.
  unfold confidence. simpl. unfold bind at 1, np_copy at 1. rewrite Ha.
  set (st1 := set_heap (heap st ++ [batch]) st).
  assert (Hc : heap st1 !!! length (heap st) = batch) by apply heap_after_copy.
  unfold bind at 1, np_len at 1. rewrite Hc.
  rewrite <- map_lookup_total_seq.
  apply for_each_pure. intros k Hk%elem_of_seq.
  unfold bind at 1, row_len at 1. rewrite Hc.
  apply for_each_pure. intros l Hl.
  rewrite call_measure_pure by done. by rewrite Hc.
Qed.

(** X7.  With a pure measure, [confidence] returns, row by row and in label
    order, the score of each of the row's [len(row)] labels; it needs no
    threshold, and works on a copy: one array more on the heap, the caller's
    left alone. *)
Theorem confidence_scores (a : nat) (batch : ndarray) (st : state) :
  pure_measure measure ->
  self st !! "measure" = Some AMeasure ->
  heap st !! a = Some batch ->
  fst (confidence measure (VArray a) st)
  = Ok (map (fun row => map (fun l => fst (measure row l))
                            (seq 0 (length row)))
            (rows batch)) /\
  heap (snd (confidence measure (VArray a) st)) = heap st ++ [batch].
Proof.
  intros Hpure Hm Hbatch.
  by rewrite (confidence_pure_run a batch st).
Qed.

(** X8.  [predict] is [confidence] cut at the thresholds: on the same batch,
    label [l] is in a row's prediction set exactly when the row's confidence
    entry [l] is at most the threshold of [l]. *)
Theorem predict_thresholds_confidence (thr : gmap nat npfloat)
    (n_labels a : nat) (batch : ndarray) (st : state) :
  pure_measure measure ->
  self st !! "measure" = Some AMeasure ->
  self st !! "thresholds" = Some (ADict thr) ->
  (forall l, l < n_labels -> is_Some (thr !! l)) ->
  heap st !! a = Some batch ->
  Forall (fun row => length row <= n_labels) (rows batch) ->
  exists sets scores,
    fst (predict measure (VArray a) st) = Ok sets /\
    fst (confidence measure (VArray a) st) = Ok scores /\
    Forall2
      (fun set row_scores =>
         forall l, l ∈ set <->
                   exists s t, row_scores !! l = Some s /\ thr !! l = Some t /\
                               le_npfloat s t = true)
      sets scores.
Proof.
  intros Hpure Hm Hthr Hdom Ha Hrows.
  rewrite (predict_narrow_run measure Hpure thr n_labels a batch st) by done.
  rewrite (confidence_pure_run a batch st) by done.
  eexists _, _. split; [done|]. split; [done|]. simpl.
  apply Forall2_fmap, Forall_Forall2_diag, Forall_forall.
  intros row _ l. rewrite elem_of_filter_seq. unfold label_included.
  split.
  - intros [Hl Hin]. destruct (thr !! l) as [t|]; [|done].
    exists (fst (measure row l)), t. split; [|done].
    rewrite list_lookup_fmap, lookup_seq_lt by done. done.
  - intros (s & t & Hs & Ht & Hle).
    rewrite list_lookup_fmap in Hs.
    destruct (seq 0 (length row) !! l) as [l'|] eqn:Hl; [|done].
    apply lookup_seq in Hl as [-> Hl]. simpl in Hs. injection Hs as <-.
    rewrite Ht. done.
Qed.

End ConfidenceProperties.

Lemma confidence_scores_witness :
  fst (confidence entry_measure (VArray 2) scenario_state)
  = Ok [[1; 7 # 2; 6]]%Q.
Proof.
  refine (proj1 (confidence_scores entry_measure 2 new_output scenario_state
                   _ _ _)).
  - intros row label. reflexivity.
  - reflexivity.
  - reflexivity.
Defined.

Lemma predict_thresholds_confidence_witness :
  exists sets scores,
    fst (predict entry_measure (VArray 2) scenario_state) = Ok sets /\
    fst (confidence entry_measure (VArray 2) scenario_state) = Ok scores /\
    Forall2
      (fun set row_scores =>
         forall l, l ∈ set <->
                   exists s t, row_scores !! l = Some s /\
                               scenario_thresholds !! l = Some t /\
                               le_npfloat s t = true)
      sets scores.
Proof.
  apply (predict_thresholds_confidence entry_measure scenario_thresholds 3 2
           new_output scenario_state).
  - intros row label. reflexivity.
  - reflexivity.
  - vm_compute. reflexivity.
  - intros [|[|[|l]]] Hl; vm_compute; eauto. lia.
  - reflexivity.
  - repeat constructor.
Defined.

(** ** [threshold_measure] and the grouping loop *)

Section Grouping.

Variable measure : list Q -> nat -> Q * list (nat * Q).
Hypothesis measure_pure : pure_measure measure.

Lemma length_concat_app_pointwise {A} (F G : nat -> list A) (ls : list nat) :
  length (concat (map (fun l => F l ++ G l) ls))
  = length (concat (map F ls)) + length (concat (map G ls)).
Proof.
  induction ls as [|l ls IH]; simpl; [done|].
  rewrite !length_app, IH. lia.
Qed.

Lemma length_concat_single {A} (f : nat -> A) (t : nat) : forall n a,
  length (concat (map (fun l => if t =? l then [f l] else []) (seq a n)))
  = if bool_decide (a <= t < a + n) then 1 else 0.
Proof.
  induction n as [|n IH]; intros a; simpl.
  - case_bool_decide; [lia|done].
  - rewrite length_app, IH.
    destruct (Nat.eqb_spec t a) as [->|Hne]; simpl;
      repeat case_bool_decide; lia.
Qed.

(** Every row with a true label below [n_labels] lands in exactly one
    list. *)
Lemma pooled_scores_length (n_labels : nat) (actual : list (list Q)) :
  forall outputs,
    length outputs = length actual ->
    Forall (fun row => exists t, true_label row = Ok t /\ t < n_labels) actual ->
    length (pooled_scores measure outputs actual n_labels) = length outputs.
Proof.
  unfold pooled_scores, calibration_scores.
  induction actual as [|r actual IH]; intros [|o outputs] Hlen Hall;
    try done.
  - simpl. induction (seq 0 n_labels); simpl; [done|]. done.
  - apply Forall_cons in Hall as [(t & Ht & Hlt) Hall]. simpl.
    rewrite (length_concat_app_pointwise
               (fun l => if label_is l r then [fst (measure o l)] else [])
               (fun l => flat_map
                           (fun sample =>
                              if label_is l (snd sample)
                              then [fst (measure (fst sample) l)] else [])
                           (zip outputs actual))).
    rewrite IH by (simpl in Hlen; (lia || done)).
    unfold label_is. rewrite Ht.
    rewrite (length_concat_single (fun l => fst (measure o l)) t).
    rewrite bool_decide_true by lia. done.
Qed.

(** The grouping loop up to row [k], when the rows before [k] are in
    order. *)
Lemma collect_scores_prefix (c act : nat) (st : state) (n_labels k : nat)
    (f : pydict (list Q) -> nat -> M (pydict (list Q))) :
  self st !! "measure" = Some AMeasure ->
  (forall measure_d i,
     f measure_d i
     = bind (np_getitem act i)
         (fun actual_i =>
            bind (lift (true_label actual_i))
              (fun t =>
                 match dict_get measure_d t with
                 | None => raise KeyError
                 | Some scores =>
                     bind (np_getitem act i)
                       (fun actual_i' =>
                          bind (lift (true_label actual_i'))
                            (fun t' =>
                               bind (call_measure measure c i t')
                                 (fun score =>
                                    ret (dict_set measure_d t
                                           (scores ++ [score])))))
                 end))) ->
  k <= length (rows (heap st !!! c)) ->
  (forall i, i < k ->
     exists r t, rows (heap st !!! act) !! i = Some r /\
                 true_label r = Ok t /\ t < n_labels) ->
  fold_loop f (seq 0 k) (empty_lists n_labels) st
  = (Ok (map (fun l =>
                (l, calibration_scores measure
                      (take k (rows (heap st !!! c)))
                      (take k (rows (heap st !!! act))) l))
             (seq 0 n_labels)), st).
Proof.
  intros Hm Hf. induction k as [|k IH]; intros Hk Hrows; [done|].
  rewrite seq_S, fold_loop_app. unfold bind at 1.
  rewrite IH by (try lia; intros i Hi; apply Hrows; lia).
  simpl. unfold bind at 1.
  destruct (Hrows k) as (r & t & Hr & Ht & Hlt); [lia|].
  destruct (lookup_lt_is_Some_2 (rows (heap st !!! c)) k) as [o Ho]; [lia|].
  rewrite Hf.
  unfold bind at 1, np_getitem at 1. rewrite Hr.
  unfold bind at 1, lift at 1. rewrite Ht.
  rewrite dict_get_map_seq. case_bool_decide; [|lia].
  unfold bind at 1, np_getitem at 1. rewrite Hr.
  unfold bind at 1, lift at 1. rewrite Ht.
  unfold bind at 1. rewrite call_measure_pure by done.
  unfold ret. do 2 f_equal. rewrite dict_set_map_seq.
  apply map_ext_in. intros l Hl. f_equal.
  rewrite (calibration_scores_take_S _ _ _ k l o r Ho Hr).
  rewrite (list_lookup_total_correct _ _ _ Ho).
  unfold label_is. rewrite Ht.
  destruct (Nat.eqb_spec l t) as [->|Hne].
  - by rewrite Nat.eqb_refl.
  - destruct (Nat.eqb_spec t l); [congruence|]. by rewrite app_nil_r.
Qed.

(** The grouping loop stops at the first row of [actual] that is missing,
    holds no 1, or holds its first 1 at a position that is no label. *)
Lemma collect_scores_stops (c act : nat) (st : state) (k : nat) (e : exn) :
  self st !! "measure" = Some AMeasure ->
  k < length (rows (heap st !!! c)) ->
  (forall i, i < k ->
     exists r t, rows (heap st !!! act) !! i = Some r /\
                 true_label r = Ok t /\ t < shape1 (heap st !!! c)) ->
  (e = IndexError /\
   (rows (heap st !!! act) !! k = None \/
    exists r, rows (heap st !!! act) !! k = Some r /\
              true_label r = Raise IndexError)) \/
  (e = KeyError /\
   exists r t, rows (heap st !!! act) !! k = Some r /\
               true_label r = Ok t /\ shape1 (heap st !!! c) <= t) ->
  collect_scores measure c act st = (Raise e, st).
Proof.
  intros Hm Hk Hrows Hbad. unfold collect_scores.
  unfold bind at 1, np_shape1 at 1. unfold bind at 1, np_len at 1.
  replace (length (rows (heap st !!! c)))
    with (k + S (length (rows (heap st !!! c)) - S k)) by lia.
  rewrite seq_app, fold_loop_app. unfold bind at 1.
  rewrite (collect_scores_prefix c act st (shape1 (heap st !!! c)) k);
    [|done|done|lia|done].
  simpl. unfold bind at 1.
  destruct Hbad as [[-> [Hnone|(r & Hr & Hlabel)]]|[-> (r & t & Hr & Ht & Hge)]].
  - unfold bind at 1, np_getitem at 1. by rewrite Hnone.
  - unfold bind at 1, np_getitem at 1. rewrite Hr.
    unfold bind at 1, lift at 1. by rewrite Hlabel.
  - unfold bind at 1, np_getitem at 1. rewrite Hr.
    unfold bind at 1, lift at 1. rewrite Ht.
    rewrite dict_get_map_seq. case_bool_decide; [lia|done].
Qed.

End Grouping.

Section GroupingProperties.

Variable measure : list Q -> nat -> Q * list (nat * Q).
Variable percentile_of_empty : result npfloat.

(** X9.  With a pure measure, on a valid batch, [threshold_measure] returns
    the dictionary with the keys [0 .. shape[1] - 1] in order, each label
    mapped to the scores [measure(output_i, label)] of the rows whose true
    label it is, in row order, and changes nothing; when [actual] has as
    many rows as [model_output], every row lands in exactly one list. *)
Theorem threshold_measure_groups (a act : nat) (mo ac : ndarray) (st : state) :
  pure_measure measure ->
  self st !! "measure" = Some AMeasure ->
  heap st !! a = Some mo ->
  heap st !! act = Some ac ->
  valid_batch mo ac ->
  threshold_measure measure (VArray a) act st
  = (Ok (map (fun l => (l, calibration_scores measure (rows mo) (rows ac) l))
             (seq 0 (shape1 mo))), st) /\
  (length (rows mo) = length (rows ac) ->
   length (pooled_scores measure (rows mo) (rows ac) (shape1 mo))
   = length (rows mo)).
Proof.
  intros Hpure Hm Ha Hact Hvalid.
  pose proof (list_lookup_total_correct _ _ _ Ha) as Hmo.
  pose proof (list_lookup_total_correct _ _ _ Hact) as Hac.
  split.
  - unfold threshold_measure.
    rewrite (collect_scores_run measure Hpure a act st Hm)
      by (by rewrite Hmo, Hac).
    by rewrite Hmo, Hac.
  - intros Hlen. apply pooled_scores_length; [done|].
    destruct Hvalid as [_ Hall]. rewrite Hlen in Hall.
    by rewrite firstn_all in Hall.
Qed.

(** X10.  The grouping loop stops at the first row it cannot place, and the
    call ends there: [IndexError] when [actual] has no such row or the row
    holds no 1, [KeyError] when the row's first 1 stands at a position that is
    not a column of [model_output].  This is so for [threshold_measure] and,
    once its arguments have passed validation, for the constructor. *)
Theorem calibration_stops_at_bad_row (a act : nat) (mo ac : ndarray)
    (st : state) (k : nat) (e : exn) (epsilon : Q) (mode : Z) :
  pure_measure measure ->
  heap st !! a = Some mo ->
  heap st !! act = Some ac ->
  k < length (rows mo) ->
  (forall i, i < k ->
     exists r t, rows ac !! i = Some r /\ true_label r = Ok t /\ t < shape1 mo) ->
  (e = IndexError /\
   (rows ac !! k = None \/
    exists r, rows ac !! k = Some r /\ true_label r = Raise IndexError)) \/
  (e = KeyError /\
   exists r t, rows ac !! k = Some r /\ true_label r = Ok t /\ shape1 mo <= t) ->
  (self st !! "measure" = Some AMeasure ->
   threshold_measure measure (VArray a) act st = (Raise e, st)) /\
  ((0 <= epsilon)%Q -> (epsilon <= 100)%Q -> mode = 0%Z \/ mode = 1%Z ->
   fst (__init__ measure percentile_of_empty (VArray a) act epsilon (VInt mode) st)
   = Raise e).
Proof.
  intros Hpure Ha Hact Hk Hrows Hbad.
  pose proof (list_lookup_total_correct _ _ _ Ha) as Hmo.
  pose proof (list_lookup_total_correct _ _ _ Hact) as Hac.
  split.
  - intros Hm. unfold threshold_measure.
    apply (collect_scores_stops measure Hpure a act st k e Hm);
      by rewrite ?Hmo, ?Hac.
  - intros H0 H100 Hmode. rewrite init_prefix by done.
    unfold bind at 1, __non_conformity_thresholds. unfold bind at 1.
    rewrite (collect_scores_stops measure Hpure _ act _ k e); [done| | | |].
    + apply init_state_measure.
    + by rewrite (init_state_output a mo epsilon mode st Ha).
    + rewrite (init_state_output a mo epsilon mode st Ha).
      by rewrite (init_state_actual a act ac epsilon mode st Hact).
    + rewrite (init_state_output a mo epsilon mode st Ha).
      by rewrite (init_state_actual a act ac epsilon mode st Hact).
Qed.

End GroupingProperties.

Lemma threshold_measure_groups_witness :
  fst (threshold_measure entry_measure (VArray 0) 1 scenario_state)
  = Ok [(0, [1; 2]%Q); (1, [3; 4]%Q); (2, [5; 6]%Q)].
Proof.
  rewrite (proj1 (threshold_measure_groups entry_measure 0 1 calibration_output
                    calibration_actual scenario_state
                    (fun _ _ => eq_refl) eq_refl eq_refl eq_refl
                    scenario_valid_batch)).
  reflexivity.
Defined.

Lemma calibration_stops_at_bad_row_witness :
  fst (__init__ entry_measure (Ok NaN) (VArray 0) 0 50 (VInt 0) blank_state)
  = Raise IndexError.
Proof.
  refine (proj2 (calibration_stops_at_bad_row entry_measure (Ok NaN) 0 0
                   calibration_output calibration_output blank_state 1
                   IndexError 50 0 _ _ _ _ _ _) _ _ _).
  - intros row label. reflexivity.
  - reflexivity.
  - reflexivity.
  - simpl. lia.
  - intros [|i] Hi; [|lia]. eexists _, _.
    split; [reflexivity|]. split; [reflexivity|]. simpl. lia.
  - left. split; [reflexivity|]. right. eexists. split; reflexivity.
  - discriminate.
  - discriminate.
  - by left.
Defined.

(** ** Calibrate, predict, evaluate *)

Section Coverage.

Variable measure : list Q -> nat -> Q * list (nat * Q).
Variable percentile_of_empty : result npfloat.
Hypothesis measure_pure : pure_measure measure.

Lemma calibration_score_in (outputs actual : list (list Q)) (i t : nat)
    (o r : list Q) :
  outputs !! i = Some o -> actual !! i = Some r -> true_label r = Ok t ->
  In (fst (measure o t)) (calibration_scores measure outputs actual t).
Proof.
  intros Ho Hr Ht. unfold calibration_scores. apply in_flat_map.
  exists (o, r). split.
  - apply list_elem_of_In, list_elem_of_lookup. exists i.
    apply lookup_zip_with_Some. eauto.
  - simpl. unfold label_is. rewrite Ht, Nat.eqb_refl. by left.
Qed.

Lemma maximum_upper_bound (scores : list Q) (x : Q) :
  In x scores -> (x <= maximum scores)%Q.
Proof.
  destruct scores as [|y l]; [done|]. simpl maximum.
  intros Hx. by apply list_max_spec.
Qed.

(** When every row's own score is within the threshold of its true label,
    predicting on the calibration batch and evaluating against its labels
    gives full accuracy. *)
Lemma full_coverage (thr : gmap nat npfloat) (mo ac : ndarray) :
  valid_batch mo ac ->
  length (rows mo) = length (rows ac) ->
  0 < length (rows mo) ->
  wf_array mo ->
  (forall i o r t, rows mo !! i = Some o -> rows ac !! i = Some r ->
                   true_label r = Ok t ->
                   label_included measure thr o t = true) ->
  exists accuracy,
    evaluate
      (map (fun row =>
              List.filter (label_included measure thr row)
                          (seq 0 (length row)))
           (rows mo))
      (rows ac) = Ok accuracy /\ (accuracy == 1)%Q.
Proof.
  intros [_ Hvalid] Hlen Hpos Hwf Hwithin.
  rewrite Hlen, firstn_all in Hvalid.
  unfold evaluate. rewrite evaluate_loop_ok.
  - rewrite drop_0. simpl.
    destruct (Nat.eqb_spec (length (rows ac)) 0); [lia|].
    eexists. split; [done|].
    rewrite count_where_all.
    + rewrite length_zip_with, length_map, Hlen, Nat.min_id.
      assert ((0 < of_nat (length (rows ac)))%Q) by (apply of_nat_pos; lia).
      field. lra.
    + apply Forall_lookup_2. intros i [set r] Hi.
      apply lookup_zip_with_Some in Hi as (set' & r' & [= -> ->] & Hset & Hr).
      rewrite list_lookup_fmap in Hset.
      destruct (rows mo !! i) as [o|] eqn:Ho; [|done].
      simpl in Hset. injection Hset as <-.
      destruct (Forall_lookup_1 _ _ _ _ Hvalid Hr) as (t & Ht & Hlt).
      unfold hit. simpl. rewrite Ht. apply bool_decide_eq_true.
      apply elem_of_filter_seq. split; [|by eapply Hwithin].
      rewrite (Forall_lookup_1 _ _ _ _ Hwf Ho). done.
  - rewrite length_map. lia.
  - rewrite drop_0, length_map, Hlen, firstn_all.
    eapply Forall_impl; [exact Hvalid|]. intros r (t & Ht & _). eauto.
Qed.

(** The state a successful construction ends in, seen from [predict]. *)
Lemma predict_after_init (a : nat) (mo : ndarray) (st : state) (mode : Z)
    (epsilon : Q) (thr : gmap nat npfloat) :
  heap st !! a = Some mo ->
  wf_array mo ->
  (forall l, l < shape1 mo -> is_Some (thr !! l)) ->
  fst (predict measure (VArray a)
         (set_self (<["thresholds" := ADict thr]>
                      (self (init_state mode epsilon a st)))
                   (init_state mode epsilon a st)))
  = Ok (map (fun row =>
               List.filter (label_included measure thr row)
                           (seq 0 (length row)))
            (rows mo)).
Proof.
  intros Ha Hwf Hdom.
  rewrite (predict_narrow_run measure measure_pure thr (shape1 mo) a mo);
    [done| | |exact Hdom| |].
  - unfold init_state, init_attrs. simpl. by simplify_map_eq.
  - simpl. apply lookup_insert_eq.
  - unfold init_state. simpl. rewrite lookup_app_l; [exact Ha|].
    by eapply lookup_lt_Some.
  - eapply Forall_impl; [exact Hwf|]. intros row Hrow. simpl in *. lia.
Qed.

End Coverage.

Section CoverageProperties.

Variable measure : list Q -> nat -> Q * list (nat * Q).
Variable percentile_of_empty : result npfloat.

Lemma le_npfloat_maximum (scores : list Q) (s p : Q) :
  In s scores -> (p == maximum scores)%Q -> le_npfloat s (Fin p) = true.
Proof.
  intros Hs Hp. simpl. apply Qle_bool_iff. rewrite Hp.
  by apply maximum_upper_bound.
Qed.

Lemma percentile_100_maximum (scores : list Q) :
  scores <> [] ->
  (percentile_nonempty scores (100 - 0) == maximum scores)%Q.
Proof.
  destruct scores as [|x l]; [done|]. intros _.
  apply percentile_nonempty_100. ring.
Qed.

Lemma percentile_0_minimum (scores : list Q) :
  scores <> [] ->
  (percentile_nonempty scores (100 - 100) == minimum scores)%Q.
Proof.
  destruct scores as [|x l]; [done|]. intros _.
  apply percentile_nonempty_0. ring.
Qed.

(** X11.  Calibrated at epsilon 0 with one threshold per label, the
    predictor covers its own calibration batch: [predict] on that batch puts
    every row's true label in the row's set, and [evaluate] of the result
    against the batch's labels is 1. *)
Theorem per_label_full_coverage (a act : nat) (mo ac : ndarray) (st : state) :
  pure_measure measure ->
  heap st !! a = Some mo ->
  heap st !! act = Some ac ->
  valid_batch mo ac ->
  length (rows mo) = length (rows ac) ->
  0 < length (rows mo) ->
  wf_array mo ->
  (forall l, l < shape1 mo ->
             calibration_scores measure (rows mo) (rows ac) l <> []) ->
  fst (__init__ measure percentile_of_empty (VArray a) act 0 (VInt 0) st)
  = Ok tt /\
  exists sets accuracy,
    fst (predict measure (VArray a)
           (snd (__init__ measure percentile_of_empty (VArray a) act 0
                   (VInt 0) st))) = Ok sets /\
    evaluate sets (rows ac) = Ok accuracy /\ (accuracy == 1)%Q.
Proof.
  intros Hpure Ha Hact Hvalid Hlen Hpos Hwf Hseen.
  rewrite (init_per_label measure percentile_of_empty Hpure a act mo ac 0 st)
    by (done || lra).
  set (p := fun l => Fin (percentile_nonempty
                            (calibration_scores measure (rows mo) (rows ac) l)
                            (100 - 0)%Q)).
  rewrite (map_result_ok _ (fun l => (l, p l))).
  2:{ intros l Hl%elem_of_seq.
      rewrite percentile_defined; [done| |lra|lra]. apply Hseen. lia. }
  split; [done|]. cbn [fst snd].
  assert (Hlook : forall l, l < shape1 mo ->
            (list_to_map (map (fun l => (l, p l)) (seq 0 (shape1 mo)))
               : gmap nat npfloat) !! l = Some (p l)).
  { intros l Hl. rewrite (lookup_list_to_map_graph p).
    rewrite bool_decide_true; [done|]. apply elem_of_seq. lia. }
  rewrite (predict_after_init measure Hpure a mo st _ _ _ Ha Hwf);
    [|intros l Hl; rewrite Hlook by done; eauto].
  destruct (full_coverage measure
              (list_to_map (map (fun l => (l, p l)) (seq 0 (shape1 mo))))
              mo ac Hvalid Hlen Hpos Hwf) as (accuracy & Hev & Hone).
  - intros i o r t Ho Hr Ht.
    destruct (valid_batch_row mo ac i Hvalid) as (r' & t' & Hr' & Ht' & Hlt).
    { by eapply lookup_lt_Some. }
    assert (r' = r) as -> by congruence. assert (t' = t) as -> by congruence.
    unfold label_included. rewrite Hlook by done. unfold p.
    apply (le_npfloat_maximum
             (calibration_scores measure (rows mo) (rows ac) t)).
    + by eapply calibration_score_in.
    + apply percentile_100_maximum. by apply Hseen.
  - eauto.
Qed.

(** X12.  The same holds with the single global threshold: calibrated at
    epsilon 0 in global mode, the predictor covers its own calibration
    batch. *)
Theorem global_full_coverage (a act : nat) (mo ac : ndarray) (st : state) :
  pure_measure measure ->
  heap st !! a = Some mo ->
  heap st !! act = Some ac ->
  valid_batch mo ac ->
  length (rows mo) = length (rows ac) ->
  0 < length (rows mo) ->
  wf_array mo ->
  fst (__init__ measure percentile_of_empty (VArray a) act 0 (VInt 1) st)
  = Ok tt /\
  exists sets accuracy,
    fst (predict measure (VArray a)
           (snd (__init__ measure percentile_of_empty (VArray a) act 0
                   (VInt 1) st))) = Ok sets /\
    evaluate sets (rows ac) = Ok accuracy /\ (accuracy == 1)%Q.
Proof.
  intros Hpure Ha Hact Hvalid Hlen Hpos Hwf.
  assert (Hcols : 0 < shape1 mo).
  { destruct (valid_batch_row mo ac 0 Hvalid Hpos) as (r & t & _ & _ & Hlt). lia. }
  pose proof (pooled_scores_nonempty measure mo ac Hvalid Hpos) as Hpooled.
  rewrite (init_global measure percentile_of_empty Hpure a act mo ac 0 st)
    by (done || lra).
  rewrite percentile_defined; [|done|lra|lra].
  set (p := Fin (percentile_nonempty
                   (pooled_scores measure (rows mo) (rows ac) (shape1 mo))
                   (100 - 0)%Q)).
  split; [done|]. cbn [fst snd].
  assert (Hlook : forall l, l < shape1 mo ->
            (list_to_map (map (fun l => (l, p)) (seq 0 (shape1 mo)))
               : gmap nat npfloat) !! l = Some p).
  { intros l Hl. rewrite (lookup_list_to_map_graph (fun _ => p)).
    rewrite bool_decide_true; [done|]. apply elem_of_seq. lia. }
  rewrite (predict_after_init measure Hpure a mo st _ _ _ Ha Hwf);
    [|intros l Hl; rewrite Hlook by done; eauto].
  destruct (full_coverage measure
              (list_to_map (map (fun l => (l, p)) (seq 0 (shape1 mo))))
              mo ac Hvalid Hlen Hpos Hwf) as (accuracy & Hev & Hone).
  - intros i o r t Ho Hr Ht.
    destruct (valid_batch_row mo ac i Hvalid) as (r' & t' & Hr' & Ht' & Hlt).
    { by eapply lookup_lt_Some. }
    assert (r' = r) as -> by congruence. assert (t' = t) as -> by congruence.
    unfold label_included. rewrite Hlook by done. unfold p.
    apply (le_npfloat_maximum
             (pooled_scores measure (rows mo) (rows ac) (shape1 mo))).
    + unfold pooled_scores. apply in_concat.
      exists (calibration_scores measure (rows mo) (rows ac) t). split.
      * apply in_map, in_seq. lia.
      * by eapply calibration_score_in.
    + by apply percentile_100_maximum.
  - eauto.
Qed.

(** X13.  In global mode the shared threshold is, at epsilon 0, the greatest
    of all calibration scores and, at epsilon 100, the least. *)
Theorem global_threshold_extremes (a act : nat) (mo ac : ndarray) (st : state) :
  pure_measure measure ->
  heap st !! a = Some mo ->
  heap st !! act = Some ac ->
  valid_batch mo ac ->
  0 < length (rows mo) ->
  (exists thr t,
      self (snd (__init__ measure percentile_of_empty (VArray a) act 0
                   (VInt 1) st)) !! "thresholds" = Some (ADict thr) /\
      (forall l, l < shape1 mo -> thr !! l = Some (Fin t)) /\
      (t == maximum (pooled_scores measure (rows mo) (rows ac) (shape1 mo)))%Q)
  /\
  (exists thr t,
      self (snd (__init__ measure percentile_of_empty (VArray a) act 100
                   (VInt 1) st)) !! "thresholds" = Some (ADict thr) /\
      (forall l, l < shape1 mo -> thr !! l = Some (Fin t)) /\
      (t == minimum (pooled_scores measure (rows mo) (rows ac) (shape1 mo)))%Q).
Proof.
  intros Hpure Ha Hact Hvalid Hpos.
  assert (Hcols : 0 < shape1 mo).
  { destruct (valid_batch_row mo ac 0 Hvalid Hpos) as (r & t & _ & _ & Hlt). lia. }
  pose proof (pooled_scores_nonempty measure mo ac Hvalid Hpos) as Hpooled.
  split.
  - rewrite (init_global measure percentile_of_empty Hpure a act mo ac 0 st)
      by (done || lra).
    rewrite percentile_defined; [|done|lra|lra].
    eexists _, _. split; [simpl; apply lookup_insert_eq|]. split.
    + intros l Hl.
      rewrite (lookup_list_to_map_graph
                 (fun _ => Fin (percentile_nonempty
                                  (pooled_scores measure (rows mo) (rows ac)
                                     (shape1 mo)) (100 - 0)%Q))).
      rewrite bool_decide_true; [done|]. apply elem_of_seq. lia.
    + by apply percentile_100_maximum.
  - rewrite (init_global measure percentile_of_empty Hpure a act mo ac 100 st)
      by (done || lra).
    rewrite percentile_defined; [|done|lra|lra].
    eexists _, _. split; [simpl; apply lookup_insert_eq|]. split.
    + intros l Hl.
      rewrite (lookup_list_to_map_graph
                 (fun _ => Fin (percentile_nonempty
                                  (pooled_scores measure (rows mo) (rows ac)
                                     (shape1 mo)) (100 - 100)%Q))).
      rewrite bool_decide_true; [done|]. apply elem_of_seq. lia.
    + by apply percentile_0_minimum.
Qed.

End CoverageProperties.

Lemma scenario_wf : wf_array calibration_output.
Proof. repeat constructor. Qed.

Lemma per_label_full_coverage_witness :
  exists sets accuracy,
    fst (predict entry_measure (VArray 0) generous_state) = Ok sets /\
    evaluate sets (rows calibration_actual) = Ok accuracy /\ (accuracy == 1)%Q.
Proof.
  refine (proj2 (per_label_full_coverage entry_measure (Ok NaN) 0 1
                   calibration_output calibration_actual blank_state
                   _ _ _ scenario_valid_batch _ _ scenario_wf _)).
  - intros row label. reflexivity.
  - reflexivity.
  - reflexivity.
  - reflexivity.
  - simpl. lia.
  - intros [|[|[|l]]] Hl; try (vm_compute; discriminate). simpl in Hl. lia.
Defined.

Lemma global_full_coverage_witness :
  exists sets accuracy,
    fst (predict entry_measure (VArray 0)
           (snd (__init__ entry_measure (Ok NaN) (VArray 0) 1 0 (VInt 1)
                   blank_state))) = Ok sets /\
    evaluate sets (rows calibration_actual) = Ok accuracy /\ (accuracy == 1)%Q.
Proof.
  refine (proj2 (global_full_coverage entry_measure (Ok NaN) 0 1
                   calibration_output calibration_actual blank_state
                   _ _ _ scenario_valid_batch _ _ scenario_wf)).
  - intros row label. reflexivity.
  - reflexivity.
  - reflexivity.
  - reflexivity.
  - simpl. lia.
Defined.

Lemma global_threshold_extremes_witness :
  exists thr t,
    self (snd (__init__ entry_measure (Ok NaN) (VArray 0) 1 0 (VInt 1)
                 blank_state)) !! "thresholds" = Some (ADict thr) /\
    (forall l, l < 3 -> thr !! l = Some (Fin t)) /\ (t == 6)%Q.
Proof.
  destruct (global_threshold_extremes entry_measure (Ok NaN) 0 1
              calibration_output calibration_actual blank_state)
    as [(thr & t & Hthr & Hall & Hmax) _].
  - intros row label. reflexivity.
  - reflexivity.
  - reflexivity.
  - exact scenario_valid_batch.
  - simpl. lia.
  - exists thr, t. split; [exact Hthr|]. split; [exact Hall|].
    rewrite Hmax. vm_compute. reflexivity.
Defined.

(** ** [predict] and [confidence] with any measure *)

#[local] Instance same_widths_preorder (c : nat) : PreOrder (same_widths c).
Proof. split; unfold same_widths; [done|congruence]. Qed.

Section AnyMeasure.

Variable measure : list Q -> nat -> Q * list (nat * Q).

Lemma apply_writes_length (writes : list (nat * Q)) : forall row,
  length (apply_writes row writes) = length row.
Proof.
  unfold apply_writes. induction writes as [|w writes IH]; intros row; simpl.
  - done.
  - by rewrite IH, length_insert.
Qed.

(** What the measure writes into a row does not change the row's length. *)
Lemma call_measure_same_widths (c k label : nat) :
  respects (same_widths c) (call_measure measure c k label).
Proof.
  intros st. unfold call_measure, bind, getattr, same_widths.
  destruct (self st !! "measure") as [[]|]; simpl; try done.
  destruct (measure _ _) as [score writes]. simpl. unfold write_row.
  destruct (decide (c < length (heap st))) as [Hc|Hc].
  - rewrite list_lookup_total_insert_eq by done. simpl.
    rewrite list_fmap_insert.
    destruct (decide (k < length (rows (heap st !!! c)))) as [Hk|Hk].
    + apply list_insert_id. rewrite list_lookup_fmap.
      rewrite (list_lookup_lookup_total_lt _ k Hk). simpl.
      by rewrite apply_writes_length.
    + apply list_insert_ge. rewrite length_map. lia.
  - by rewrite list_insert_ge by lia.
Qed.

Lemma for_each_ensures_inv {A B} (I : state -> Prop) (P : A -> B -> Prop)
    (f : A -> M B) (l : list A) :
  (forall x st, I st -> I (snd (f x st))) ->
  (forall x st y, I st -> fst (f x st) = Ok y -> P x y) ->
  forall st ys, I st -> fst (for_each f l st) = Ok ys -> Forall2 P l ys.
Proof.
  intros HI HP. induction l as [|x l IH]; intros st ys Hst Hrun;
    simpl in Hrun.
  - injection Hrun as <-. constructor.
  - apply bind_ok in Hrun as (y & Hy & Hrest).
    apply bind_ok in Hrest as (ys' & Hys & Hret).
    injection Hret as <-. constructor; [by eapply HP|].
    eapply IH; [|exact Hys]. by apply HI.
Qed.

Lemma filter_where_ascending (c : nat -> M bool) : forall n a st ys,
  fst (filter_where c (seq a n) st) = Ok ys ->
  StronglySorted lt ys /\ Forall (fun y => a <= y < a + n) ys.
Proof.
  induction n as [|n IH]; intros a st ys Hrun; simpl in Hrun.
  - injection Hrun as <-. split; constructor.
  - apply bind_ok in Hrun as (b & Hb & Hrest).
    apply bind_ok in Hrest as (ys' & Hys & Hret).
    injection Hret as <-. apply IH in Hys as [Hsorted Hbound].
    assert (Hbound' : Forall (fun y => a <= y < a + S n) ys').
    { eapply Forall_impl; [exact Hbound|]. intros y Hy. simpl in Hy. lia. }
    destruct b; [|done]. split.
    + constructor; [done|]. eapply Forall_impl; [exact Hbound|].
      intros y Hy. simpl in Hy. lia.
    + constructor; [lia|done].
Qed.

End AnyMeasure.

Section AnyMeasureProperties.

Variable measure : list Q -> nat -> Q * list (nat * Q).

Lemma same_widths_row (c k : nat) (batch : ndarray) (st : state) :
  map length (rows (heap st !!! c)) = map length (rows batch) ->
  length (rows (heap st !!! c) !!! k) = length (rows batch !!! k).
Proof.
  generalize (rows (heap st !!! c)) as l1. generalize (rows batch) as l2.
  intros l2 l1 Hw.
  assert (Hlen : length l1 = length l2).
  { by rewrite <- (length_map length), Hw, length_map. }
  destruct (decide (k < length l2)) as [Hk|Hk].
  - rewrite <- !(list_lookup_total_fmap length) by lia.
    change (map length l1 !!! k = map length l2 !!! k).
    by rewrite Hw.
  - by rewrite !list_lookup_total_alt, !lookup_ge_None_2 by lia.
Qed.

(** X14.  Whatever the measure does, when [predict] returns it returns one
    set per row, in row order, each a strictly ascending list of label
    indices below the row's length; and the call has allocated exactly one
    array, the copy it worked on. *)
Theorem predict_sets_shape (a : nat) (batch : ndarray) (st : state)
    (sets : list (list nat)) :
  heap st !! a = Some batch ->
  fst (predict measure (VArray a) st) = Ok sets ->
  Forall2 (fun row set =>
             StronglySorted lt set /\ forall l, l ∈ set -> l < length row)
          (rows batch) sets /\
  length (heap (snd (predict measure (VArray a) st))) = S (length (heap st)).
Proof.
  intros Ha Hrun. rewrite predict_unfold in Hrun |- *.
  rewrite (list_lookup_total_correct _ _ _ Ha) in Hrun |- *.
  set (c := length (heap st)) in *.
  set (st1 := set_heap (heap st ++ [batch]) st) in *.
  assert (Hc : heap st1 !!! c = batch) by apply heap_after_copy.
  split.
  - unfold predict_rows in Hrun.
    apply bind_ok in Hrun as (n & Hn & Hrun).
    unfold np_len in Hn, Hrun. simpl in Hn, Hrun. injection Hn as <-.
    change ((heap st ++ [batch]) !!! c) with (heap st1 !!! c) in Hrun.
    rewrite Hc in Hrun.
    rewrite <- (map_id (rows batch)) at 1.
    rewrite <- (map_lookup_total_seq id).
    apply Forall2_fmap_l.
    revert Hrun.
    apply (for_each_ensures_inv
             (fun st' => map length (rows (heap st' !!! c))
                         = map length (rows batch))).
    + intros k st' Hst'. rewrite <- Hst'.
      match goal with
      | |- map length (rows (heap (snd (?m st')) !!! c)) = _ =>
          cut (respects (same_widths c) m); [intros Hr; apply Hr|]
      end.
      apply respects_bind; [apply _| |].
      * apply respects_row_len. apply _.
      * intros len_output. apply respects_filter_where; [apply _|]. intros i.
        apply respects_bind; [apply _|apply call_measure_same_widths|].
        intros score.
        apply respects_bind; [apply _|apply respects_get_threshold; apply _|].
        intros t. apply respects_ret. apply _.
    + intros k st' set Hst' Hbody.
      apply bind_ok in Hbody as (len_output & Hlen & Hbody).
      unfold row_len in Hlen, Hbody. simpl in Hlen, Hbody.
      injection Hlen as <-.
      rewrite (same_widths_row c k batch st' Hst') in Hbody.
      apply filter_where_ascending in Hbody as [Hsorted Hbound].
      simpl. split; [done|]. intros l Hl.
      rewrite Forall_forall in Hbound. specialize (Hbound l Hl). simpl in *. lia.
    + by rewrite Hc.
  - pose proof (respects_predict_rows measure keeps_length c
                  (call_measure_keeps_length measure c) st1) as Hlen.
    unfold keeps_length in Hlen. rewrite Hlen. unfold st1. simpl.
    rewrite length_app. simpl. lia.
Qed.

Lemma confidence_unfold (a : nat) (st : state) :
  confidence measure (VArray a) st
  = confidence_rows measure (length (heap st))
      (set_heap (heap st ++ [heap st !!! a]) st).
Proof. reflexivity. Qed.

Lemma agree_confidence_rows (c1 c2 : nat) :
  corresponds (agree c1 c2)
    (confidence_rows measure c1) (confidence_rows measure c2).
Proof.
  unfold confidence_rows.
  apply corresponds_bind; [apply agree_np_len|]. intros n.
  apply corresponds_for_each. intros k.
  apply corresponds_bind; [apply agree_row_len|]. intros len_output.
  apply corresponds_for_each. intros i. apply agree_call_measure.
Qed.

(** X15.  What [predict] and [confidence] return depends on the attributes
    of the instance and on the contents of the batch alone, whatever the
    measure does: from two states with the same instance, on two arrays with
    the same contents, the results are the same.  The other arrays of the
    heap, the calibration arrays among them, play no part. *)
Theorem predict_depends_on_batch_only (a a' : nat) (batch : ndarray)
    (st st' : state) :
  self st = self st' ->
  heap st !! a = Some batch ->
  heap st' !! a' = Some batch ->
  fst (predict measure (VArray a) st) = fst (predict measure (VArray a') st')
  /\
  fst (confidence measure (VArray a) st)
  = fst (confidence measure (VArray a') st').
Proof.
  intros Hself Ha Ha'.
  assert (Hagree : agree (length (heap st)) (length (heap st'))
                     (set_heap (heap st ++ [heap st !!! a]) st)
                     (set_heap (heap st' ++ [heap st' !!! a']) st')).
  { unfold agree. simpl. rewrite !length_app, !heap_after_copy. simpl.
    split; [done|]. split; [lia|]. split; [lia|].
    by rewrite (list_lookup_total_correct _ _ _ Ha),
               (list_lookup_total_correct _ _ _ Ha'). }
  split.
  - rewrite !predict_unfold. by apply agree_predict_rows.
  - rewrite !confidence_unfold. by apply agree_confidence_rows.
Qed.

(** X16.  An argument that is not a numpy array is refused at once, with
    nothing touched: [TypeError] from the constructor, [predict] and
    [confidence], which check the type; [AttributeError] from
    [threshold_measure], which does not and asks for [shape]. *)
Theorem non_array_refused (percentile_of_empty : result npfloat) (v : value)
    (actual : nat) (epsilon : Q) (threshold_mode : value) (st : state) :
  type_module v <> "numpy" ->
  __init__ measure percentile_of_empty v actual epsilon threshold_mode st
  = (Raise TypeError, st) /\
  predict measure v st = (Raise TypeError, st) /\
  confidence measure v st = (Raise TypeError, st) /\
  threshold_measure measure v actual st = (Raise AttributeError, st).
Proof.
  intros Hty. unfold __init__, predict, confidence, threshold_measure.
  by destruct v.
Qed.

End AnyMeasureProperties.

Lemma predict_sets_shape_witness :
  Forall2 (fun row set =>
             StronglySorted lt set /\ forall l, l ∈ set -> l < length row)
          (rows new_output) [[0; 1]] /\
  length (heap (snd (predict scrubbing_measure (VArray 2) scenario_state)))
  = S (length (heap scenario_state)).
Proof.
  apply (predict_sets_shape scrubbing_measure 2 new_output scenario_state).
  - reflexivity.
  - vm_compute. reflexivity.
Defined.

Lemma predict_depends_on_batch_only_witness :
  fst (predict scrubbing_measure (VArray 2) scenario_state)
  = fst (predict scrubbing_measure (VArray 0)
           (mk_state [new_output] (self scenario_state) [])).
Proof.
  refine (proj1 (predict_depends_on_batch_only scrubbing_measure 2 0
                   new_output scenario_state
                   (mk_state [new_output] (self scenario_state) []) _ _ _)).
  - reflexivity.
  - reflexivity.
  - reflexivity.
Defined.

Lemma non_array_refused_witness :
  predict entry_measure (VList [[1; 2; 3]]%Q) scenario_state
  = (Raise TypeError, scenario_state).
Proof.
  refine (proj1 (proj2 (non_array_refused entry_measure (Ok NaN)
                          (VList [[1; 2; 3]]%Q) 1 50 (VInt 0) scenario_state
                          _))).
  discriminate.
Defined.

(** ** [label_histogram] on sets of any size *)

Section HistogramTotals.

Variables (first_edge last_edge : Q) (bins : nat).
Hypothesis Hbins : 0 < bins.
Hypothesis Hrange : (first_edge <= last_edge)%Q.

Lemma bin_width_nonneg : (0 <= (last_edge - first_edge) / of_nat bins)%Q.
Proof.
  apply Qle_shift_div_l; [by apply of_nat_pos|]. lra.
Qed.

Lemma of_nat_S (j : nat) : (of_nat (S j) == of_nat j + 1)%Q.
Proof.
  unfold of_nat. rewrite Nat2Z.inj_succ, <- Z.add_1_r, inject_Z_plus. reflexivity.
Qed.

Lemma bin_edge_first : (bin_edge first_edge last_edge bins 0 == first_edge)%Q.
Proof.
  unfold bin_edge. destruct (Nat.eqb_spec 0 bins); [lia|].
  change (of_nat 0) with 0%Q. ring.
Qed.

(** The edges ascend. *)
Lemma bin_edge_mono (j : nat) :
  j < bins ->
  (bin_edge first_edge last_edge bins j
   <= bin_edge first_edge last_edge bins (S j))%Q.
Proof.
  intros Hj. pose proof bin_width_nonneg as Hw. unfold bin_edge.
  destruct (Nat.eqb_spec j bins); [lia|].
  destruct (Nat.eqb_spec (S j) bins) as [E|E].
  - assert (Hle : (of_nat j * ((last_edge - first_edge) / of_nat bins)
                   <= of_nat bins * ((last_edge - first_edge) / of_nat bins))%Q).
    { apply Qmult_le_compat_r; [|done]. unfold of_nat. rewrite <- Zle_Qle. lia. }
    assert (Hall : (of_nat bins * ((last_edge - first_edge) / of_nat bins)
                    == last_edge - first_edge)%Q).
    { pose proof (of_nat_pos bins Hbins). field. lra. }
    lra.
  - rewrite of_nat_S. lra.
Qed.

Variable x : Q.
Hypothesis Hlow : (first_edge <= x)%Q.
Hypothesis Hhigh : (x <= last_edge)%Q.

Lemma count_where_single {A} (p : A -> bool) (y : A) :
  count_where p [y] = if p y then 1 else 0.
Proof. unfold count_where. simpl. by destruct (p y). Qed.

(** Among the bins before [k], the value is in one exactly when it is below
    edge [k]. *)
Lemma count_bins_before (k : nat) :
  k < bins ->
  count_where (fun j => in_bin first_edge last_edge bins j x) (seq 0 k)
  = if Qlt_bool x (bin_edge first_edge last_edge bins k) then 1 else 0.
Proof.
  induction k as [|k IH]; intros Hk.
  - unfold Qlt_bool.
    assert (H0 : Qle_bool (bin_edge first_edge last_edge bins 0) x = true).
    { apply Qle_bool_iff. rewrite bin_edge_first. done. }
    by rewrite H0.
  - rewrite seq_S, count_where_app, IH by lia. change (0 + k) with k.
    rewrite count_where_single. unfold in_bin.
    destruct (Nat.eqb_spec (S k) bins); [lia|].
    pose proof (bin_edge_mono k ltac:(lia)) as Hmono.
    unfold Qlt_bool.
    destruct (Qle_bool (bin_edge first_edge last_edge bins (S k)) x) eqn:H1;
      destruct (Qle_bool (bin_edge first_edge last_edge bins k) x) eqn:H0;
      simpl; try done.
    exfalso. apply Qle_bool_iff in H1.
    apply not_true_iff_false in H0. apply H0, Qle_bool_iff. lra.
Qed.

(** A value within the range is in exactly one bin. *)
Lemma in_exactly_one_bin :
  count_where (fun j => in_bin first_edge last_edge bins j x) (seq 0 bins) = 1.
Proof.
  destruct (Nat.lt_exists_pred 0 bins Hbins) as (b & Eb & _).
  assert (Hseq : seq 0 bins = seq 0 b ++ [b]) by (rewrite Eb; apply seq_S).
  rewrite Hseq, count_where_app, count_bins_before by lia.
  rewrite count_where_single. unfold in_bin.
  replace (S b =? bins) with true by (symmetry; apply Nat.eqb_eq; lia).
  assert (Hlast : Qle_bool x (bin_edge first_edge last_edge bins (S b)) = true).
  { apply Qle_bool_iff. unfold bin_edge.
    replace (S b =? bins) with true by (symmetry; apply Nat.eqb_eq; lia).
    done. }
  rewrite Hlast. unfold Qlt_bool.
  by destruct (Qle_bool (bin_edge first_edge last_edge bins b) x).
Qed.

End HistogramTotals.

Section HistogramSums.

Lemma sum_list_pointwise (f g : nat -> nat) (ls : list nat) :
  sum_list (map (fun j => f j + g j) ls)
  = sum_list (map f ls) + sum_list (map g ls).
Proof. induction ls as [|j ls IH]; simpl; [done|]. rewrite IH. lia. Qed.

Lemma sum_list_indicator (p : nat -> bool) (ls : list nat) :
  sum_list (map (fun j => if p j then 1 else 0) ls) = count_where p ls.
Proof.
  unfold count_where. induction ls as [|j ls IH]; simpl; [done|].
  rewrite IH. by destruct (p j).
Qed.

(** Counting bin by bin counts every value of the range once. *)
Lemma bin_counts_total (first_edge last_edge : Q) (bins : nat) (a : list Q) :
  0 < bins -> (first_edge <= last_edge)%Q ->
  Forall (fun x => (first_edge <= x)%Q /\ (x <= last_edge)%Q) a ->
  sum_list (map (fun j => count_where (in_bin first_edge last_edge bins j) a)
                (seq 0 bins))
  = length a.
Proof.
  intros Hbins Hrange. induction 1 as [|x a [Hlow Hhigh] _ IH]; simpl.
  - induction (seq 0 bins); simpl; [done|]. done.
  - rewrite <- IH.
    transitivity
      (count_where (fun j => in_bin first_edge last_edge bins j x) (seq 0 bins)
       + sum_list
           (map (fun j => count_where (in_bin first_edge last_edge bins j) a)
                (seq 0 bins))).
    2:{ by rewrite in_exactly_one_bin. }
    rewrite <- sum_list_indicator, <- sum_list_pointwise.
    f_equal. apply map_ext. intros j. unfold count_where. simpl.
    by destruct (in_bin first_edge last_edge bins j x).
Qed.

(** The range [np.histogram] chooses holds all the data. *)
Lemma outer_edges_hold (a : list Q) :
  (fst (outer_edges a) <= snd (outer_edges a))%Q /\
  Forall (fun x => (fst (outer_edges a) <= x)%Q /\ (x <= snd (outer_edges a))%Q)
         a.
Proof.
  unfold outer_edges. destruct a as [|x l]; [simpl; split; [lra|constructor]|].
  destruct (list_min_spec l x) as [Hmin_in Hmin].
  destruct (list_max_spec l x) as [Hmax_in Hmax].
  assert (Hle : (list_min x l <= list_max x l)%Q).
  { apply (Qle_trans _ x); [apply Hmin|apply Hmax]; by left. }
  destruct (Qeq_bool _ _); simpl; (split; [lra|]); apply Forall_forall;
    intros y Hy%list_elem_of_In; specialize (Hmin y Hy);
    specialize (Hmax y Hy); lra.
Qed.

Lemma Z_sum_shift (counts : list nat) :
  foldr Z.add 0%Z (map (fun y => (y - 1)%Z) (map Z.of_nat counts))
  = (Z.of_nat (sum_list counts) - Z.of_nat (length counts))%Z.
Proof. induction counts as [|c counts IH]; simpl; [done|]. lia. Qed.

(** [np.histogram] with a positive number of bins counts every value
    once. *)
Lemma np_histogram_total (a : list Q) (bins : nat) :
  0 < bins ->
  exists counts : list nat,
    np_histogram a bins = Ok (map Z.of_nat counts) /\
    length counts = bins /\ sum_list counts = length a.
Proof.
  intros Hbins. unfold np_histogram.
  destruct (Nat.eqb_spec bins 0); [lia|].
  destruct (outer_edges_hold a) as [Hrange Hall].
  destruct (outer_edges a) as [first_edge last_edge]. simpl in *.
  exists (map (fun j => count_where (in_bin first_edge last_edge bins j) a)
              (seq 0 bins)).
  split; [by rewrite map_map|]. split.
  - by rewrite length_map, length_seq.
  - by apply bin_counts_total.
Qed.

(** X17.  Whatever the sizes of the prediction sets, [label_histogram]
    returns [labels + 1] entries that add up to the number of predictions;
    it hands exactly this histogram to the rendering sink, under the path
    with [".png"] appended, when a path is given, and nothing otherwise. *)
Theorem label_histogram_totals (n_labels : nat) (predictions : list (list nat))
    (save_path title : option string) (st : state) :
  self st !! "labels" = Some (AInt (Z.of_nat n_labels)) ->
  exists histogram,
    fst (label_histogram predictions save_path title st) = Ok histogram /\
    length histogram = n_labels + 1 /\
    foldr Z.add 0%Z histogram = Z.of_nat (length predictions) /\
    plots (snd (label_histogram predictions save_path title st))
    = match save_path with
      | Some path =>
          plots st
          ++ [(histogram, n_labels, String.append path ".png",
               match title with
               | Some t => t
               | None => "Histogram of Count of Labels in Prediction "
               end)]
      | None => plots st
      end.
Proof.
  intros Hattr.
  destruct (np_histogram_total
              (map inject_Z (map (fun p => Z.of_nat (length p)) predictions))
              (n_labels + 1)) as (dead & Hdead & _); [lia|].
  destruct (np_histogram_total
              (map inject_Z
                 (map (fun p => Z.of_nat (length p)) predictions
                  ++ map Z.of_nat (seq 0 (n_labels + 1))))
              (n_labels + 1)) as (counts & Hcounts & Hlen & Hsum); [lia|].
  rewrite !length_map, length_app, !length_map, length_seq in Hsum.
  set (histogram := map (fun y => (y - 1)%Z) (map Z.of_nat counts)).
  assert (Hrun :
    label_histogram predictions save_path title st
    = (Ok histogram,
       match save_path with
       | Some path =>
           set_plots
             (plots st
              ++ [(histogram, n_labels, String.append path ".png",
                   match title with
                   | Some t => t
                   | None => "Histogram of Count of Labels in Prediction "
                   end)]) st
       | None => st
       end)).
  { unfold label_histogram.
    unfold bind at 1. rewrite (get_labels_run n_labels) by done.
    unfold bind at 1, lift at 1. rewrite Hdead.
    unfold bind at 1. rewrite (get_labels_run n_labels) by done.
    unfold bind at 1. rewrite (get_labels_run n_labels) by done.
    unfold bind at 1, lift at 1. rewrite Hcounts.
    destruct save_path as [path|]; unfold bind at 1; [|done].
    unfold bind at 1. rewrite (get_labels_run n_labels) by done. done. }
  rewrite Hrun. exists histogram. split; [done|]. split; [|split].
  - unfold histogram. rewrite !length_map. lia.
  - unfold histogram. rewrite Z_sum_shift, Hsum, Hlen. lia.
  - by destruct save_path.
Qed.

End HistogramSums.

Lemma label_histogram_totals_witness :
  exists histogram,
    fst (label_histogram [[0]; [0; 1; 2; 3; 4; 5; 6]] (Some "sizes") None
           scenario_state) = Ok histogram /\
    length histogram = 3 + 1 /\
    foldr Z.add 0%Z histogram = 2%Z /\
    plots (snd (label_histogram [[0]; [0; 1; 2; 3; 4; 5; 6]] (Some "sizes")
                  None scenario_state))
    = [(histogram, 3, "sizes.png",
        "Histogram of Count of Labels in Prediction ")].
Proof.
  apply (label_histogram_totals 3 [[0]; [0; 1; 2; 3; 4; 5; 6]] (Some "sizes")
           None scenario_state).
  reflexivity.
Defined.

(** ** A calibration batch without rows *)

Section EmptyBatch.

Variable measure : list Q -> nat -> Q * list (nat * Q).
Variable percentile_of_empty : result npfloat.

Lemma collect_scores_no_rows (c act : nat) (st : state) :
  rows (heap st !!! c) = [] ->
  collect_scores measure c act st
  = (Ok (empty_lists (shape1 (heap st !!! c))), st).
Proof.
  intros Hrows. unfold collect_scores, bind, np_shape1, np_len.
  by rewrite Hrows.
Qed.

Lemma dict_keys_empty_lists (n : nat) :
  dict_keys (empty_lists n) = seq 0 n.
Proof. unfold empty_lists. apply dict_keys_map. Qed.

Lemma percentile_of_no_scores (q : Q) :
  (0 <= q)%Q -> (q <= 100)%Q ->
  percentile percentile_of_empty [] q = percentile_of_empty.
Proof. intros H0 H100. unfold percentile. by rewrite range_check. Qed.

Lemma concat_no_scores (n : nat) :
  concat (map (fun label : nat =>
                 default [] (dict_get (empty_lists n) label)) (seq 0 n))
  = ([] : list Q).
Proof.
  assert (H : forall ls : list nat,
            concat (map (fun label : nat =>
                           default [] (dict_get (empty_lists n) label)) ls)
            = ([] : list Q)).
  { induction ls as [|l ls IH]; simpl; [done|]. rewrite IH, app_nil_r.
    unfold empty_lists. rewrite dict_get_map_seq. by case_bool_decide. }
  apply H.
Qed.

Lemma thresholds_no_rows_per_label (c act : nat) (epsilon : Q) (st : state) :
  self st !! "selected_threshold_mode" = Some (AInt 0) ->
  self st !! "epsilon" = Some (ANum epsilon) ->
  (0 <= epsilon)%Q -> (epsilon <= 100)%Q ->
  rows (heap st !!! c) = [] ->
  __non_conformity_thresholds measure percentile_of_empty c act st
  = (match map_result
             (fun l => match percentile_of_empty with
                       | Ok p => Ok (l, p)
                       | Raise e => Raise e
                       end)
             (seq 0 (shape1 (heap st !!! c))) with
     | Ok thresholds => Ok (ADict (list_to_map thresholds))
     | Raise e => Raise e
     end, st).
Proof.
  intros Hmode Heps H0 H100 Hrows. unfold __non_conformity_thresholds.
  unfold bind at 1. rewrite collect_scores_no_rows by done.
  unfold bind at 1, getattr at 1. rewrite Hmode.
  rewrite dict_keys_empty_lists. unfold bind at 1.
  set (g := fun l : nat => match percentile_of_empty with
                           | Ok p => Ok (l, p)
                           | Raise e => Raise e
                           end).
  rewrite (for_each_result _ g).
  - by destruct (map_result _ _).
  - intros l Hl%elem_of_seq. unfold g.
    unfold bind at 1, getattr at 1. rewrite Heps.
    unfold empty_lists. rewrite dict_get_map_seq. case_bool_decide; [|lia].
    simpl. rewrite percentile_of_no_scores by lra.
    unfold bind, lift, ret. by destruct percentile_of_empty.
Qed.

Lemma thresholds_no_rows_global (c act : nat) (epsilon : Q) (st : state) :
  self st !! "selected_threshold_mode" = Some (AInt 1) ->
  self st !! "epsilon" = Some (ANum epsilon) ->
  (0 <= epsilon)%Q -> (epsilon <= 100)%Q ->
  rows (heap st !!! c) = [] ->
  __non_conformity_thresholds measure percentile_of_empty c act st
  = (match shape1 (heap st !!! c) with
     | 0 => Raise ValueError
     | S _ =>
         match percentile_of_empty with
         | Ok p =>
             Ok (ADict (list_to_map
                          (map (fun l => (l, p))
                               (seq 0 (shape1 (heap st !!! c))))))
         | Raise e => Raise e
         end
     end, st).
Proof.
  intros Hmode Heps H0 H100 Hrows. unfold __non_conformity_thresholds.
  unfold bind at 1. rewrite collect_scores_no_rows by done.
  unfold bind at 1, getattr at 1. rewrite Hmode.
  rewrite !dict_keys_empty_lists.
  unfold bind at 1, lift at 1, np_concatenate.
  destruct (shape1 (heap st !!! c)) as [|n] eqn:Hn; [done|].
  rewrite <- Hn.
  destruct (map _ (seq 0 (shape1 (heap st !!! c)))) as [|s ss] eqn:Hmap.
  { rewrite Hn in Hmap. simpl in Hmap. done. }
  rewrite <- Hmap, concat_no_scores.
  unfold bind at 1, getattr at 1. rewrite Heps.
  rewrite percentile_of_no_scores by lra.
  unfold bind, lift, ret. rewrite Hn. by destruct percentile_of_empty.
Qed.

(** X19.  A calibration batch without rows, whatever the measure.  With no
    column either, per-label mode constructs a predictor with an empty
    threshold map, while global mode raises [ValueError]: there is nothing to
    concatenate.  With columns, either mode asks numpy for the percentile of
    an empty list: what numpy raises comes out of the constructor, what it
    returns becomes the threshold of every label. *)
Theorem init_empty_batch (a act : nat) (mo : ndarray) (epsilon : Q) (st : state) :
  heap st !! a = Some mo ->
  rows mo = [] ->
  (0 <= epsilon)%Q -> (epsilon <= 100)%Q ->
  (shape1 mo = 0 ->
   fst (__init__ measure percentile_of_empty (VArray a) act epsilon (VInt 0) st)
   = Ok tt /\
   self (snd (__init__ measure percentile_of_empty (VArray a) act epsilon
                (VInt 0) st)) !! "thresholds" = Some (ADict ∅) /\
   fst (__init__ measure percentile_of_empty (VArray a) act epsilon (VInt 1) st)
   = Raise ValueError) /\
  (0 < shape1 mo ->
   forall mode, mode = 0%Z \/ mode = 1%Z ->
     match percentile_of_empty with
     | Raise e =>
         fst (__init__ measure percentile_of_empty (VArray a) act epsilon
                (VInt mode) st) = Raise e
     | Ok v =>
         fst (__init__ measure percentile_of_empty (VArray a) act epsilon
                (VInt mode) st) = Ok tt /\
         exists thr,
           self (snd (__init__ measure percentile_of_empty (VArray a) act
                        epsilon (VInt mode) st)) !! "thresholds"
           = Some (ADict thr) /\
           forall l, l < shape1 mo -> thr !! l = Some v
     end).
Proof.
  intros Ha Hrows H0 H100.
  assert (Hout : forall mode,
            heap (init_state mode epsilon a st) !!! length (heap st) = mo).
  { intros mode. by apply init_state_output. }
  assert (Hper : forall mode, mode = 0%Z ->
            __init__ measure percentile_of_empty (VArray a) act epsilon
              (VInt mode) st
            = bind (fun s => (match map_result
                                      (fun l => match percentile_of_empty with
                                                | Ok p => Ok (l, p)
                                                | Raise e => Raise e
                                                end)
                                      (seq 0 (shape1 mo)) with
                              | Ok thresholds =>
                                  Ok (ADict (list_to_map thresholds))
                              | Raise e => Raise e
                              end, s))
                   (setattr "thresholds") (init_state mode epsilon a st)).
  { intros mode ->. rewrite init_prefix by auto. unfold bind.
    rewrite (thresholds_no_rows_per_label _ _ epsilon);
      [by rewrite Hout | apply init_state_mode | apply init_state_epsilon
      | done | done | by rewrite Hout]. }
  assert (Hglob : forall mode, mode = 1%Z ->
            __init__ measure percentile_of_empty (VArray a) act epsilon
              (VInt mode) st
            = bind (fun s => (match shape1 mo with
                              | 0 => Raise ValueError
                              | S _ =>
                                  match percentile_of_empty with
                                  | Ok p =>
                                      Ok (ADict (list_to_map
                                                   (map (fun l => (l, p))
                                                        (seq 0 (shape1 mo)))))
                                  | Raise e => Raise e
                                  end
                              end, s))
                   (setattr "thresholds") (init_state mode epsilon a st)).
  { intros mode ->. rewrite init_prefix by auto. unfold bind.
    rewrite (thresholds_no_rows_global _ _ epsilon);
      [by rewrite Hout | apply init_state_mode | apply init_state_epsilon
      | done | done | by rewrite Hout]. }
  split.
  - intros Hcols. split; [|split].
    + rewrite Hper by done. by rewrite Hcols.
    + rewrite Hper by done. rewrite Hcols. simpl. apply lookup_insert_eq.
    + rewrite Hglob by done. by rewrite Hcols.
  - intros Hcols mode [-> | ->].
    + rewrite Hper by done. unfold bind.
      destruct percentile_of_empty as [v|e].
      * rewrite (map_result_ok _ (fun l => (l, v))) by done.
        split; [done|].
        exists (list_to_map (map (fun l => (l, v)) (seq 0 (shape1 mo)))).
        split; [simpl; apply lookup_insert_eq|].
        intros l Hl. rewrite (lookup_list_to_map_graph (fun _ => v)).
        rewrite bool_decide_true; [done|]. apply elem_of_seq. lia.
      * rewrite (map_result_raise _ e); [done| |by intros l e' _ [= <-]].
        exists 0. split; [apply elem_of_seq; lia|done].
    + rewrite Hglob by done. unfold bind.
      destruct (shape1 mo) as [|n] eqn:Hn; [lia|].
      destruct percentile_of_empty as [v|e]; [|done].
      split; [done|].
      exists (list_to_map (map (fun l => (l, v)) (seq 0 (S n)))).
      split; [simpl; apply lookup_insert_eq|].
      intros l Hl. rewrite (lookup_list_to_map_graph (fun _ => v)).
      rewrite bool_decide_true; [done|]. apply elem_of_seq. lia.
Qed.

End EmptyBatch.


Lemma init_empty_batch_witness :
  fst (__init__ entry_measure (Ok NaN) (VArray 0) 0 50 (VInt 1) no_rows_state)
  = Ok tt /\
  exists thr,
    self (snd (__init__ entry_measure (Ok NaN) (VArray 0) 0 50 (VInt 1)
                 no_rows_state)) !! "thresholds" = Some (ADict thr) /\
    forall l, l < 2 -> thr !! l = Some NaN.
Proof.
  refine (proj2 (init_empty_batch entry_measure (Ok NaN) 0 0 (mk_ndarray 2 [])
                   50 no_rows_state _ _ _ _) _ 1%Z _).
  - reflexivity.
  - reflexivity.
  - vm_compute. discriminate.
  - vm_compute. discriminate.
  - simpl. lia.
  - right. reflexivity.
Defined.

Lemma init_constructs_witness :
  exists a thr,
    VArray 0 = VArray a /\
    self scenario_state !! "measure" = Some AMeasure /\
    self scenario_state !! "labels"
    = Some (AInt (Z.of_nat (shape1 (heap blank_state !!! a)))) /\
    self scenario_state !! "thresholds" = Some (ADict thr) /\
    forall l, l < shape1 (heap blank_state !!! a) -> is_Some (thr !! l).
Proof.
  apply (init_constructs entry_measure (Ok NaN) (VArray 0) 1 50 (VInt 0)
           blank_state).
  reflexivity.
Defined.
